(** * Manifest integrity and validation engine of process_triage

    A shallow embedding of the four scripts
      scripts/fixture_capture.py
      scripts/validate_fixture_manifest.py
      scripts/validate_e2e_manifest.py
      scripts/validate_capabilities_manifest.py
    and the properties their specification states about them.

    Python values are modelled as follows.
    - [pystr]: a Python [str], the list of its Unicode code points.
    - [bytes]: a Python [bytes], the list of its octets.
    - [json]: what [json.load] returns; a [dict] is an association list in
      insertion order (its keys are pairwise distinct, see [wf_json]).
    - [result]: a computation that returns or raises.
    - the [errors: List[str]] argument that every validator appends to is
      passed in and handed back. *)

From Stdlib Require Import String Ascii DecimalString.
From Stdlib Require Import List NArith ZArith Bool Lia Permutation Sorted.
Import ListNotations.

Set Implicit Arguments.
Set Warnings "-register-all".
Local Open Scope N_scope.
Local Open Scope list_scope.

(* ================================================================== *)
(** * Python strings                                                   *)
(* ================================================================== *)

Definition pystr : Type := list N.
Definition bytes : Type := list N.

(** A string literal of the source (ASCII only in these scripts). *)
Definition lit (x : string) : pystr :=
  List.map N_of_ascii (list_ascii_of_string x).

Fixpoint str_eqb (a b : pystr) : bool :=
  match a, b with
  | [], [] => true
  | x :: a', y :: b' => (x =? y) && str_eqb a' b'
  | _, _ => false
  end.

(** [a < b] on [str]: code point by code point, a proper prefix is smaller. *)
Fixpoint str_ltb (a b : pystr) : bool :=
  match a, b with
  | [], [] => false
  | [], _ :: _ => true
  | _ :: _, [] => false
  | x :: a', y :: b' => (x <? y) || ((x =? y) && str_ltb a' b')
  end.

Definition str_leb (a b : pystr) : bool := negb (str_ltb b a).

(** [needle in hay] for two strings. *)
Fixpoint starts_with (p s : pystr) : bool :=
  match p, s with
  | [], _ => true
  | x :: p', y :: s' => (x =? y) && starts_with p' s'
  | _ :: _, [] => false
  end.

Fixpoint str_contains (needle hay : pystr) : bool :=
  starts_with needle hay ||
  match hay with
  | [] => false
  | _ :: hay' => str_contains needle hay'
  end.

(** [value.endswith(suffix)] *)
Definition ends_with (suffix s : pystr) : bool :=
  starts_with (rev suffix) (rev s).

(** [sep.join(parts)] *)
Fixpoint join (sep : pystr) (parts : list pystr) : pystr :=
  match parts with
  | [] => []
  | [p] => p
  | p :: rest => p ++ sep ++ join sep rest
  end.

(** [str(n)] for an [int]. *)
Definition str_of_Z (n : Z) : pystr :=
  lit (NilZero.string_of_int (Z.to_int n)).

Definition str_of_nat (n : nat) : pystr := str_of_Z (Z.of_nat n).

(** [str.isspace] : the characters [str.strip()] removes. *)
Definition is_space (c : N) : bool :=
  ((9 <=? c) && (c <=? 13)) || ((28 <=? c) && (c <=? 32)) ||
  (c =? 133) || (c =? 160) || (c =? 5760) ||
  ((8192 <=? c) && (c <=? 8202)) || (c =? 8232) || (c =? 8233) ||
  (c =? 8239) || (c =? 8287) || (c =? 12288).

Fixpoint lstrip (s : pystr) : pystr :=
  match s with
  | c :: s' => if is_space c then lstrip s' else s
  | [] => []
  end.

Definition strip (s : pystr) : pystr := rev (lstrip (rev (lstrip s))).

(* ================================================================== *)
(** * JSON values                                                      *)
(* ================================================================== *)

(** The Python value [json.load] builds. A [float] is kept as its [repr]
    (which determines it); a [dict] keeps its items in insertion order. *)
Inductive json : Type :=
| JNull
| JBool (b : bool)
| JInt (n : Z)
| JFloat (r : pystr)
| JStr (s : pystr)
| JList (l : list json)
| JDict (d : list (pystr * json)).

Definition dict : Type := list (pystr * json).

Fixpoint dict_lookup (d : dict) (k : pystr) : option json :=
  match d with
  | [] => None
  | (k', v) :: d' => if str_eqb k' k then Some v else dict_lookup d' k
  end.

(** [d.get(k)] *)
Definition dict_get (d : dict) (k : pystr) : json :=
  match dict_lookup d k with
  | Some v => v
  | None => JNull
  end.

(** [k in d] *)
Definition dict_has (d : dict) (k : pystr) : bool :=
  match dict_lookup d k with
  | Some _ => true
  | None => false
  end.

(** [d.pop(k, None)], the dictionary that is left. *)
Fixpoint dict_pop (d : dict) (k : pystr) : dict :=
  match d with
  | [] => []
  | (k', v) :: d' => if str_eqb k' k then dict_pop d' k else (k', v) :: dict_pop d' k
  end.

(** [d[k] = v]: an existing key keeps its place, a new one goes last. *)
Fixpoint dict_set (d : dict) (k : pystr) (v : json) : dict :=
  match d with
  | [] => [(k, v)]
  | (k', v') :: d' =>
      if str_eqb k' k then (k', v) :: d' else (k', v') :: dict_set d' k v
  end.

Definition keys (d : dict) : list pystr := List.map fst d.

(** The invariant of Python dictionaries: no key occurs twice, at any depth. *)
Fixpoint wf_json (j : json) : Prop :=
  match j with
  | JList l =>
      (fix all (l : list json) : Prop :=
         match l with
         | [] => True
         | x :: l' => wf_json x /\ all l'
         end) l
  | JDict d =>
      NoDup (keys d) /\
      (fix all (d : dict) : Prop :=
         match d with
         | [] => True
         | (_, v) :: d' => wf_json v /\ all d'
         end) d
  | _ => True
  end.

(** [isinstance] tests; [bool] is a subclass of [int] in Python. *)
Definition is_str (j : json) : bool := match j with JStr _ => true | _ => false end.
Definition is_dict (j : json) : bool := match j with JDict _ => true | _ => false end.
Definition is_list (j : json) : bool := match j with JList _ => true | _ => false end.
Definition is_int (j : json) : bool :=
  match j with JInt _ | JBool _ => true | _ => false end.

(** The integer an [int] instance compares as ([True == 1]). *)
Definition int_value (j : json) : Z :=
  match j with
  | JInt n => n
  | JBool true => 1%Z
  | _ => 0%Z
  end.

(** Truth value of an object, as [not x] and [if x] use it. *)
Definition truthy (j : json) : bool :=
  match j with
  | JNull => false
  | JBool b => b
  | JInt n => negb (n =? 0)%Z
  | JFloat r => negb (str_eqb r (lit "0.0") || str_eqb r (lit "-0.0"))
  | JStr s => match s with [] => false | _ => true end
  | JList l => match l with [] => false | _ => true end
  | JDict d => match d with [] => false | _ => true end
  end.

(** Lists and dictionaries are not hashable. *)
Definition hashable (j : json) : bool :=
  match j with
  | JList _ | JDict _ => false
  | _ => true
  end.

(** [x == s] for a string [s]. *)
Definition eq_str (j : json) (s : pystr) : bool :=
  match j with
  | JStr t => str_eqb t s
  | _ => false
  end.

(* ================================================================== *)
(** * Returning and raising                                            *)
(* ================================================================== *)

Inductive exn : Type :=
| AttributeError
| TypeError
| UnicodeEncodeError
| UnicodeDecodeError
| OSError
| SystemExit (msg : pystr).

Inductive result (A : Type) : Type :=
| Ok (a : A)
| Raise (e : exn).

Arguments Ok {A} a.
Arguments Raise {A} e.

Definition bind {A B : Type} (m : result A) (f : A -> result B) : result B :=
  match m with
  | Ok a => f a
  | Raise e => Raise e
  end.

Notation "x <- m ;; k" := (bind m (fun x => k))
  (at level 61, m at next level, right associativity).

(** The growing [errors] list. *)
Definition errors : Type := list pystr.

(** [for x in xs: body(x, errors)] *)
Fixpoint for_each {A : Type} (body : A -> errors -> result errors)
         (xs : list A) (errs : errors) : result errors :=
  match xs with
  | [] => Ok errs
  | x :: xs' => errs' <- body x errs ;; for_each body xs' errs'
  end.

(** [for idx, x in enumerate(xs, start): body(idx, x, errors)] *)
Fixpoint for_enumerate {A : Type} (body : nat -> A -> errors -> result errors)
         (start : nat) (xs : list A) (errs : errors) : result errors :=
  match xs with
  | [] => Ok errs
  | x :: xs' =>
      errs' <- body start x errs ;; for_enumerate body (S start) xs' errs'
  end.

(* ================================================================== *)
(** * The Python library the scripts rely on                           *)
(* ================================================================== *)

Definition path : Type := pystr.

(** What [jsonschema.Draft202012Validator(schema).validate(manifest)] does
    inside [validate_schema_with_jsonschema]. *)
Inductive schema_outcome : Type :=
| SchemaUnavailable                    (* [import jsonschema] fails *)
| SchemaValid
| SchemaValidationError (message : pystr)
| SchemaOtherError (message : pystr)   (* any other [Exception] *)
| SchemaSystemExit (message : pystr).  (* [load_json(schema_path)] exits *)

(** Library functions that are not part of the repository. Tables of the
    Unicode database are consulted for code points from 128 on only. *)
Record pylib : Type := {
  uni_isalnum : N -> bool;            (* [str.isalnum] of one character *)
  uni_decimal : N -> option Z;        (* value of a decimal digit *)
  py_repr : json -> pystr;            (* [repr] of a list or a dict *)
  fromisoformat : pystr -> bool;      (* [false]: [ValueError] *)
  json_loads : pystr -> option json;  (* [None]: [JSONDecodeError] *)
  Path : pystr -> path;               (* [str(Path(s))] *)
  is_absolute : path -> bool;
  joinpath : path -> path -> path;    (* [a / b] *)
  parent : path -> path;
  jsonschema : path -> json -> schema_outcome
}.

(** An entry of the file system, as the validators observe it. *)
Record file : Type := {
  st_size : Z;                        (* [path.stat().st_size] *)
  read_bytes : result bytes;          (* all of [open("rb")] *)
  read_lines : list pystr;            (* the lines [open("r")] yields, *)
  read_fails : option exn             (* and the error that ends them, if any *)
}.

Definition filesystem : Type := path -> option file.

(** Library functions that only the command-line parts of the scripts
    call. *)
Record oslib : Type := {
  fnmatch : pystr -> pystr -> bool;        (* [fnmatch.fnmatch(name, pat)] *)
  path_name : pystr -> pystr;              (* [Path(s).name] *)
  str_lower : pystr -> pystr;              (* [s.lower()] *)
  rglob : path -> list path;               (* [sorted(d.rglob("*"))] *)
  is_dir : path -> bool;                   (* [p.is_dir()] *)
  relative_posix : path -> path -> pystr;  (* [p.relative_to(d).as_posix()] *)
  json_error : pystr -> pystr              (* [str(exc)] of [JSONDecodeError] *)
}.

(* ================================================================== *)
(** * Regular expressions                                              *)
(* ================================================================== *)

(** The fragment of [re] the scripts use. [Rep p lo hi] is the greedy
    repetition of a character class, [hi = None] meaning no upper bound;
    [Grp] is a capturing group. *)
Inductive regex : Type :=
| Lit (c : N)
| Cls (p : N -> bool)
| Cat (r1 r2 : regex)
| Alt (r1 r2 : regex)
| Rep (p : N -> bool) (lo : nat) (hi : option nat)
| Grp (r : regex)
| Bol
| Eol
| WordB.

Definition in_range (lo hi c : N) : bool := (lo <=? c) && (c <=? hi).

Definition ascii_digit (c : N) : bool := in_range 48 57 c.
Definition ascii_alnum (c : N) : bool :=
  ascii_digit c || in_range 65 90 c || in_range 97 122 c.

Section Matcher.
Variable L : pylib.

(** [\w] and [\d] of a [str] pattern. *)
Definition is_word (c : N) : bool :=
  if c <? 128 then ascii_alnum c || (c =? 95) else uni_isalnum L c.

Definition digit_value (c : N) : option Z :=
  if c <? 128
  then if ascii_digit c then Some (Z.of_N c - 48)%Z else None
  else uni_decimal L c.

Definition is_digit (c : N) : bool :=
  match digit_value c with Some _ => true | None => false end.

(** [\b]: exactly one of the two neighbours is a word character. *)
Definition at_boundary (before rest : list N) : bool :=
  xorb (match before with c :: _ => is_word c | [] => false end)
       (match rest with c :: _ => is_word c | [] => false end).

Section Backtracking.
Variable R : Type.

(** A continuation receives the text consumed so far (reversed), the
    text that is left and the groups closed so far. *)
Definition cont : Type := list N -> list N -> list pystr -> option R.

Fixpoint rep (p : N -> bool) (lo : nat) (hi : option nat)
         (before rest : list N) (caps : list pystr) (k : cont)
         {struct rest} : option R :=
  let stop := match lo with O => k before rest caps | S _ => None end in
  match hi with
  | Some O => stop
  | _ =>
      match rest with
      | c :: rest' =>
          if p c
          then match rep p (pred lo) (option_map pred hi)
                         (c :: before) rest' caps k with
               | Some r => Some r
               | None => stop
               end
          else stop
      | [] => stop
      end
  end.

Fixpoint rmatch (r : regex) (before rest : list N) (caps : list pystr)
         (k : cont) {struct r} : option R :=
  match r with
  | Lit c =>
      match rest with
      | x :: rest' => if x =? c then k (x :: before) rest' caps else None
      | [] => None
      end
  | Cls p =>
      match rest with
      | x :: rest' => if p x then k (x :: before) rest' caps else None
      | [] => None
      end
  | Cat r1 r2 =>
      rmatch r1 before rest caps (fun b s c => rmatch r2 b s c k)
  | Alt r1 r2 =>
      match rmatch r1 before rest caps k with
      | Some x => Some x
      | None => rmatch r2 before rest caps k
      end
  | Rep p lo hi => rep p lo hi before rest caps k
  | Grp r1 =>
      rmatch r1 before rest caps
             (fun b s c =>
                k b s (c ++ [rev (firstn (length b - length before) b)]))
  | Bol => match before with [] => k before rest caps | _ => None end
  | Eol =>
      match rest with
      | [] => k before rest caps
      | [10] => k before rest caps
      | _ => None
      end
  | WordB => if at_boundary before rest then k before rest caps else None
  end.
End Backtracking.

(** A successful match: consumed text up to its end (reversed), the text
    after it, and the groups. *)
Definition found : Type := (list N * list N * list pystr)%type.

Definition match_here (r : regex) (before rest : list N) : option found :=
  rmatch r before rest [] (fun b s c => Some (b, s, c)).

(** [pattern.match(s)] *)
Definition re_match (r : regex) (s : pystr) : option found :=
  match_here r [] s.

(** [pattern.search(s)]: the leftmost position where the pattern matches. *)
Fixpoint search_from (r : regex) (before rest : list N) : option found :=
  match match_here r before rest with
  | Some m => Some m
  | None =>
      match rest with
      | c :: rest' => search_from r (c :: before) rest'
      | [] => None
      end
  end.

Definition re_search (r : regex) (s : pystr) : option found :=
  search_from r [] s.

Definition matches (m : option found) : bool :=
  match m with Some _ => true | None => false end.

(** [pattern.sub(repl, s)] for a replacement without group references:
    matches are replaced left to right and do not overlap. *)
Fixpoint sub_from (fuel : nat) (r : regex) (repl : pystr)
         (before rest : list N) : pystr :=
  match fuel with
  | O => rest
  | S fuel' =>
      match match_here r before rest with
      | Some (b, rest', _) =>
          if (length rest' <? length rest)%nat
          then repl ++ sub_from fuel' r repl b rest'
          else match rest with
               | c :: rest'' =>
                   repl ++ c :: sub_from fuel' r repl (c :: before) rest''
               | [] => repl
               end
      | None =>
          match rest with
          | c :: rest'' => c :: sub_from fuel' r repl (c :: before) rest''
          | [] => []
          end
      end
  end.

Definition re_sub (r : regex) (repl s : pystr) : pystr :=
  sub_from (S (length s)) r repl [] s.
End Matcher.

(** [r{n}] and [r+] on character classes. *)
Definition Exactly (p : N -> bool) (n : nat) : regex := Rep p n (Some n).
Definition Plus (p : N -> bool) : regex := Rep p 1 None.

Fixpoint Word (s : pystr) : regex :=
  match s with
  | [] => Rep (fun _ => false) 0 (Some 0%nat)
  | [c] => Lit c
  | c :: s' => Cat (Lit c) (Word s')
  end.

Fixpoint Seq (rs : list regex) : regex :=
  match rs with
  | [] => Rep (fun _ => false) 0 (Some 0%nat)
  | [r] => r
  | r :: rs' => Cat r (Seq rs')
  end.

(** [[a-f0-9]] *)
Definition hex_lower (c : N) : bool := in_range 97 102 c || in_range 48 57 c.
(** [[0-9a-f]] under [re.IGNORECASE] *)
Definition hex_anycase (c : N) : bool :=
  in_range 48 57 c || in_range 97 102 c || in_range 65 70 c.
(** [[^/]] *)
Definition not_slash (c : N) : bool := negb (c =? 47).

(** [VERSION_RE = re.compile(r"^(\d+)\.(\d+)\.(\d+)$")] *)
Definition VERSION_RE (L : pylib) : regex :=
  Seq [Bol; Grp (Plus (is_digit L)); Lit 46; Grp (Plus (is_digit L)); Lit 46;
       Grp (Plus (is_digit L)); Eol].

(** [SHA256_RE = re.compile(r"^[a-f0-9]{64}$")] *)
Definition SHA256_RE : regex := Seq [Bol; Exactly hex_lower 64; Eol].

(** [HOME_RE = re.compile(r"/(Users|home)/[^/]+")] *)
Definition HOME_RE : regex :=
  Seq [Lit 47; Grp (Alt (Word (lit "Users")) (Word (lit "home"))); Lit 47;
       Plus not_slash].

(** [UUID_RE], compiled with [re.IGNORECASE]:
    [\b[0-9a-f]{8}-[0-9a-f]{4}-[0-9a-f]{4}-[0-9a-f]{4}-[0-9a-f]{12}\b] *)
Definition UUID_RE : regex :=
  Seq [WordB; Exactly hex_anycase 8; Lit 45; Exactly hex_anycase 4; Lit 45;
       Exactly hex_anycase 4; Lit 45; Exactly hex_anycase 4; Lit 45;
       Exactly hex_anycase 12; WordB].

(** [HEX_RE = re.compile(r"\b[0-9a-f]{32,}\b", re.IGNORECASE)] *)
Definition HEX_RE : regex := Seq [WordB; Rep hex_anycase 32 None; WordB].

(* ================================================================== *)
(** * hashlib.sha256 and str.encode("utf-8")                           *)
(* ================================================================== *)

Module Sha256.
Definition mask32 : N := 0xffffffff.
Definition add32 (a b : N) : N := N.land (a + b) mask32.
Definition rotr (n x : N) : N :=
  N.lor (N.shiftr x n) (N.land (N.shiftl x (32 - n)) mask32).
Definition xor3 (a b c : N) : N := N.lxor (N.lxor a b) c.

Definition Ch (x y z : N) : N :=
  N.lxor (N.land x y) (N.land (N.lxor x mask32) z).
Definition Maj (x y z : N) : N :=
  xor3 (N.land x y) (N.land x z) (N.land y z).
Definition Sigma0 (x : N) : N := xor3 (rotr 2 x) (rotr 13 x) (rotr 22 x).
Definition Sigma1 (x : N) : N := xor3 (rotr 6 x) (rotr 11 x) (rotr 25 x).
Definition sigma0 (x : N) : N := xor3 (rotr 7 x) (rotr 18 x) (N.shiftr x 3).
Definition sigma1 (x : N) : N := xor3 (rotr 17 x) (rotr 19 x) (N.shiftr x 10).

(** The largest [r] below [2 ^ bits] with [r ^ k <= n]. *)
Fixpoint root (k : N) (bits : nat) (n r : N) : N :=
  match bits with
  | O => r
  | S b =>
      let c := r + 2 ^ N.of_nat b in
      if c ^ k <=? n then root k b n c else root k b n r
  end.

(** The first 32 bits of the fractional part of the [k]-th root of [p]. *)
Definition frac32 (k p : N) : N :=
  N.land (root k 40 (p * 2 ^ (32 * k)) 0) mask32.

Definition is_prime (p : N) : bool :=
  forallb (fun d => negb (p mod d =? 0))
          (List.map N.of_nat (seq 2 (N.to_nat p - 2))).

Definition primes (count : nat) : list N :=
  firstn count (filter is_prime (List.map N.of_nat (seq 2 400))).

(** The round constants: from the cube roots of the first 64 primes. *)
Definition K : list N := Eval vm_compute in List.map (frac32 3) (primes 64).

(** The eight working words. *)
Record state : Type := mk {
  ha : N; hb : N; hc : N; hd : N; he : N; hf : N; hg : N; hh : N
}.

(** The initial hash value: from the square roots of the first 8 primes. *)
Definition H0 : state :=
  Eval vm_compute in
    match List.map (frac32 2) (primes 8) with
    | [a; b; c; d; e; f; g; h] => mk a b c d e f g h
    | _ => mk 0 0 0 0 0 0 0 0
    end.

(** Padding: a one bit, zeros, and the bit length on 64 bits. *)
Fixpoint be_bytes (n : nat) (x : N) : bytes :=
  match n with
  | O => []
  | S n' => be_bytes n' (N.shiftr x 8) ++ [N.land x 0xff]
  end.

Definition pad (msg : bytes) : bytes :=
  let len := length msg in
  let zeros := ((64 - (len + 9) mod 64) mod 64)%nat in
  msg ++ [0x80] ++ repeat 0 zeros ++ be_bytes 8 (8 * N.of_nat len).

Fixpoint words (n : nat) (bs : bytes) : list N :=
  match n with
  | O => []
  | S n' =>
      match bs with
      | b0 :: b1 :: b2 :: b3 :: bs' =>
          (N.shiftl b0 24 + N.shiftl b1 16 + N.shiftl b2 8 + b3)
            :: words n' bs'
      | _ => []
      end
  end.

(** Message schedule: [w] holds the words built so far, newest first. *)
Fixpoint schedule (n : nat) (w : list N) : list N :=
  match n with
  | O => rev w
  | S n' =>
      let x := add32 (add32 (sigma1 (nth 1 w 0)) (nth 6 w 0))
                     (add32 (sigma0 (nth 14 w 0)) (nth 15 w 0)) in
      schedule n' (x :: w)
  end.

Definition round (s : state) (kw : N * N) : state :=
  let (k, w) := kw in
  let t1 := add32 (add32 (add32 (hh s) (Sigma1 (he s)))
                         (add32 (Ch (he s) (hf s) (hg s)) k)) w in
  let t2 := add32 (Sigma0 (ha s)) (Maj (ha s) (hb s) (hc s)) in
  mk (add32 t1 t2) (ha s) (hb s) (hc s) (add32 (hd s) t1) (he s) (hf s) (hg s).

Definition compress (s : state) (block : bytes) : state :=
  let w := schedule 48 (rev (words 16 block)) in
  let t := fold_left round (combine K w) s in
  mk (add32 (ha s) (ha t)) (add32 (hb s) (hb t)) (add32 (hc s) (hc t))
     (add32 (hd s) (hd t)) (add32 (he s) (he t)) (add32 (hf s) (hf t))
     (add32 (hg s) (hg t)) (add32 (hh s) (hh t)).

Fixpoint blocks (n : nat) (s : state) (bs : bytes) : state :=
  match n with
  | O => s
  | S n' => blocks n' (compress s (firstn 64 bs)) (skipn 64 bs)
  end.

Definition hex_digit (x : N) : N :=
  let d := N.land x 15 in if d <? 10 then 48 + d else 87 + d.

Definition hex8 (x : N) : pystr :=
  List.map (fun i => hex_digit (N.shiftr x (4 * i))) [7; 6; 5; 4; 3; 2; 1; 0].

(** [hashlib.sha256(data).hexdigest()] *)
Definition hexdigest (data : bytes) : pystr :=
  let p := pad data in
  let s := blocks (length p / 64) H0 p in
  hex8 (ha s) ++ hex8 (hb s) ++ hex8 (hc s) ++ hex8 (hd s) ++
  hex8 (he s) ++ hex8 (hf s) ++ hex8 (hg s) ++ hex8 (hh s).
End Sha256.

Arguments Sha256.hexdigest : simpl never.

(** One character of [s.encode("utf-8")]; a lone surrogate cannot be encoded. *)
Definition utf8_char (c : N) : result bytes :=
  if c <? 0x80 then Ok [c]
  else if c <? 0x800 then
    Ok [0xC0 + N.shiftr c 6; 0x80 + N.land c 0x3F]
  else if in_range 0xD800 0xDFFF c then Raise UnicodeEncodeError
  else if c <? 0x10000 then
    Ok [0xE0 + N.shiftr c 12; 0x80 + N.land (N.shiftr c 6) 0x3F;
        0x80 + N.land c 0x3F]
  else
    Ok [0xF0 + N.shiftr c 18; 0x80 + N.land (N.shiftr c 12) 0x3F;
        0x80 + N.land (N.shiftr c 6) 0x3F; 0x80 + N.land c 0x3F].

Fixpoint utf8_encode (s : pystr) : result bytes :=
  match s with
  | [] => Ok []
  | c :: s' =>
      b <- utf8_char c ;;
      bs <- utf8_encode s' ;;
      Ok (b ++ bs)
  end.

(* ================================================================== *)
(** * json.dumps(..., sort_keys=True, separators=(",", ":"),
                 ensure_ascii=False)                                   *)
(* ================================================================== *)

(** The replacement [json.encoder] makes for one character of a string. *)
Definition escape_char (c : N) : pystr :=
  if c =? 92 then lit "\\"
  else if c =? 34 then [92; 34]
  else if c =? 8 then lit "\b"
  else if c =? 12 then lit "\f"
  else if c =? 10 then lit "\n"
  else if c =? 13 then lit "\r"
  else if c =? 9 then lit "\t"
  else if c <? 32 then
    lit "\u00" ++ [Sha256.hex_digit (N.shiftr c 4); Sha256.hex_digit c]
  else [c].

(** [encode_basestring] *)
Definition encode_basestring (s : pystr) : pystr :=
  [34] ++ flat_map escape_char s ++ [34].

(** [float.__repr__], with the three spellings JSON has no number for. *)
Definition floatstr (r : pystr) : pystr :=
  if str_eqb r (lit "nan") then lit "NaN"
  else if str_eqb r (lit "inf") then lit "Infinity"
  else if str_eqb r (lit "-inf") then lit "-Infinity"
  else r.

(** [sorted(items)] on items with distinct string keys. *)
Fixpoint insert_item {A : Type} (x : pystr * A) (l : list (pystr * A))
  : list (pystr * A) :=
  match l with
  | [] => [x]
  | y :: l' => if str_leb (fst x) (fst y) then x :: l else y :: insert_item x l'
  end.

Fixpoint sort_items {A : Type} (l : list (pystr * A)) : list (pystr * A) :=
  match l with
  | [] => []
  | x :: l' => insert_item x (sort_items l')
  end.

Definition dump_item (kv : pystr * pystr) : pystr :=
  encode_basestring (fst kv) ++ lit ":" ++ snd kv.

(** The encoder. The values of a dictionary are encoded before its items
    are put in key order; the text is the same as when they are encoded
    after, and the recursion stays structural. *)
Fixpoint dumps (j : json) : pystr :=
  match j with
  | JNull => lit "null"
  | JBool true => lit "true"
  | JBool false => lit "false"
  | JInt n => str_of_Z n
  | JFloat r => floatstr r
  | JStr s => encode_basestring s
  | JList l =>
      lit "[" ++
      join (lit ",")
           ((fix each (l : list json) : list pystr :=
               match l with
               | [] => []
               | x :: l' => dumps x :: each l'
               end) l) ++
      lit "]"
  | JDict d =>
      lit "{" ++
      join (lit ",")
           (List.map dump_item
              (sort_items
                 ((fix each (d : dict) : list (pystr * pystr) :=
                     match d with
                     | [] => []
                     | (k, v) :: d' => (k, dumps v) :: each d'
                     end) d))) ++
      lit "}"
  end.

(** [canonical_manifest_bytes], the same in the three scripts that define
    it ([deepcopy] and [dict(...)] copy; the model has no aliasing to
    protect). On something that is not a dictionary [pop] fails. *)
Definition canonical_manifest_bytes (manifest : json) : result bytes :=
  match manifest with
  | JDict d =>
      let clone := dict_pop d (lit "manifest_sha256") in
      let canonical := dumps (JDict clone) in
      utf8_encode canonical
  | JList _ => Raise TypeError
  | _ => Raise AttributeError
  end.

(** [sha256_bytes] *)
Definition sha256_bytes (data : bytes) : pystr := Sha256.hexdigest data.

(** [sha256_file]: the digest of the chunks read, that is of the content. *)
Definition sha256_file (f : file) : result pystr :=
  content <- read_bytes f ;;
  Ok (Sha256.hexdigest content).

(* ================================================================== *)
(** * Helpers shared by the validators                                 *)
(* ================================================================== *)

(** [errors.append(msg)] *)
Definition append (msg : pystr) (errs : errors) : result errors :=
  Ok (errs ++ [msg]).

(** [if cond: errors.append(msg)] *)
Definition append_if (cond : bool) (msg : pystr) (errs : errors)
  : result errors :=
  if cond then append msg errs else Ok errs.

(** [x in container] for a string [x]. *)
Definition contains (container : json) (x : pystr) : result bool :=
  match container with
  | JDict d => Ok (dict_has d x)
  | JList l => Ok (existsb (fun e => eq_str e x) l)
  | JStr s => Ok (str_contains x s)
  | _ => Raise TypeError
  end.

(** [x in S] for a set [S] of strings: [x] is hashed first. *)
Definition in_set (x : json) (S : list pystr) : result bool :=
  if hashable x then Ok (existsb (eq_str x) S) else Raise TypeError.

Section Shared.
Variable L : pylib.

(** [str(x)], as an f-string formats a value. *)
Definition py_str (x : json) : pystr :=
  match x with
  | JNull => lit "None"
  | JBool true => lit "True"
  | JBool false => lit "False"
  | JInt n => str_of_Z n
  | JFloat r => r
  | JStr s => s
  | JList _ | JDict _ => py_repr L x
  end.

(** [int(s)] on a string of decimal digits. *)
Definition py_int (s : pystr) : Z :=
  fold_left
    (fun acc c =>
       (10 * acc + match digit_value L c with Some d => d | None => 0 end)%Z)
    s 0%Z.

Definition validate_schema_with_jsonschema
           (manifest : json) (schema_path : path) (errs : errors)
  : result errors :=
  match jsonschema L schema_path manifest with
  | SchemaUnavailable => Ok errs
  | SchemaValid => Ok errs
  | SchemaValidationError message =>
      append (lit "schema validation failed: " ++ message) errs
  | SchemaOtherError message =>
      append (lit "schema validation error: " ++ message) errs
  | SchemaSystemExit message => Raise (SystemExit message)
  end.

Definition parse_rfc3339 (value : pystr) : bool :=
  let value :=
    if ends_with (lit "Z") value
    then removelast value ++ lit "+00:00"
    else value in
  fromisoformat L value.

Definition validate_version (version : pystr) (errs : errors)
  : result errors :=
  match re_match L (VERSION_RE L) version with
  | None => append (lit "schema_version not semver: " ++ version) errs
  | Some (_, _, groups) =>
      let major := py_int (nth 0 groups []) in
      append_if (negb (major =? 1)%Z)
                (lit "unsupported schema_version major: " ++ version) errs
  end.

(** [path = Path(path_value); if not path.is_absolute(): path = base_dir / path] *)
Definition resolve (base_dir : path) (path_value : pystr) : path :=
  let p := Path L path_value in
  if is_absolute L p then p else joinpath L base_dir p.

(** [for field in [...]: if field not in manifest: errors.append(...)] *)
Definition require_fields (manifest : json) (fields : list pystr)
           (errs : errors) : result errors :=
  for_each
    (fun field errs =>
       present <- contains manifest field ;;
       append_if (negb present) (lit "missing required field: " ++ field) errs)
    fields errs.

(** The checks of [schema_version], the same in the three validators. *)
Definition check_schema_version (d : dict) (errs : errors) : result errors :=
  match dict_get d (lit "schema_version") with
  | JStr schema_version => validate_version schema_version errs
  | _ => append (lit "schema_version must be string") errs
  end.
End Shared.

(** [for x in xs: state = body(x, state)] *)
Fixpoint for_in {A S : Type} (body : A -> S -> result S)
         (xs : list A) (state : S) : result S :=
  match xs with
  | [] => Ok state
  | x :: xs' => state' <- body x state ;; for_in body xs' state'
  end.

(** What a script leaves behind when it returns: the lines printed and
    the exit status. *)
Record output : Type := {
  stdout : list pystr;
  stderr : list pystr;
  status : Z
}.

Section Loading.
Variable L : pylib.
Variable O : oslib.
Variable fs : filesystem.

(** [load_json], the same in the three validators. Only a missing file
    and text that is not JSON become [SystemExit]. *)
Definition load_json (path : path) : result json :=
  match fs path with
  | None => Raise (SystemExit (lit "manifest not found: " ++ path))
  | Some f =>
      match read_fails f with
      | Some e => Raise e
      | None =>
          let text := concat (read_lines f) in
          match json_loads L text with
          | Some manifest => Ok manifest
          | None =>
              Raise (SystemExit (lit "invalid JSON in " ++ path ++ lit ": "
                                     ++ json_error O text))
          end
      end
  end.
End Loading.

(* ---------------------------------------------------------------- *)
(** ** validate_fixture_manifest.py *)
(* ---------------------------------------------------------------- *)

Module Fixture.
Section Script.
Variable L : pylib.
Variable fs : filesystem.

Definition REDACTION_PROFILES : list pystr :=
  [lit "minimal"; lit "safe"; lit "forensic"; lit "custom"].

Definition check_redaction (value label : pystr) (errs : errors)
  : result errors :=
  errs <- append_if (matches (re_search L HOME_RE value))
                    (label ++ lit " contains unredacted home path") errs ;;
  errs <- append_if (matches (re_search L UUID_RE value))
                    (label ++ lit " contains unredacted UUID") errs ;;
  append_if (matches (re_search L HEX_RE value))
            (label ++ lit " contains unredacted hex id") errs.

(** The body of [for idx, item in enumerate(value)]. *)
Definition source_item (key : pystr) (idx : nat) (item : json)
           (errs : errors) : result errors :=
  let label :=
    lit "source." ++ key ++ lit "[" ++ str_of_nat idx ++ lit "]" in
  match item with
  | JStr item => check_redaction item label errs
  | _ => append (label ++ lit " must be string") errs
  end.

(** The body of [for key in ("command", "paths")]. *)
Definition source_key (source : dict) (key : pystr) (errs : errors)
  : result errors :=
  match dict_get source key with
  | JNull => Ok errs
  | JList value => for_enumerate (source_item key) 0 value errs
  | _ => append (lit "source." ++ key ++ lit " must be list") errs
  end.

Definition validate_source (source : dict) (errs : errors) : result errors :=
  let origin := dict_get source (lit "origin") in
  errs <- append_if (negb (is_str origin) || negb (truthy origin))
                    (lit "source.origin must be string") errs ;;
  errs <- for_each (source_key source) [lit "command"; lit "paths"] errs ;;
  let notes := dict_get source (lit "notes") in
  append_if (match notes with JNull => false | _ => negb (is_str notes) end)
            (lit "source.notes must be string") errs.

Definition validate_tool_versions (tool_versions : dict) (errs : errors)
  : result errors :=
  for_each
    (fun (item : pystr * json) errs =>
       let (key, value) := item in
       match key with
       | [] => append (lit "tool_versions keys must be strings") errs
       | _ =>
           append_if (negb (is_str value) || negb (truthy value))
                     (lit "tool_versions." ++ key ++ lit " must be string")
                     errs
       end)
    tool_versions errs.

Definition validate_artifact_entry
           (entry : dict) (base_dir : path) (errs : errors)
  : result errors :=
  match dict_get entry (lit "path") with
  | JStr ((_ :: _) as path_value) =>
      let path := resolve L base_dir path_value in
      match fs path with
      | None => append (lit "artifact file missing: " ++ path) errs
      | Some f =>
          let expected_hash := dict_get entry (lit "sha256") in
          let expected_bytes := dict_get entry (lit "bytes") in
          let actual_bytes := st_size f in
          actual_hash <- sha256_file f ;;
          errs <-
            (if negb (is_int expected_bytes) then
               append (lit "artifact bytes missing for " ++ path_value) errs
             else
               append_if
                 (negb (int_value expected_bytes =? actual_bytes)%Z)
                 (lit "artifact bytes mismatch for " ++ path_value
                      ++ lit ": expected " ++ py_str L expected_bytes
                      ++ lit ", got " ++ str_of_Z actual_bytes)
                 errs) ;;
          errs <-
            (match expected_hash with
             | JStr expected =>
                 if negb (matches (re_match L SHA256_RE expected)) then
                   append (lit "artifact sha256 invalid for " ++ path_value)
                          errs
                 else
                   append_if
                     (negb (str_eqb expected actual_hash))
                     (lit "artifact sha256 mismatch for " ++ path_value
                          ++ lit ": expected " ++ expected
                          ++ lit ", got " ++ actual_hash)
                     errs
             | _ =>
                 append (lit "artifact sha256 invalid for " ++ path_value) errs
             end) ;;
          let redaction_profile := dict_get entry (lit "redaction_profile") in
          known <- in_set redaction_profile REDACTION_PROFILES ;;
          append_if (negb known)
                    (lit "artifact redaction_profile invalid for "
                         ++ path_value)
                    errs
      end
  | _ => append (lit "artifact entry missing path") errs
  end.

(** Lines 240 to 246 of [validate_manifest]: the stored digest is compared
    with the recomputed one when it is a well-formed string. *)
Definition check_manifest_sha (manifest : json) (errs : errors)
  : result errors :=
  match manifest with
  | JDict d =>
      match dict_get d (lit "manifest_sha256") with
      | JStr manifest_sha =>
          if matches (re_match L SHA256_RE manifest_sha) then
            data <- canonical_manifest_bytes manifest ;;
            let computed := sha256_bytes data in
            append_if (negb (str_eqb manifest_sha computed))
                      (lit "manifest_sha256 mismatch") errs
          else append (lit "manifest_sha256 must be sha256 hex") errs
      | _ => append (lit "manifest_sha256 must be sha256 hex") errs
      end
  | _ => Raise AttributeError
  end.

Definition required_fields : list pystr :=
  [lit "schema_version"; lit "fixture_id"; lit "domain"; lit "capture_time";
   lit "source"; lit "tool_versions"; lit "redaction_profile";
   lit "artifacts"; lit "manifest_sha256"].

Definition validate_manifest
           (manifest : json) (manifest_path schema_path : path)
  : result errors :=
  let errs : errors := [] in
  errs <- validate_schema_with_jsonschema L manifest schema_path errs ;;
  errs <- require_fields manifest required_fields errs ;;
  match manifest with
  | JDict d =>
      errs <- check_schema_version L d errs ;;
      errs <- append_if (negb (is_str (dict_get d (lit "fixture_id"))))
                        (lit "fixture_id must be string") errs ;;
      errs <- append_if (negb (is_str (dict_get d (lit "domain"))))
                        (lit "domain must be string") errs ;;
      errs <-
        (match dict_get d (lit "capture_time") with
         | JStr capture_time =>
             append_if (negb (parse_rfc3339 L capture_time))
                       (lit "capture_time must be RFC3339 timestamp") errs
         | _ => append (lit "capture_time must be string") errs
         end) ;;
      errs <-
        (match dict_get d (lit "source") with
         | JDict source => validate_source source errs
         | _ => append (lit "source must be object") errs
         end) ;;
      errs <-
        (match dict_get d (lit "tool_versions") with
         | JDict tool_versions => validate_tool_versions tool_versions errs
         | _ => append (lit "tool_versions must be object") errs
         end) ;;
      known <- in_set (dict_get d (lit "redaction_profile"))
                      REDACTION_PROFILES ;;
      errs <-
        append_if (negb known)
                  (lit "redaction_profile must be one of minimal/safe/forensic/custom")
                  errs ;;
      errs <-
        (match dict_get d (lit "artifacts") with
         | JList ((_ :: _) as artifacts) =>
             let base_dir := parent L manifest_path in
             for_each
               (fun entry errs =>
                  match entry with
                  | JDict entry => validate_artifact_entry entry base_dir errs
                  | _ => append (lit "artifact entry must be object") errs
                  end)
               artifacts errs
         | _ => append (lit "artifacts must be non-empty list") errs
         end) ;;
      check_manifest_sha manifest errs
  | _ => Raise AttributeError   (* [manifest.get] *)
  end.
End Script.

Section Cli.
Variable L : pylib.
Variable O : oslib.
Variable fs : filesystem.

(** [main], after the arguments are parsed; [schema_path] is
    [root / SCHEMA_RELATIVE]. *)
Definition main (manifest_path schema_path : path) : result output :=
  manifest <- load_json L O fs manifest_path ;;
  errs <- validate_manifest L fs manifest manifest_path schema_path ;;
  match errs with
  | _ :: _ => Ok {| stdout := []; stderr := errs; status := 1 |}
  | [] => Ok {| stdout := []; stderr := []; status := 0 |}
  end.
End Cli.
End Fixture.

(* ---------------------------------------------------------------- *)
(** ** validate_e2e_manifest.py *)
(* ---------------------------------------------------------------- *)

Module E2E.
Section Script.
Variable L : pylib.
Variable fs : filesystem.

Definition LOG_KINDS : list pystr :=
  [lit "jsonl"; lit "text"; lit "tap"; lit "stdout"; lit "stderr"].

Definition ARTIFACT_KINDS : list pystr :=
  [lit "snapshot"; lit "plan"; lit "telemetry"; lit "bundle"; lit "report";
   lit "daemon"; lit "install"; lit "tui"; lit "manifest"; lit "other"].

Definition REDACTION_REQUIRED_KINDS : list pystr :=
  [lit "snapshot"; lit "plan"; lit "telemetry"; lit "bundle"; lit "report"].

Definition require_field (manifest : json) (field : pystr) (errs : errors)
  : result errors :=
  present <- contains manifest field ;;
  append_if (negb present) (lit "missing required field: " ++ field) errs.

Definition validate_file_entry
           (entry : dict) (base_dir : path) (label : pystr) (errs : errors)
  : result errors :=
  match dict_get entry (lit "path") with
  | JStr ((_ :: _) as path_value) =>
      let path := resolve L base_dir path_value in
      match fs path with
      | None => append (label ++ lit " file missing: " ++ path) errs
      | Some f =>
          let expected_hash := dict_get entry (lit "sha256") in
          let expected_bytes := dict_get entry (lit "bytes") in
          let actual_bytes := st_size f in
          actual_hash <- sha256_file f ;;
          errs <-
            (if negb (is_int expected_bytes) then
               append (label ++ lit " bytes missing for " ++ path_value) errs
             else
               append_if
                 (negb (int_value expected_bytes =? actual_bytes)%Z)
                 (label ++ lit " bytes mismatch for " ++ path_value
                        ++ lit ": expected " ++ py_str L expected_bytes
                        ++ lit ", got " ++ str_of_Z actual_bytes)
                 errs) ;;
          match expected_hash with
          | JStr expected =>
              if negb (matches (re_match L SHA256_RE expected)) then
                append (label ++ lit " sha256 invalid for " ++ path_value) errs
              else
                append_if
                  (negb (str_eqb expected actual_hash))
                  (label ++ lit " sha256 mismatch for " ++ path_value
                         ++ lit ": expected " ++ expected
                         ++ lit ", got " ++ actual_hash)
                  errs
          | _ => append (label ++ lit " sha256 invalid for " ++ path_value) errs
          end
      end
  | _ => append (label ++ lit " entry missing path") errs
  end.

(** The body of the loop over the lines of a JSONL file. *)
Definition jsonl_line (path_value run_id : pystr)
           (idx : nat) (line : pystr) (errs : errors) : result errors :=
  let line := strip line in
  match line with
  | [] => Ok errs
  | _ =>
      match json_loads L line with
      | None =>
          append (lit "jsonl parse error in " ++ path_value ++ lit " line "
                      ++ str_of_nat idx) errs
      | Some (JDict payload) =>
          append_if (negb (eq_str (dict_get payload (lit "run_id")) run_id))
                    (lit "jsonl run_id mismatch in " ++ path_value
                         ++ lit " line " ++ str_of_nat idx)
                    errs
      | Some _ => Raise AttributeError   (* [payload.get] *)
      end
  end.

Definition validate_jsonl_run_id
           (entry : dict) (base_dir : path) (run_id : pystr) (errs : errors)
  : result errors :=
  match dict_get entry (lit "path") with
  | JStr ((_ :: _) as path_value) =>
      let path := resolve L base_dir path_value in
      match fs path with
      | None => Ok errs
      | Some f =>
          errs <- for_enumerate (jsonl_line path_value run_id) 1
                                (read_lines f) errs ;;
          match read_fails f with
          | Some e => Raise e
          | None => Ok errs
          end
      end
  | _ => Ok errs
  end.

Definition required_fields : list pystr :=
  [lit "schema_version"; lit "run_id"; lit "suite"; lit "test_id";
   lit "timestamp"; lit "env"; lit "commands"; lit "logs"; lit "artifacts";
   lit "metrics"; lit "manifest_sha256"].

(** Lines 217 to 227 of [validate_manifest]. *)
Definition check_manifest_sha (manifest : json) (errs : errors)
  : result errors :=
  match manifest with
  | JDict d =>
      match dict_get d (lit "manifest_sha256") with
      | JStr manifest_sha256 =>
          errs <- append_if
                    (negb (matches (re_match L SHA256_RE manifest_sha256)))
                    (lit "manifest_sha256 not sha256 hex") errs ;;
          data <- canonical_manifest_bytes manifest ;;
          let computed_hash := sha256_bytes data in
          append_if (negb (str_eqb manifest_sha256 computed_hash))
                    (lit "manifest_sha256 mismatch: expected "
                         ++ manifest_sha256 ++ lit ", got " ++ computed_hash)
                    errs
      | _ => append (lit "manifest_sha256 must be string") errs
      end
  | _ => Raise AttributeError
  end.

(** The body of [for idx, entry in enumerate(commands)]. *)
Definition command_entry (idx : nat) (entry : json) (errs : errors)
  : result errors :=
  let name := lit "commands[" ++ str_of_nat idx ++ lit "]" in
  match entry with
  | JDict entry =>
      let argv_ok :=
        match dict_get entry (lit "argv") with
        | JList ((_ :: _) as argv) => forallb is_str argv
        | _ => false
        end in
      errs <- append_if (negb argv_ok)
                        (name ++ lit ".argv must be non-empty string array")
                        errs ;;
      errs <- append_if (negb (is_int (dict_get entry (lit "exit_code"))))
                        (name ++ lit ".exit_code must be integer") errs ;;
      append_if (negb (is_int (dict_get entry (lit "duration_ms"))))
                (name ++ lit ".duration_ms must be integer") errs
  | _ => append (name ++ lit " must be object") errs
  end.

(** The body of [for entry in logs]. *)
Definition log_entry (base_dir : path) (run_id : pystr)
           (entry : json) (errs : errors) : result errors :=
  match entry with
  | JDict entry =>
      let kind := dict_get entry (lit "kind") in
      known <- in_set kind LOG_KINDS ;;
      errs <- append_if (negb known) (lit "log kind invalid: " ++ py_str L kind)
                        errs ;;
      errs <- validate_file_entry entry base_dir (lit "log") errs ;;
      if eq_str (dict_get entry (lit "kind")) (lit "jsonl")
         && truthy (JStr run_id)
      then validate_jsonl_run_id entry base_dir run_id errs
      else Ok errs
  | _ => append (lit "log entry must be object") errs
  end.

(** The body of [for entry in artifacts]. *)
Definition artifact_entry (base_dir : path) (entry : json) (errs : errors)
  : result errors :=
  match entry with
  | JDict entry =>
      let kind := dict_get entry (lit "kind") in
      known <- in_set kind ARTIFACT_KINDS ;;
      errs <- append_if (negb known)
                        (lit "artifact kind invalid: " ++ py_str L kind) errs ;;
      errs <- validate_file_entry entry base_dir (lit "artifact") errs ;;
      required <- in_set kind REDACTION_REQUIRED_KINDS ;;
      append_if
        (required && negb (truthy (dict_get entry (lit "redaction_profile"))))
        (lit "artifact " ++ py_str L (dict_get entry (lit "path"))
             ++ lit " missing redaction_profile")
        errs
  | _ => append (lit "artifact entry must be object") errs
  end.

Definition validate_manifest
           (manifest : json) (manifest_path schema_path : path)
  : result errors :=
  let errs : errors := [] in
  errs <- validate_schema_with_jsonschema L manifest schema_path errs ;;
  errs <- for_each (require_field manifest) required_fields errs ;;
  match manifest with
  | JDict d =>
      errs <- check_schema_version L d errs ;;
      errs <- append_if (negb (is_str (dict_get d (lit "run_id"))))
                        (lit "run_id must be string") errs ;;
      errs <- append_if (negb (is_str (dict_get d (lit "suite"))))
                        (lit "suite must be string") errs ;;
      errs <- append_if (negb (is_str (dict_get d (lit "test_id"))))
                        (lit "test_id must be string") errs ;;
      errs <-
        (match dict_get d (lit "timestamp") with
         | JStr timestamp =>
             append_if (negb (parse_rfc3339 L timestamp))
                       (lit "timestamp not RFC3339") errs
         | _ => append (lit "timestamp must be string") errs
         end) ;;
      errs <-
        (match dict_get d (lit "env") with
         | JDict env =>
             for_each
               (fun field errs =>
                  append_if (negb (is_str (dict_get env field)))
                            (lit "env." ++ field ++ lit " must be string")
                            errs)
               [lit "os"; lit "arch"; lit "kernel"; lit "ci_provider"] errs
         | _ => append (lit "env must be object") errs
         end) ;;
      errs <- check_manifest_sha manifest errs ;;
      let run_id :=
        match dict_get d (lit "run_id") with
        | JStr run_id => run_id
        | _ => lit ""
        end in
      let base_dir := parent L manifest_path in
      errs <-
        (match dict_get d (lit "commands") with
         | JList ((_ :: _) as commands) =>
             for_enumerate command_entry 0 commands errs
         | _ => append (lit "commands must be non-empty array") errs
         end) ;;
      errs <-
        (match dict_get d (lit "logs") with
         | JList logs => for_each (log_entry base_dir run_id) logs errs
         | _ => append (lit "logs must be array") errs
         end) ;;
      match dict_get d (lit "artifacts") with
      | JList artifacts => for_each (artifact_entry base_dir) artifacts errs
      | _ => append (lit "artifacts must be array") errs
      end
  | _ => Raise AttributeError   (* [manifest.get] *)
  end.
End Script.

Section Cli.
Variable L : pylib.
Variable O : oslib.
Variable fs : filesystem.

(** [main], after the arguments are parsed: [manifest_path] is
    [Path(args.manifest).resolve()]. *)
Definition main (manifest_path schema_path : path) : result output :=
  manifest <- load_json L O fs manifest_path ;;
  errs <- validate_manifest L fs manifest manifest_path schema_path ;;
  match errs with
  | _ :: _ =>
      Ok {| stdout := [];
            stderr := List.map (fun error => lit "ERROR: " ++ error) errs;
            status := 1 |}
  | [] =>
      Ok {| stdout := [lit "OK: " ++ manifest_path]; stderr := [];
            status := 0 |}
  end.
End Cli.
End E2E.

(* ---------------------------------------------------------------- *)
(** ** validate_capabilities_manifest.py *)
(* ---------------------------------------------------------------- *)

Module Capabilities.
Section Script.
Variable L : pylib.

Definition required_fields : list pystr :=
  [lit "schema_version"; lit "os"; lit "tools"; lit "user"; lit "paths";
   lit "discovered_at"].

Definition validate_manifest
           (manifest : json) (schema_path : path) : result errors :=
  let errs : errors := [] in
  errs <- validate_schema_with_jsonschema L manifest schema_path errs ;;
  errs <- require_fields manifest required_fields errs ;;
  match manifest with
  | JDict d =>
      errs <- check_schema_version L d errs ;;
      errs <-
        (match dict_get d (lit "os") with
         | JDict os_info =>
             append_if (negb (is_str (dict_get os_info (lit "family"))))
                       (lit "os.family must be string") errs
         | _ => append (lit "os must be object") errs
         end) ;;
      errs <- append_if (negb (is_dict (dict_get d (lit "tools"))))
                        (lit "tools must be object") errs ;;
      errs <-
        (match dict_get d (lit "user") with
         | JDict user =>
             errs <- append_if (negb (is_int (dict_get user (lit "uid"))))
                               (lit "user.uid must be integer") errs ;;
             errs <- append_if
                       (negb (is_str (dict_get user (lit "username"))))
                       (lit "user.username must be string") errs ;;
             append_if (negb (is_str (dict_get user (lit "home"))))
                       (lit "user.home must be string") errs
         | _ => append (lit "user must be object") errs
         end) ;;
      errs <-
        (match dict_get d (lit "paths") with
         | JDict paths =>
             errs <- append_if
                       (negb (is_str (dict_get paths (lit "config_dir"))))
                       (lit "paths.config_dir must be string") errs ;;
             append_if (negb (is_str (dict_get paths (lit "data_dir"))))
                       (lit "paths.data_dir must be string") errs
         | _ => append (lit "paths must be object") errs
         end) ;;
      match dict_get d (lit "discovered_at") with
      | JStr discovered_at =>
          append_if (negb (parse_rfc3339 L discovered_at))
                    (lit "discovered_at must be RFC3339 timestamp") errs
      | _ => append (lit "discovered_at must be string") errs
      end
  | _ => Raise AttributeError   (* [manifest.get] *)
  end.
End Script.

Section Cli.
Variable L : pylib.
Variable O : oslib.
Variable fs : filesystem.

(** [main], after the arguments are parsed. *)
Definition main (manifest_path schema_path : path) : result output :=
  manifest <- load_json L O fs manifest_path ;;
  errs <- validate_manifest L manifest schema_path ;;
  match errs with
  | _ :: _ => Ok {| stdout := []; stderr := errs; status := 1 |}
  | [] => Ok {| stdout := []; stderr := []; status := 0 |}
  end.
End Cli.
End Capabilities.

(* ---------------------------------------------------------------- *)
(** ** fixture_capture.py *)
(* ---------------------------------------------------------------- *)

Module Capture.
Section Script.
Variable L : pylib.

Definition SCHEMA_VERSION : pystr := lit "1.0.0".

Definition redact_path (value : pystr) : pystr :=
  re_sub L HOME_RE (lit "/home/USER") value.

Definition redact_id (value : pystr) : pystr :=
  let value := re_sub L UUID_RE (lit "<UUID>") value in
  let value := re_sub L HEX_RE (lit "<HEX>") value in
  value.

Definition redact_cmdline (value : pystr) : pystr :=
  let value := redact_path value in
  let value := redact_id value in
  value.

Definition redact_values (values : list pystr) : list pystr :=
  List.map redact_cmdline values.

Definition str_list (l : list pystr) : json := JList (List.map JStr l).

(** [build_manifest]; [fixture_dir] is not used by the function. *)
Definition build_manifest
           (fixture_id domain : pystr) (description : option pystr)
           (capture_time origin : pystr)
           (command source_paths : option (list pystr))
           (tool_versions : dict) (redaction_profile : pystr)
           (artifacts : list json) : result json :=
  let source : dict := [(lit "origin", JStr origin)] in
  let source :=
    match command with
    | Some ((_ :: _) as command) =>
        dict_set source (lit "command") (str_list (redact_values command))
    | _ => source
    end in
  let source :=
    match source_paths with
    | Some ((_ :: _) as source_paths) =>
        dict_set source (lit "paths") (str_list (redact_values source_paths))
    | _ => source
    end in
  let manifest : dict :=
    [(lit "schema_version", JStr SCHEMA_VERSION);
     (lit "fixture_id", JStr fixture_id);
     (lit "domain", JStr domain);
     (lit "capture_time", JStr capture_time);
     (lit "source", JDict source);
     (lit "tool_versions", JDict tool_versions);
     (lit "redaction_profile", JStr redaction_profile);
     (lit "artifacts", JList artifacts)] in
  let manifest :=
    match description with
    | Some ((_ :: _) as description) =>
        dict_set manifest (lit "description") (JStr description)
    | _ => manifest
    end in
  data <- canonical_manifest_bytes (JDict manifest) ;;
  Ok (JDict (dict_set manifest (lit "manifest_sha256")
                      (JStr (Sha256.hexdigest data)))).
End Script.

Definition SCRIPT_VERSION : pystr := lit "1.0.0".

(** [entry.split("=", 1)] for an entry that holds an equals sign: the text
    before the first one and the text after it. *)
Fixpoint split_eq (entry : pystr) : pystr * pystr :=
  match entry with
  | [] => ([], [])
  | c :: entry' =>
      if c =? 61 then ([], entry')
      else let (key, value) := split_eq entry' in (c :: key, value)
  end.

Definition tool_version_error (entry : pystr) : exn :=
  SystemExit (lit "tool version must be key=value, got: " ++ entry).

(** The body of [for entry in entries]. *)
Definition tool_version_entry (entry : pystr) (tool_versions : dict)
  : result dict :=
  if negb (str_contains (lit "=") entry) then Raise (tool_version_error entry)
  else
    let (key, value) := split_eq entry in
    let key := strip key in
    let value := strip value in
    match key, value with
    | _ :: _, _ :: _ => Ok (dict_set tool_versions key (JStr value))
    | _, _ => Raise (tool_version_error entry)
    end.

Definition parse_tool_versions (entries : option (list pystr)) : result dict :=
  let tool_versions : dict := [(lit "fixture_capture", JStr SCRIPT_VERSION)] in
  match entries with
  | Some ((_ :: _) as entries) => for_in tool_version_entry entries tool_versions
  | _ => Ok tool_versions
  end.

Section Gathering.
Variable O : oslib.
Variable fs : filesystem.

Fixpoint should_exclude (rel_path : pystr) (excludes : list pystr) : bool :=
  match excludes with
  | [] => false
  | pattern :: excludes' =>
      if fnmatch O rel_path pattern then true
      else should_exclude rel_path excludes'
  end.

Definition infer_kind (rel_path : pystr) : pystr :=
  let name := str_lower O (path_name O rel_path) in
  if ends_with (lit ".jsonl") name then lit "log"
  else if str_contains (lit "policy") name then lit "policy"
  else if str_contains (lit "priors") name then lit "priors"
  else if ends_with (lit "manifest.json") name then lit "manifest"
  else if ends_with (lit ".json") name then lit "config"
  else lit "other".

(** The body of [for path in sorted(fixture_dir.rglob("*"))]. A file that
    cannot be opened makes [sha256_file] raise. *)
Definition gather_entry
           (fixture_dir : path) (excludes : list pystr) (manifest_path : path)
           (log_path : option path) (redaction_profile : pystr)
           (path : path) (entries : list json) : result (list json) :=
  if is_dir O path then Ok entries
  else if str_eqb path manifest_path then Ok entries
  else if match log_path with
          | Some log_path => str_eqb path log_path
          | None => false
          end then Ok entries
  else
    let rel_path := relative_posix O path fixture_dir in
    if should_exclude rel_path excludes then Ok entries
    else
      match fs path with
      | None => Raise OSError
      | Some f =>
          digest <- sha256_file f ;;
          Ok (entries ++
              [JDict [(lit "path", JStr rel_path);
                      (lit "kind", JStr (infer_kind rel_path));
                      (lit "sha256", JStr digest);
                      (lit "bytes", JInt (st_size f));
                      (lit "redaction_profile", JStr redaction_profile)]])
      end.

Definition gather_artifacts
           (fixture_dir : path) (excludes : list pystr) (manifest_path : path)
           (log_path : option path) (redaction_profile : pystr)
  : result (list json) :=
  for_in (gather_entry fixture_dir excludes manifest_path log_path
                       redaction_profile)
         (rglob O fixture_dir) [].
End Gathering.
End Capture.


(* ================================================================== *)
(** * A concrete library and file system                               *)
(* ================================================================== *)

(** The theorems below hold for every [pylib] and every [filesystem]. To
    run the validators on concrete manifests one instance is fixed here:
    the Unicode tables of an ASCII-only text, POSIX paths that need no
    normalisation, no [jsonschema] installed, and a reader for the JSON
    texts that have no fractional numbers and no escapes. *)
Module Env.
Definition quoted (s : pystr) : pystr := [34] ++ s ++ [34].

Fixpoint skip_ws (s : pystr) : pystr :=
  match s with
  | c :: s' =>
      if (c =? 32) || (c =? 9) || (c =? 10) || (c =? 13)
      then skip_ws s' else s
  | [] => []
  end.

(** The text after an opening quote, up to the closing one. *)
Fixpoint scan_string (s acc : pystr) : option (pystr * pystr) :=
  match s with
  | [] => None
  | c :: s' =>
      if c =? 34 then Some (rev acc, s')
      else if (c =? 92) || (c <? 32) then None
      else scan_string s' (c :: acc)
  end.

Fixpoint scan_digits (s : pystr) (acc : Z) : Z * pystr :=
  match s with
  | c :: s' =>
      if ascii_digit c then scan_digits s' (10 * acc + (Z.of_N c - 48))%Z
      else (acc, s)
  | [] => (acc, [])
  end.

Definition scan_int (s : pystr) : option (json * pystr) :=
  let (neg, s1) :=
    match s with
    | 45 :: s' => (true, s')
    | _ => (false, s)
    end in
  match s1 with
  | c :: _ =>
      if ascii_digit c then
        let (n, rest) := scan_digits s1 0%Z in
        match rest with
        | 46 :: _ | 101 :: _ | 69 :: _ => None
        | _ => Some (JInt (if neg then - n else n)%Z, rest)
        end
      else None
  | [] => None
  end.

Fixpoint value (fuel : nat) (s : pystr) : option (json * pystr) :=
  match fuel with
  | O => None
  | S fuel' =>
      match skip_ws s with
      | 123 :: s1 =>
          match skip_ws s1 with
          | 125 :: s2 => Some (JDict [], s2)
          | _ => members fuel' s1 []
          end
      | 91 :: s1 =>
          match skip_ws s1 with
          | 93 :: s2 => Some (JList [], s2)
          | _ => elements fuel' s1 []
          end
      | 34 :: s1 =>
          match scan_string s1 [] with
          | Some (t, s2) => Some (JStr t, s2)
          | None => None
          end
      | s0 =>
          if starts_with (lit "null") s0 then Some (JNull, skipn 4 s0)
          else if starts_with (lit "true") s0 then Some (JBool true, skipn 4 s0)
          else if starts_with (lit "false") s0
               then Some (JBool false, skipn 5 s0)
               else scan_int s0
      end
  end
with members (fuel : nat) (s : pystr) (acc : dict)
     : option (json * pystr) :=
  match fuel with
  | O => None
  | S fuel' =>
      match skip_ws s with
      | 34 :: s1 =>
          match scan_string s1 [] with
          | Some (k, s2) =>
              match skip_ws s2 with
              | 58 :: s3 =>
                  match value fuel' s3 with
                  | Some (v, s4) =>
                      match skip_ws s4 with
                      | 44 :: s5 => members fuel' s5 (dict_set acc k v)
                      | 125 :: s5 => Some (JDict (dict_set acc k v), s5)
                      | _ => None
                      end
                  | None => None
                  end
              | _ => None
              end
          | None => None
          end
      | _ => None
      end
  end
with elements (fuel : nat) (s : pystr) (acc : list json)
     : option (json * pystr) :=
  match fuel with
  | O => None
  | S fuel' =>
      match value fuel' s with
      | Some (v, s1) =>
          match skip_ws s1 with
          | 44 :: s2 => elements fuel' s2 (acc ++ [v])
          | 93 :: s2 => Some (JList (acc ++ [v]), s2)
          | _ => None
          end
      | None => None
      end
  end.

Definition loads (s : pystr) : option json :=
  match value (S (length s)) s with
  | Some (v, rest) =>
      match skip_ws rest with
      | [] => Some v
      | _ => None
      end
  | None => None
  end.

(** Timestamps of the shape [2026-01-31T12:00:00+00:00]. *)
Fixpoint fits (shape s : pystr) : bool :=
  match shape, s with
  | [], [] => true
  | x :: shape', c :: s' =>
      (if x =? 100 then ascii_digit c else c =? x) && fits shape' s'
  | _, _ => false
  end.

Definition dirname (p : path) : path :=
  rev (tl ((fix drop (s : pystr) : pystr :=
              match s with
              | c :: s' => if c =? 47 then s else drop s'
              | [] => []
              end) (rev p))).

Definition lib : pylib := {|
  uni_isalnum := fun _ => false;
  uni_decimal := fun _ => None;
  py_repr := dumps;
  fromisoformat := fits (lit "dddd-dd-ddTdd:dd:dd+dd:dd");
  json_loads := loads;
  Path := fun s => s;
  is_absolute := starts_with (lit "/");
  joinpath := fun a b => a ++ lit "/" ++ b;
  parent := dirname;
  jsonschema := fun _ _ => SchemaUnavailable
|}.

(** A regular file with the given content and text lines. *)
Definition regular (content : bytes) (lines : list pystr) : file :=
  {| st_size := Z.of_nat (length content);
     read_bytes := Ok content;
     read_lines := lines;
     read_fails := None |}.

Definition line_abc : pystr :=
  lit "{" ++ quoted (lit "run_id") ++ lit ":" ++ quoted (lit "abc") ++ lit "}".
Definition line_xyz : pystr :=
  lit "{" ++ quoted (lit "run_id") ++ lit ":" ++ quoted (lit "xyz") ++ lit "}".

(** Two files next to a manifest [/fx/manifest.json]. *)
Definition fs : filesystem :=
  fun p =>
    if str_eqb p (lit "/fx/data.txt") then
      Some (regular (lit "hello") [lit "hello"])
    else if str_eqb p (lit "/fx/run.jsonl") then
      Some (regular (line_abc ++ [10] ++ line_xyz ++ [10])
                    [line_abc ++ [10]; line_xyz ++ [10]])
    else None.

(** Lower case of an ASCII text. *)
Definition ascii_lower (s : pystr) : pystr :=
  List.map (fun c => if in_range 65 90 c then c + 32 else c) s.

(** The text after the last slash. *)
Definition basename (p : path) : pystr :=
  rev ((fix take (s : pystr) : pystr :=
          match s with
          | c :: s' => if c =? 47 then [] else c :: take s'
          | [] => []
          end) (rev p)).

(** The directory [/fx] as [rglob] lists it: the two files, the manifest
    and a directory; patterns without wildcards. *)
Definition os : oslib := {|
  fnmatch := str_eqb;
  path_name := basename;
  str_lower := ascii_lower;
  rglob := fun d =>
             if str_eqb d (lit "/fx")
             then [lit "/fx/data.txt"; lit "/fx/logs";
                   lit "/fx/manifest.json"; lit "/fx/run.jsonl"]
             else [];
  is_dir := fun p => str_eqb p (lit "/fx/logs");
  relative_posix := fun p d => skipn (S (length d)) p;
  json_error := fun _ => lit "Expecting value"
|}.
End Env.

(** Manifests and entries over that file system, used to run the
    validators. *)
Module Sample.
Definition manifest_path : path := lit "/fx/manifest.json".
Definition schema_path : path := lit "/specs/schemas/manifest.schema.json".
Definition base_dir : path := lit "/fx".

(** The entry [gather_artifacts] makes for [/fx/data.txt]. *)
Definition data_entry : dict :=
  [(lit "path", JStr (lit "data.txt"));
   (lit "kind", JStr (lit "other"));
   (lit "sha256", JStr (Sha256.hexdigest (lit "hello")));
   (lit "bytes", JInt 5);
   (lit "redaction_profile", JStr (lit "safe"))].

(** A captured fixture manifest, and the same with another domain. *)
Definition captured : result json :=
  Capture.build_manifest Env.lib (lit "fx-1") (lit "triage") None
                 (lit "2026-01-31T12:00:00Z") (lit "manual")
                 (Some [lit "ls"; lit "-l"]) None
                 [(lit "fixture_capture", JStr (lit "1.0.0"))]
                 (lit "safe") [JDict data_entry].

Definition fixture_manifest : dict :=
  match captured with
  | Ok (JDict d) => d
  | _ => []
  end.

Definition tampered : dict :=
  dict_set fixture_manifest (lit "domain") (JStr (lit "other")).

(** One document, filled in two orders. *)
Definition doc_a : json :=
  JDict [(lit "b", JDict [(lit "y", JInt 1); (lit "x", JStr [233])]);
         (lit "a", JList [JInt 1; JNull]);
         (lit "manifest_sha256", JStr (lit "00"))].

Definition doc_b : json :=
  JDict [(lit "manifest_sha256", JStr (lit "00"));
         (lit "a", JList [JInt 1; JNull]);
         (lit "b", JDict [(lit "x", JStr [233]); (lit "y", JInt 1)])].

(** The entry of a file recorded as [hello!] and truncated to [hello]. *)
Definition truncated_entry : dict :=
  [(lit "path", JStr (lit "data.txt"));
   (lit "sha256", JStr (Sha256.hexdigest (lit "hello!")));
   (lit "bytes", JInt 6)].

(** A correct entry without [redaction_profile]. *)
Definition unprofiled_entry : dict :=
  [(lit "path", JStr (lit "data.txt"));
   (lit "sha256", JStr (Sha256.hexdigest (lit "hello")));
   (lit "bytes", JInt 5)].

Definition origin_only : dict :=
  [(lit "origin", JStr (lit "/Users/alice/project"))].

Definition scanned_source : dict :=
  [(lit "origin", JStr (lit "manual"));
   (lit "command", JList [JStr (lit "cat"); JStr (lit "/Users/alice/notes")])].

Definition jsonl_entry : dict :=
  [(lit "kind", JStr (lit "jsonl")); (lit "path", JStr (lit "run.jsonl"))].

Definition no_run_id : dict := [(lit "logs", JList [JDict jsonl_entry])].

Definition run_abc : dict :=
  [(lit "run_id", JStr (lit "abc")); (lit "logs", JList [JDict jsonl_entry])].

(** What [gather_artifacts] finds in [/fx] when the manifest is written
    to [/fx/manifest.json] and no log is kept. *)
Definition gathered : list json :=
  match Capture.gather_artifacts Env.os Env.fs base_dir [] manifest_path None
                                 (lit "safe") with
  | Ok entries => entries
  | Raise _ => []
  end.

(** A manifest whose [redaction_profile] is an array. *)
Definition array_profile : dict := [(lit "redaction_profile", JList [])].
End Sample.

(* ================================================================== *)
(** * Vocabulary of the statements                                     *)
(* ================================================================== *)

(** A message is tagged when it starts with one of the given prefixes. *)
Definition tagged (tags : list pystr) (msg : pystr) : Prop :=
  existsb (fun t => starts_with t msg) tags = true.

(** [grows Q errs r]: if the computation [r], started with the list
    [errs], returns, it returns [errs] followed by messages that all
    satisfy [Q]. *)
Definition grows (Q : pystr -> Prop) (errs : errors) (r : result errors)
  : Prop :=
  forall errs', r = Ok errs' ->
                exists added, errs' = errs ++ added /\ Forall Q added.

(** The first words of the messages of the fixture validator, the two
    about [manifest_sha256] left out. *)
Definition FIXTURE_TAGS : list pystr :=
  [lit "schema validation "; lit "missing required field: ";
   lit "schema_version "; lit "unsupported schema_version major: ";
   lit "fixture_id must"; lit "domain must"; lit "capture_time must";
   lit "source"; lit "tool_versions"; lit "redaction_profile must";
   lit "artifact"].

(** The first words of the messages of the end-to-end validator, the two
    of the JSONL check left out. *)
Definition E2E_TAGS : list pystr :=
  [lit "schema validation "; lit "missing required field: ";
   lit "schema_version "; lit "unsupported schema_version major: ";
   lit "run_id must"; lit "suite must"; lit "test_id must"; lit "timestamp ";
   lit "env"; lit "manifest_sha256 "; lit "commands"; lit "log";
   lit "artifact"].

(** The message of the fixture validator for a stored digest that is not
    the recomputed one. *)
Definition mismatch : pystr := lit "manifest_sha256 mismatch".

(** Two values hold the same mappings when they differ at most in the
    order in which their dictionaries, at any depth, were filled. *)
Inductive same_entry (R : json -> json -> Prop)
  : option json -> option json -> Prop :=
| both_absent : same_entry R None None
| both_present v1 v2 : R v1 v2 -> same_entry R (Some v1) (Some v2).

Inductive same_mappings : json -> json -> Prop :=
| same_null : same_mappings JNull JNull
| same_bool b : same_mappings (JBool b) (JBool b)
| same_int n : same_mappings (JInt n) (JInt n)
| same_float r : same_mappings (JFloat r) (JFloat r)
| same_str s : same_mappings (JStr s) (JStr s)
| same_list l1 l2 :
    Forall2 same_mappings l1 l2 -> same_mappings (JList l1) (JList l2)
| same_dict d1 d2 :
    (forall k, same_entry same_mappings (dict_lookup d1 k) (dict_lookup d2 k)) ->
    same_mappings (JDict d1) (JDict d2).

(** The items of a dictionary with their values encoded. *)
Definition encoded_items (d : dict) : list (pystr * pystr) :=
  List.map (fun kv => (fst kv, dumps (snd kv))) d.

(** Items in the order of their keys. *)
Definition key_le {A : Type} (x y : pystr * A) : Prop :=
  str_leb (fst x) (fst y) = true.

(** A decision procedure for [same_mappings] on well-formed values. *)
Fixpoint same_mappings_b (a b : json) : bool :=
  match a, b with
  | JNull, JNull => true
  | JBool x, JBool y => Bool.eqb x y
  | JInt x, JInt y => (x =? y)%Z
  | JFloat x, JFloat y => str_eqb x y
  | JStr x, JStr y => str_eqb x y
  | JList l1, JList l2 =>
      (fix go (l1 l2 : list json) : bool :=
         match l1, l2 with
         | [], [] => true
         | x :: l1', y :: l2' => same_mappings_b x y && go l1' l2'
         | _, _ => false
         end) l1 l2
  | JDict d1, JDict d2 =>
      (length d1 =? length d2)%nat &&
      (fix all (d1 : dict) : bool :=
         match d1 with
         | [] => true
         | (k, v) :: d1' =>
             match dict_lookup d2 k with
             | Some v2 => same_mappings_b v v2
             | None => false
             end && all d1'
         end) d1
  | _, _ => false
  end.

(** A well-formed UUID. *)
Definition a_uuid : pystr := lit "123e4567-e89b-12d3-a456-426614174000".

(** A manifest whose stored digest is not a digest at all, and the two
    messages the end-to-end validator has about it. *)
Definition malformed_sha_manifest : json :=
  JDict [(lit "manifest_sha256", JStr (lit "xyz"))].

Definition not_hex : pystr := lit "manifest_sha256 not sha256 hex".
Definition e2e_mismatch_xyz : pystr :=
  lit "manifest_sha256 mismatch: expected xyz, got 44136fa355b3678a1146ad16f7e8649e94fb4fc21fe77e8310c060f61caaff8a".

(** What [Fixture.check_redaction] reports about an item: one message for each
    pattern that matches it. *)
Definition reports (L : pylib) (item label : pystr) (added : list pystr)
  : Prop :=
  (matches (re_search L HOME_RE item) = true ->
   In (label ++ lit " contains unredacted home path") added) /\
  (matches (re_search L UUID_RE item) = true ->
   In (label ++ lit " contains unredacted UUID") added) /\
  (matches (re_search L HEX_RE item) = true ->
   In (label ++ lit " contains unredacted hex id") added).

(** The two messages about a file that is not the recorded one. *)
Definition bytes_mismatch (L : pylib) (label path_value : pystr)
           (expected : json) (actual : Z) : pystr :=
  label ++ lit " bytes mismatch for " ++ path_value
        ++ lit ": expected " ++ py_str L expected
        ++ lit ", got " ++ str_of_Z actual.

Definition sha256_mismatch (label path_value expected actual : pystr) : pystr :=
  label ++ lit " sha256 mismatch for " ++ path_value
        ++ lit ": expected " ++ expected ++ lit ", got " ++ actual.

(** The library with another [json.loads]. *)
Definition with_json_loads (L : pylib) (loads : pystr -> option json) : pylib :=
  {| uni_isalnum := uni_isalnum L;
     uni_decimal := uni_decimal L;
     py_repr := py_repr L;
     fromisoformat := fromisoformat L;
     json_loads := loads;
     Path := Path L;
     is_absolute := is_absolute L;
     joinpath := joinpath L;
     parent := parent L;
     jsonschema := jsonschema L |}.

(** The file system with other text in its files: what reading them in
    text mode yields is replaced, the rest is kept. *)
Definition with_text (fs : filesystem)
           (text : path -> list pystr * option exn) : filesystem :=
  fun p =>
    match fs p with
    | Some f =>
        Some {| st_size := st_size f;
                read_bytes := read_bytes f;
                read_lines := fst (text p);
                read_fails := snd (text p) |}
    | None => None
    end.

(** The message for a second line whose [run_id] is not the manifest's. *)
Definition mismatch_line_2 (path_value : pystr) : pystr :=
  lit "jsonl run_id mismatch in " ++ path_value ++ lit " line 2".

(** The sample file system with logs that hold the one line [[]]. *)
Definition fs_with_array_line : filesystem :=
  with_text Env.fs (fun _ => ([lit "[]"], None)).

(** ** Vocabulary of the further properties *)

Definition digits (L : pylib) (s : pystr) : Prop :=
  s <> [] /\ forallb (is_digit L) s = true.

Definition entry_key (entry : pystr) : pystr := strip (fst (Capture.split_eq entry)).

Definition entry_value (entry : pystr) : pystr := strip (snd (Capture.split_eq entry)).

(** An entry [parse_tool_versions] takes. *)
Definition key_value (entry : pystr) : bool :=
  str_contains (lit "=") entry
  && negb (str_eqb (entry_key entry) [])
  && negb (str_eqb (entry_value entry) []).

(** The dictionary the entries build, when all of them are taken. *)
Definition tool_versions_of (entries : list pystr) (tv : dict) : dict :=
  fold_left (fun tv e => dict_set tv (entry_key e) (JStr (entry_value e))) entries tv.

Definition named_string (kv : pystr * json) : Prop :=
  fst kv <> [] /\ exists v, snd kv = JStr v /\ v <> [].

(** An entry records a file of the file system faithfully. *)
Definition records (L : pylib) (fs : filesystem)
           (entry : dict) (base_dir : path) : Prop :=
  exists path_value f content,
    dict_get entry (lit "path") = JStr path_value /\ path_value <> [] /\
    fs (resolve L base_dir path_value) = Some f /\
    read_bytes f = Ok content /\
    is_int (dict_get entry (lit "bytes")) = true /\
    int_value (dict_get entry (lit "bytes")) = st_size f /\
    dict_get entry (lit "sha256") = JStr (Sha256.hexdigest content).

(** The files [gather_artifacts] lists. *)
Definition listed (O : oslib) (fixture_dir : path) (excludes : list pystr)
           (manifest_path : path) (log_path : option path) (p : path) : bool :=
  negb (is_dir O p) && negb (str_eqb p manifest_path)
  && negb (match log_path with Some lp => str_eqb p lp | None => false end)
  && negb (Capture.should_exclude O (relative_posix O p fixture_dir) excludes).

(** The entry of a listed file. *)
Definition entry_for (O : oslib) (fs : filesystem) (fixture_dir : path)
           (redaction_profile : pystr) (p : path) (entry : json) : Prop :=
  exists f content,
    fs p = Some f /\ read_bytes f = Ok content /\
    entry =
    JDict [(lit "path", JStr (relative_posix O p fixture_dir));
           (lit "kind", JStr (Capture.infer_kind O (relative_posix O p fixture_dir)));
           (lit "sha256", JStr (Sha256.hexdigest content));
           (lit "bytes", JInt (st_size f));
           (lit "redaction_profile", JStr redaction_profile)].

Definition short_plain (s : list N) : Prop :=
  (length s < 32)%nat /\ forallb not_slash s = true.

Definition anything (_ : pystr) : Prop := True.

(** What the capabilities validator asks of a manifest, the schema
    apart. *)
Definition capabilities_well_typed (L : pylib) (d : dict) : Prop :=
  (exists version, dict_get d (lit "schema_version") = JStr version /\
                   validate_version L version [] = Ok []) /\
  (exists os_info, dict_get d (lit "os") = JDict os_info /\
                   is_str (dict_get os_info (lit "family")) = true) /\
  is_dict (dict_get d (lit "tools")) = true /\
  (exists user, dict_get d (lit "user") = JDict user /\
                is_int (dict_get user (lit "uid")) = true /\
                is_str (dict_get user (lit "username")) = true /\
                is_str (dict_get user (lit "home")) = true) /\
  (exists paths, dict_get d (lit "paths") = JDict paths /\
                 is_str (dict_get paths (lit "config_dir")) = true /\
                 is_str (dict_get paths (lit "data_dir")) = true) /\
  (exists discovered_at,
      dict_get d (lit "discovered_at") = JStr discovered_at /\
      parse_rfc3339 L discovered_at = true).

(** What the fixture validator asks of a manifest kept next to its
    files in [base_dir], the schema apart. *)
Definition fixture_well_formed (L : pylib) (fs : filesystem)
           (d : dict) (base_dir : path) : Prop :=
  (exists version, dict_get d (lit "schema_version") = JStr version /\
                   validate_version L version [] = Ok []) /\
  is_str (dict_get d (lit "fixture_id")) = true /\
  is_str (dict_get d (lit "domain")) = true /\
  (exists capture_time,
      dict_get d (lit "capture_time") = JStr capture_time /\
      parse_rfc3339 L capture_time = true) /\
  (exists source, dict_get d (lit "source") = JDict source /\
                  Fixture.validate_source L source [] = Ok []) /\
  (exists tool_versions,
      dict_get d (lit "tool_versions") = JDict tool_versions /\
      Fixture.validate_tool_versions tool_versions [] = Ok []) /\
  (exists profile, dict_get d (lit "redaction_profile") = JStr profile /\
                   In profile Fixture.REDACTION_PROFILES) /\
  (exists first others,
      dict_get d (lit "artifacts") = JList (first :: others) /\
      Forall (fun e => exists entry,
                  e = JDict entry /\
                  Fixture.validate_artifact_entry L fs entry base_dir []
                  = Ok [])
             (first :: others)) /\
  (exists data, canonical_manifest_bytes (JDict d) = Ok data /\
                dict_get d (lit "manifest_sha256") = JStr (sha256_bytes data)).

Definition values_of (values : option (list pystr)) : list pystr :=
  match values with Some l => l | None => [] end.

(** A value the scanner has nothing to say about. *)
Definition unflagged (L : pylib) (value : pystr) : Prop :=
  forall label errs, Fixture.check_redaction L value label errs = Ok errs.

(** A computation that returns. *)
Definition returns {A : Type} (r : result A) : Prop := exists a, r = Ok a.

(** A code point [str.encode("utf-8")] accepts: not a surrogate. *)
Definition encodable (c : N) : bool := negb (in_range 0xD800 0xDFFF c).

(** A value all of whose strings can be encoded. *)
Fixpoint encodable_json (j : json) : bool :=
  match j with
  | JFloat r => forallb encodable r
  | JStr s => forallb encodable s
  | JList l =>
      (fix all (l : list json) : bool :=
         match l with
         | [] => true
         | x :: l' => encodable_json x && all l'
         end) l
  | JDict d =>
      (fix all (d : dict) : bool :=
         match d with
         | [] => true
         | (k, v) :: d' => forallb encodable k && encodable_json v && all d'
         end) d
  | _ => true
  end.

(** A line the JSONL check has nothing to say about: blank, or an object
    whose [run_id] is the manifest's. *)
Definition line_agrees (L : pylib) (run_id line : pystr) : Prop :=
  strip line = [] \/
  exists payload,
    json_loads L (strip line) = Some (JDict payload) /\
    dict_get payload (lit "run_id") = JStr run_id.

(** A line that is JSON but not an object. *)
Definition not_an_object (L : pylib) (line : pystr) : Prop :=
  exists payload, strip line <> [] /\
                  json_loads L (strip line) = Some payload /\
                  is_dict payload = false.

(** An entry of [commands] the validator has nothing to say about. *)
Definition command_well_formed (e : json) : Prop :=
  exists entry first others,
    e = JDict entry /\
    dict_get entry (lit "argv") = JList (first :: others) /\
    forallb is_str (first :: others) = true /\
    is_int (dict_get entry (lit "exit_code")) = true /\
    is_int (dict_get entry (lit "duration_ms")) = true.

(** What the end-to-end validator asks of a manifest kept in
    [base_dir], the schema apart. *)
Definition e2e_well_formed (L : pylib) (fs : filesystem)
           (d : dict) (base_dir : path) : Prop :=
  (exists version, dict_get d (lit "schema_version") = JStr version /\
                   validate_version L version [] = Ok []) /\
  (exists run_id logs,
      dict_get d (lit "run_id") = JStr run_id /\
      dict_get d (lit "logs") = JList logs /\
      Forall (fun e => E2E.log_entry L fs base_dir run_id e [] = Ok []) logs) /\
  is_str (dict_get d (lit "suite")) = true /\
  is_str (dict_get d (lit "test_id")) = true /\
  (exists timestamp, dict_get d (lit "timestamp") = JStr timestamp /\
                     parse_rfc3339 L timestamp = true) /\
  (exists env, dict_get d (lit "env") = JDict env /\
               is_str (dict_get env (lit "os")) = true /\
               is_str (dict_get env (lit "arch")) = true /\
               is_str (dict_get env (lit "kernel")) = true /\
               is_str (dict_get env (lit "ci_provider")) = true) /\
  (exists data, canonical_manifest_bytes (JDict d) = Ok data /\
                dict_get d (lit "manifest_sha256") = JStr (sha256_bytes data)) /\
  (exists first others,
      dict_get d (lit "commands") = JList (first :: others) /\
      Forall command_well_formed (first :: others)) /\
  (exists artifacts,
      dict_get d (lit "artifacts") = JList artifacts /\
      Forall (fun e => E2E.artifact_entry L fs base_dir e [] = Ok []) artifacts) /\
  dict_has d (lit "metrics") = true.

(** The kinds [infer_kind] knows. *)
Definition FIXTURE_KINDS : list pystr :=
  [lit "log"; lit "policy"; lit "priors"; lit "manifest"; lit "config";
   lit "other"].

(** A value of [source.command] or [source.paths] the validator has
    nothing to say about: absent, or a list of strings none of which the
    scanner flags. *)
Definition clean_list (L : pylib) (value : json) : Prop :=
  value = JNull \/
  exists items, value = JList (List.map JStr items) /\
                Forall (unflagged L) items.

(** Text without a slash, possibly after one slash. *)
Definition at_most_one_slash (s : list N) : Prop :=
  forallb not_slash s = true \/
  exists t, s = 47 :: t /\ forallb not_slash t = true.

(** A run of [n] hexadecimal digits, in either case. *)
Definition hex_run (n : nat) (s : pystr) : Prop :=
  length s = n /\ forallb hex_anycase s = true.

Definition inside_hex (b s : list N) : Prop :=
  forallb hex_anycase b = true /\ forallb hex_anycase s = true /\
  (b = [] -> (9 <= length s)%nat).

(* ================================================================== *)
(** * Facts about strings                                              *)
(* ================================================================== *)

Lemma str_eqb_refl (a : pystr) : str_eqb a a = true.
Proof.
  induction a as [|x a IH]; simpl; [reflexivity|].
  now rewrite N.eqb_refl, IH.
Qed.

Lemma str_eqb_eq (a b : pystr) : str_eqb a b = true <-> a = b.
Proof.
  split; [|intros ->; apply str_eqb_refl].
  revert b; induction a as [|x a IH]; intros [|y b]; simpl; try discriminate; auto.
  intros H. apply andb_true_iff in H as [Hx Hr].
  apply N.eqb_eq in Hx. apply IH in Hr. congruence.
Qed.

Lemma str_eqb_neq (a b : pystr) : str_eqb a b = false <-> a <> b.
Proof.
  split.
  - intros H E. apply str_eqb_eq in E. congruence.
  - intros H. destruct (str_eqb a b) eqn:E; [|reflexivity].
    apply str_eqb_eq in E. contradiction.
Qed.

Lemma str_eqb_sym (a b : pystr) : str_eqb a b = str_eqb b a.
Proof.
  destruct (str_eqb a b) eqn:E.
  - apply str_eqb_eq in E. subst. symmetry. apply str_eqb_refl.
  - symmetry. apply str_eqb_neq. apply str_eqb_neq in E. congruence.
Qed.

Lemma starts_with_app (a b c : pystr) :
  starts_with (a ++ b) (a ++ c) = starts_with b c.
Proof.
  induction a as [|x a IH]; simpl; [reflexivity|].
  now rewrite N.eqb_refl, IH.
Qed.

Lemma starts_with_self_app (a c : pystr) : starts_with a (a ++ c) = true.
Proof.
  induction a as [|x a IH]; simpl; [reflexivity|].
  now rewrite N.eqb_refl, IH.
Qed.

Lemma starts_with_split (p s : pystr) :
  starts_with p s = true -> exists t, s = p ++ t.
Proof.
  revert s; induction p as [|x p IH]; intros s H.
  - now exists s.
  - destruct s as [|y s]; simpl in H; [discriminate|].
    apply andb_true_iff in H as [Hx Hr]. apply N.eqb_eq in Hx. subst y.
    destruct (IH _ Hr) as [t ->]. now exists t.
Qed.

(** Two prefixes of one string: one is a prefix of the other. *)
Lemma starts_with_compatible (p q s : pystr) :
  starts_with p s = true -> starts_with q s = true ->
  starts_with p q = true \/ starts_with q p = true.
Proof.
  revert q s; induction p as [|x p IH]; intros q s Hp Hq.
  - now left.
  - destruct q as [|y q]; [now right|].
    destruct s as [|z s]; simpl in *; [discriminate|].
    apply andb_true_iff in Hp as [Hx Hp]. apply andb_true_iff in Hq as [Hy Hq].
    apply N.eqb_eq in Hx, Hy. subst.
    rewrite N.eqb_refl. simpl. eauto.
Qed.

Lemma starts_with_trans (p q s : pystr) :
  starts_with p q = true -> starts_with q s = true -> starts_with p s = true.
Proof.
  intros Hp Hq. apply starts_with_split in Hp as [t ->].
  apply starts_with_split in Hq as [u ->].
  rewrite <- app_assoc. apply starts_with_self_app.
Qed.

(** Tags that refine those of [tags'] tag fewer messages. *)
Lemma tagged_covered (tags tags' : list pystr) (msg : pystr) :
  forallb (fun t => existsb (fun t' => starts_with t' t) tags') tags = true ->
  tagged tags msg -> tagged tags' msg.
Proof.
  unfold tagged. intros Hc H.
  apply existsb_exists in H as (t & Ht & Hs).
  rewrite forallb_forall in Hc. specialize (Hc _ Ht).
  apply existsb_exists in Hc as (t' & Ht' & Hs').
  apply existsb_exists. exists t'. split; [assumption|].
  eapply starts_with_trans; eauto.
Qed.

Lemma tagged_not_eq (tags : list pystr) (msg x : pystr) :
  tagged tags msg ->
  existsb (fun t => starts_with t x) tags = false -> msg <> x.
Proof.
  unfold tagged. intros H Hx ->. congruence.
Qed.

Lemma tagged_not_prefixed (tags : list pystr) (msg p : pystr) :
  tagged tags msg ->
  existsb (fun t => starts_with t p || starts_with p t) tags = false ->
  starts_with p msg = false.
Proof.
  unfold tagged. intros H Hx.
  destruct (starts_with p msg) eqn:E; [|reflexivity].
  apply existsb_exists in H as (t & Ht & Hs).
  assert (Hc : existsb (fun t => starts_with t p || starts_with p t) tags = true).
  { apply existsb_exists. exists t. split; [assumption|].
    apply orb_true_iff. eapply starts_with_compatible; eauto. }
  congruence.
Qed.

(* ================================================================== *)
(** * Validators only append                                           *)
(* ================================================================== *)

Lemma grows_ok Q errs : grows Q errs (Ok errs).
Proof.
  intros errs' H. inversion H; subst. exists []. now rewrite app_nil_r.
Qed.

Lemma grows_raise Q errs e : grows Q errs (Raise e).
Proof. intros errs' H. discriminate. Qed.

Lemma grows_append Q errs msg : Q msg -> grows Q errs (append msg errs).
Proof.
  intros HQ errs' H. inversion H; subst. exists [msg]. auto.
Qed.

Lemma grows_append_if Q errs (c : bool) msg :
  (c = true -> Q msg) -> grows Q errs (append_if c msg errs).
Proof.
  unfold append_if. destruct c; intros HQ.
  - apply grows_append; auto.
  - apply grows_ok.
Qed.

Lemma grows_bind Q errs (m : result errors) (k : errors -> result errors) :
  grows Q errs m -> (forall e1, grows Q e1 (k e1)) -> grows Q errs (bind m k).
Proof.
  intros Hm Hk errs' H. destruct m as [e1|]; simpl in H; [|discriminate].
  destruct (Hm e1 eq_refl) as (a1 & -> & F1).
  destruct (Hk _ _ H) as (a2 & -> & F2).
  exists (a1 ++ a2). split; [now rewrite app_assoc|].
  apply Forall_app; auto.
Qed.

Lemma grows_bind_val {A} Q errs (m : result A) (k : A -> result errors) :
  (forall a, m = Ok a -> grows Q errs (k a)) -> grows Q errs (bind m k).
Proof.
  intros Hk errs' H. destruct m as [a|]; simpl in H; [|discriminate].
  eapply Hk; eauto.
Qed.

Lemma grows_for_each {A} Q (body : A -> errors -> result errors) xs :
  (forall x e, In x xs -> grows Q e (body x e)) ->
  forall errs, grows Q errs (for_each body xs errs).
Proof.
  induction xs as [|x xs IH]; intros Hb errs; simpl.
  - apply grows_ok.
  - apply grows_bind.
    + apply Hb. now left.
    + intros e1. apply IH. intros y e Hy. apply Hb. now right.
Qed.

Lemma grows_for_enumerate {A} Q (body : nat -> A -> errors -> result errors) xs :
  (forall i x e, In x xs -> grows Q e (body i x e)) ->
  forall start errs, grows Q errs (for_enumerate body start xs errs).
Proof.
  induction xs as [|x xs IH]; intros Hb start errs; simpl.
  - apply grows_ok.
  - apply grows_bind.
    + apply Hb. now left.
    + intros e1. apply IH. intros i y e Hy. apply Hb. now right.
Qed.

Lemma grows_weaken (Q Q' : pystr -> Prop) errs r :
  (forall m, Q m -> Q' m) -> grows Q errs r -> grows Q' errs r.
Proof.
  intros HQ Hg errs' H. destruct (Hg _ H) as (a & -> & F).
  exists a. split; [reflexivity|]. eapply Forall_impl; eauto.
Qed.

(** Decomposes a goal [grows Q errs r] along the structure of [r]. *)
Ltac grows_step :=
  match goal with
  | |- grows _ _ (Ok _) => apply grows_ok
  | |- grows _ _ (Raise _) => apply grows_raise
  | |- grows _ _ (append _ _) => apply grows_append
  | |- grows _ _ (append_if _ _ _) => apply grows_append_if; intros _
  | |- grows _ _ (for_each _ _ _) => apply grows_for_each; intros ? ? ?
  | |- grows _ _ (for_enumerate _ _ _ _) =>
      apply grows_for_enumerate; intros ? ? ? ?
  | |- grows _ _ (bind _ _) =>
      first [ apply grows_bind; [|intros ?]
            | apply grows_bind_val; intros ? ? ]
  | |- grows _ _ (match ?x with _ => _ end) => destruct x
  | |- grows _ _ (if ?x then _ else _) => destruct x
  | |- grows _ _ (let (_, _) := ?x in _) => destruct x
  end.

(** A literal prefix is recognised by computation. *)
Ltac tag_by_computation := unfold tagged; cbn; rewrite ?N.eqb_refl; reflexivity.

(* ================================================================== *)
(** * How the messages of each validator begin                         *)
(* ================================================================== *)

Section Tags.
Variable L : pylib.
Variable fs : filesystem.

Lemma schema_grows manifest schema_path errs :
  grows (tagged [lit "schema validation "]) errs
        (validate_schema_with_jsonschema L manifest schema_path errs).
Proof.
  unfold validate_schema_with_jsonschema.
  repeat grows_step; tag_by_computation.
Qed.

Lemma require_fields_grows manifest fields errs :
  grows (tagged [lit "missing required field: "]) errs
        (require_fields manifest fields errs).
Proof.
  unfold require_fields. repeat grows_step; tag_by_computation.
Qed.

Lemma require_field_grows manifest field errs :
  grows (tagged [lit "missing required field: "]) errs
        (E2E.require_field manifest field errs).
Proof.
  unfold E2E.require_field. repeat grows_step; tag_by_computation.
Qed.

Lemma check_schema_version_grows d errs :
  grows (tagged [lit "schema_version "; lit "unsupported schema_version major: "])
        errs (check_schema_version L d errs).
Proof.
  unfold check_schema_version, validate_version.
  repeat grows_step; tag_by_computation.
Qed.

Lemma check_redaction_grows value label errs :
  grows (fun m => starts_with label m = true) errs
        (Fixture.check_redaction L value label errs).
Proof.
  unfold Fixture.check_redaction.
  repeat grows_step; apply starts_with_self_app.
Qed.

Lemma validate_source_grows source errs :
  grows (tagged [lit "source."]) errs (Fixture.validate_source L source errs).
Proof.
  unfold Fixture.validate_source, Fixture.source_key, Fixture.source_item.
  repeat grows_step; try tag_by_computation.
  all: eapply grows_weaken; [|apply check_redaction_grows].
  all: intros m Hm; apply starts_with_split in Hm as [t ->]; tag_by_computation.
Qed.

Lemma validate_tool_versions_grows tool_versions errs :
  grows (tagged [lit "tool_versions"]) errs
        (Fixture.validate_tool_versions tool_versions errs).
Proof.
  unfold Fixture.validate_tool_versions. repeat grows_step; tag_by_computation.
Qed.

Lemma validate_artifact_entry_grows entry base_dir errs :
  grows (tagged [lit "artifact "]) errs
        (Fixture.validate_artifact_entry L fs entry base_dir errs).
Proof.
  unfold Fixture.validate_artifact_entry. repeat grows_step; tag_by_computation.
Qed.

Lemma validate_file_entry_grows entry base_dir label errs :
  grows (fun m => starts_with (label ++ lit " ") m = true) errs
        (E2E.validate_file_entry L fs entry base_dir label errs).
Proof.
  unfold E2E.validate_file_entry.
  repeat grows_step; simpl; apply starts_with_app.
Qed.

Lemma validate_jsonl_run_id_grows entry base_dir run_id errs :
  grows (tagged [lit "jsonl "]) errs
        (E2E.validate_jsonl_run_id L fs entry base_dir run_id errs).
Proof.
  unfold E2E.validate_jsonl_run_id, E2E.jsonl_line.
  repeat grows_step; tag_by_computation.
Qed.

Lemma e2e_command_grows idx entry errs :
  grows (tagged [lit "commands["]) errs (E2E.command_entry idx entry errs).
Proof.
  unfold E2E.command_entry. repeat grows_step; tag_by_computation.
Qed.

Lemma e2e_artifact_grows base_dir entry errs :
  grows (tagged [lit "artifact "]) errs (E2E.artifact_entry L fs base_dir entry errs).
Proof.
  unfold E2E.artifact_entry.
  repeat grows_step; try tag_by_computation.
  all: eapply grows_weaken; [|apply validate_file_entry_grows].
  all: intros m Hm; apply starts_with_split in Hm as [t ->]; tag_by_computation.
Qed.

Lemma e2e_log_grows base_dir run_id entry errs :
  grows (tagged [lit "log "; lit "jsonl "]) errs
        (E2E.log_entry L fs base_dir run_id entry errs).
Proof.
  unfold E2E.log_entry.
  repeat grows_step; try tag_by_computation.
  - eapply grows_weaken; [|apply validate_file_entry_grows].
    intros m Hm; apply starts_with_split in Hm as [t ->]; tag_by_computation.
  - eapply grows_weaken; [|apply validate_jsonl_run_id_grows].
    intros m. apply tagged_covered. reflexivity.
Qed.
End Tags.

(* ================================================================== *)
(** * A digest is a well-formed sha256 value                           *)
(* ================================================================== *)

Lemma bind_ok_inv {A B} (m : result A) (k : A -> result B) b :
  bind m k = Ok b -> exists a, m = Ok a /\ k a = Ok b.
Proof. destruct m as [a|]; simpl; [eauto|discriminate]. Qed.

Lemma rep_exact (R : Type) (p : N -> bool) (s : list N) :
  Forall (fun c => p c = true) s ->
  forall before rest caps (k : cont R),
    rep p (length s) (Some (length s)) before (s ++ rest) caps k
    = k (rev s ++ before) rest caps.
Proof.
  induction 1 as [|c s Hc Hs IH]; intros before rest caps k.
  - simpl. destruct rest; reflexivity.
  - simpl. rewrite Hc. rewrite IH. rewrite <- app_assoc. simpl.
    destruct (k (rev s ++ c :: before) rest caps); reflexivity.
Qed.

Lemma hex_lower_hex_digit (x : N) : hex_lower (Sha256.hex_digit x) = true.
Proof.
  unfold Sha256.hex_digit, hex_lower, in_range.
  change 15 with (N.ones 4). rewrite N.land_ones.
  assert (H : x mod 2 ^ 4 < 16) by (apply N.mod_lt; discriminate).
  generalize dependent (x mod 2 ^ 4). intros d H.
  destruct (N.ltb_spec d 10).
  - apply orb_true_iff. right. apply andb_true_iff. split; apply N.leb_le; lia.
  - apply orb_true_iff. left. apply andb_true_iff. split; apply N.leb_le; lia.
Qed.

Lemma hex8_shape (x : N) :
  length (Sha256.hex8 x) = 8%nat /\
  Forall (fun c => hex_lower c = true) (Sha256.hex8 x).
Proof.
  unfold Sha256.hex8. split; [reflexivity|].
  cbv [List.map]. repeat (apply Forall_cons; [apply hex_lower_hex_digit|]).
  apply Forall_nil.
Qed.

Lemma hexdigest_shape (data : bytes) :
  length (Sha256.hexdigest data) = 64%nat /\
  Forall (fun c => hex_lower c = true) (Sha256.hexdigest data).
Proof.
  unfold Sha256.hexdigest.
  set (s := Sha256.blocks _ _ _). clearbody s.
  split.
  - rewrite !length_app. now rewrite !(proj1 (hex8_shape _)).
  - repeat (apply Forall_app; split); apply hex8_shape.
Qed.

Lemma sha256_re_matches (L : pylib) (s : pystr) :
  length s = 64%nat -> Forall (fun c => hex_lower c = true) s ->
  matches (re_match L SHA256_RE s) = true.
Proof.
  intros Hl Hf. unfold re_match, match_here, SHA256_RE, Exactly.
  cbn [Seq rmatch]. rewrite <- Hl. rewrite <- (app_nil_r s) at 3.
  rewrite (@rep_exact _ hex_lower s Hf). reflexivity.
Qed.

Lemma hexdigest_well_formed (L : pylib) (data : bytes) :
  matches (re_match L SHA256_RE (Sha256.hexdigest data)) = true.
Proof.
  apply sha256_re_matches; apply hexdigest_shape.
Qed.

(* ================================================================== *)
(** * The self-hash of a manifest                                      *)
(* ================================================================== *)

Lemma dict_pop_set (d : dict) (k : pystr) (v : json) :
  dict_pop (dict_set d k v) k = dict_pop d k.
Proof.
  induction d as [|[k' v'] d IH]; simpl.
  - now rewrite str_eqb_refl.
  - destruct (str_eqb k' k) eqn:E; simpl; rewrite E; [reflexivity|].
    now rewrite IH.
Qed.

Lemma dict_get_set (d : dict) (k : pystr) (v : json) :
  dict_get (dict_set d k v) k = v.
Proof.
  unfold dict_get.
  induction d as [|[k' v'] d IH]; simpl.
  - now rewrite str_eqb_refl.
  - destruct (str_eqb k' k) eqn:E; simpl; rewrite E; [reflexivity|].
    apply IH.
Qed.

Lemma canonical_ignores_stored (d : dict) (v : json) :
  canonical_manifest_bytes (JDict (dict_set d (lit "manifest_sha256") v))
  = canonical_manifest_bytes (JDict d).
Proof.
  unfold canonical_manifest_bytes. now rewrite dict_pop_set.
Qed.

(** From [bind m k = Ok r], with [m] a step that only appends: the list
    [m] returned, as an extension of the one it started from. *)
Ltac peel H tags tac :=
  let e := fresh "e" in
  let He := fresh "He" in
  let G := fresh "G" in
  let a := fresh "a" in
  let Fa := fresh "Fa" in
  apply bind_ok_inv in H as (e & He & H);
  match type of He with
  | ?m = Ok _ =>
      eassert (G : grows (tagged tags) _ m) by tac;
      destruct (G _ He) as (a & -> & Fa); clear G He
  end.

(** A lemma about fewer tags serves for more. *)
Ltac by_lemma lem :=
  eapply grows_weaken; [|apply lem];
  let m := fresh "m" in intros m; apply tagged_covered; reflexivity.

Section SelfHash.
Variable L : pylib.
Variable fs : filesystem.


Lemma fixture_check_sha_equal d data errs :
  dict_get d (lit "manifest_sha256") = JStr (sha256_bytes data) ->
  canonical_manifest_bytes (JDict d) = Ok data ->
  Fixture.check_manifest_sha L (JDict d) errs = Ok errs.
Proof.
  intros Hs Hc. unfold Fixture.check_manifest_sha. rewrite Hs.
  unfold sha256_bytes at 1. rewrite hexdigest_well_formed.
  rewrite Hc. cbn [bind]. now rewrite str_eqb_refl.
Qed.

Lemma fixture_check_sha_differs d stored data errs :
  dict_get d (lit "manifest_sha256") = JStr stored ->
  canonical_manifest_bytes (JDict d) = Ok data ->
  matches (re_match L SHA256_RE stored) = true ->
  stored <> sha256_bytes data ->
  Fixture.check_manifest_sha L (JDict d) errs = Ok (errs ++ [mismatch]).
Proof.
  intros Hs Hc Hw Hd. unfold Fixture.check_manifest_sha. rewrite Hs, Hw, Hc.
  cbn [bind]. apply str_eqb_neq in Hd. now rewrite Hd.
Qed.

(** What runs before the self-hash check only adds tagged messages. *)
Lemma fixture_validate_manifest_inv manifest manifest_path schema_path errs :
  Fixture.validate_manifest L fs manifest manifest_path schema_path = Ok errs ->
  exists pre,
    Forall (tagged FIXTURE_TAGS) pre /\
    Fixture.check_manifest_sha L manifest pre = Ok errs.
Proof.
  unfold Fixture.validate_manifest. intros H.
  peel H FIXTURE_TAGS ltac:(by_lemma schema_grows).
  peel H FIXTURE_TAGS ltac:(by_lemma require_fields_grows).
  destruct manifest as [| | | | | |d]; try discriminate H.
  peel H FIXTURE_TAGS ltac:(by_lemma check_schema_version_grows).
  peel H FIXTURE_TAGS ltac:(repeat grows_step; tag_by_computation).
  peel H FIXTURE_TAGS ltac:(repeat grows_step; tag_by_computation).
  peel H FIXTURE_TAGS ltac:(repeat grows_step; tag_by_computation).
  peel H FIXTURE_TAGS ltac:(repeat grows_step; try tag_by_computation;
                            by_lemma validate_source_grows).
  peel H FIXTURE_TAGS ltac:(repeat grows_step; try tag_by_computation;
                            by_lemma validate_tool_versions_grows).
  apply bind_ok_inv in H as (known & _ & H).
  peel H FIXTURE_TAGS ltac:(repeat grows_step; tag_by_computation).
  peel H FIXTURE_TAGS ltac:(repeat grows_step; try tag_by_computation;
                            by_lemma (validate_artifact_entry_grows L fs)).
  eexists. split; [|exact H].
  repeat (apply Forall_app; split); try apply Forall_nil; assumption.
Qed.

Lemma tagged_fixture_not_mismatch msg :
  tagged FIXTURE_TAGS msg -> msg <> mismatch.
Proof. intros H. eapply tagged_not_eq; [exact H|reflexivity]. Qed.

Lemma build_manifest_closed
      fixture_id domain description capture_time origin command
      source_paths tool_versions redaction_profile artifacts m :
  Capture.build_manifest L fixture_id domain description capture_time origin command
                 source_paths tool_versions redaction_profile artifacts
  = Ok m ->
  exists d data,
    m = JDict d /\
    dict_get d (lit "manifest_sha256") = JStr (sha256_bytes data) /\
    canonical_manifest_bytes m = Ok data.
Proof.
  unfold Capture.build_manifest. intros H.
  apply bind_ok_inv in H as (data & Hd & H). inversion H; subst m; clear H.
  eexists. exists data. split; [reflexivity|]. split.
  - apply dict_get_set.
  - rewrite canonical_ignores_stored. exact Hd.
Qed.
End SelfHash.

(** C1. Canonical-hash closure. For a manifest whose [manifest_sha256] is
    the digest of its canonical bytes, the self-hash check of the fixture
    validator adds nothing and the validator reports no
    [manifest_sha256 mismatch]; for one whose stored value is well-formed
    but differs from that digest, the check adds exactly that message and
    the validator reports it. A manifest that [Capture.build_manifest]
    returns is of the first kind. *)
Theorem canonical_hash_closure (L : pylib) (fs : filesystem) :
  (forall (d : dict) (stored : pystr) (data : bytes)
          (manifest_path schema_path : path),
      dict_get d (lit "manifest_sha256") = JStr stored ->
      canonical_manifest_bytes (JDict d) = Ok data ->
      (stored = sha256_bytes data ->
       (forall errs, Fixture.check_manifest_sha L (JDict d) errs = Ok errs) /\
       (forall errs,
           Fixture.validate_manifest L fs (JDict d) manifest_path schema_path
           = Ok errs -> ~ In mismatch errs)) /\
      (matches (re_match L SHA256_RE stored) = true ->
       stored <> sha256_bytes data ->
       (forall errs,
           Fixture.check_manifest_sha L (JDict d) errs
           = Ok (errs ++ [mismatch])) /\
       (forall errs,
           Fixture.validate_manifest L fs (JDict d) manifest_path schema_path
           = Ok errs -> In mismatch errs))) /\
  (forall fixture_id domain description capture_time origin command
          source_paths tool_versions redaction_profile artifacts m,
      Capture.build_manifest L fixture_id domain description capture_time
                             origin command source_paths tool_versions
                             redaction_profile artifacts = Ok m ->
      (forall errs, Fixture.check_manifest_sha L m errs = Ok errs) /\
      (forall manifest_path schema_path errs,
          Fixture.validate_manifest L fs m manifest_path schema_path = Ok errs ->
          ~ In mismatch errs)).
Proof.
  assert (Hequal : forall d data manifest_path schema_path,
             dict_get d (lit "manifest_sha256") = JStr (sha256_bytes data) ->
             canonical_manifest_bytes (JDict d) = Ok data ->
             (forall errs,
                 Fixture.check_manifest_sha L (JDict d) errs = Ok errs) /\
             (forall errs,
                 Fixture.validate_manifest L fs (JDict d) manifest_path
                                           schema_path = Ok errs ->
                 ~ In mismatch errs)).
  { intros d data manifest_path schema_path Hs Hc. split.
    - intros errs. eapply fixture_check_sha_equal; eauto.
    - intros errs H.
      apply fixture_validate_manifest_inv in H as (pre & Fpre & H).
      rewrite (fixture_check_sha_equal L _ _ Hs Hc) in H.
      inversion H; subst errs. intros Hin.
      rewrite Forall_forall in Fpre.
      apply (tagged_fixture_not_mismatch (Fpre _ Hin)). reflexivity. }
  split.
  - intros d stored data manifest_path schema_path Hs Hc. split.
    + intros ->. now apply (Hequal d data manifest_path schema_path).
    + intros Hw Hd. split.
      * intros errs. eapply fixture_check_sha_differs; eauto.
      * intros errs H.
        apply fixture_validate_manifest_inv in H as (pre & Fpre & H).
        rewrite (fixture_check_sha_differs L _ _ Hs Hc Hw Hd) in H.
        inversion H; subst errs. apply in_or_app. right. now left.
  - intros until m. intros H.
    apply build_manifest_closed in H as (d' & data' & -> & Hs' & Hc').
    split.
    + intros errs. eapply fixture_check_sha_equal; eauto.
    + intros manifest_path schema_path.
      now apply (Hequal d' data' manifest_path schema_path).
Qed.


(* ================================================================== *)
(** * Canonical bytes do not depend on insertion order                 *)
(* ================================================================== *)

(** ** The order on keys *)

Lemma str_ltb_irrefl (a : pystr) : str_ltb a a = false.
Proof.
  induction a as [|x a IH]; simpl; [reflexivity|].
  rewrite N.ltb_irrefl, N.eqb_refl, IH. reflexivity.
Qed.

Lemma str_ltb_trans (a b c : pystr) :
  str_ltb a b = true -> str_ltb b c = true -> str_ltb a c = true.
Proof.
  revert b c; induction a as [|x a IH]; intros [|y b] [|z c]; simpl;
    try discriminate; auto.
  intros H1 H2.
  apply orb_true_iff in H1. apply orb_true_iff in H2. apply orb_true_iff.
  destruct H1 as [H1|H1], H2 as [H2|H2].
  - left. apply N.ltb_lt in H1, H2. apply N.ltb_lt. lia.
  - apply andb_true_iff in H2 as [E _]. apply N.eqb_eq in E. subst. now left.
  - apply andb_true_iff in H1 as [E _]. apply N.eqb_eq in E. subst. now left.
  - apply andb_true_iff in H1 as [E1 H1]. apply andb_true_iff in H2 as [E2 H2].
    apply N.eqb_eq in E1, E2. subst. right. rewrite N.eqb_refl. simpl. eauto.
Qed.

Lemma str_ltb_connex (a b : pystr) :
  str_ltb a b = false -> str_ltb b a = false -> a = b.
Proof.
  revert b; induction a as [|x a IH]; intros [|y b]; simpl;
    try discriminate; auto.
  intros H1 H2.
  apply orb_false_iff in H1 as [L1 R1]. apply orb_false_iff in H2 as [L2 R2].
  apply N.ltb_ge in L1, L2. assert (x = y) by lia. subst y.
  rewrite N.eqb_refl in R1, R2. simpl in R1, R2. f_equal. auto.
Qed.

Lemma str_ltb_asym (a b : pystr) : str_ltb a b = true -> str_ltb b a = false.
Proof.
  intros H. destruct (str_ltb b a) eqn:E; [|reflexivity].
  pose proof (str_ltb_trans _ _ _ H E) as T. now rewrite str_ltb_irrefl in T.
Qed.

Lemma str_leb_total (a b : pystr) : str_leb a b = false -> str_leb b a = true.
Proof.
  unfold str_leb. intros H. apply negb_false_iff in H.
  apply negb_true_iff. now apply str_ltb_asym.
Qed.

Lemma str_leb_antisym (a b : pystr) :
  str_leb a b = true -> str_leb b a = true -> a = b.
Proof.
  unfold str_leb. intros H1 H2. apply negb_true_iff in H1, H2.
  now apply str_ltb_connex.
Qed.

Lemma str_leb_trans (a b c : pystr) :
  str_leb a b = true -> str_leb b c = true -> str_leb a c = true.
Proof.
  unfold str_leb. intros H1 H2. apply negb_true_iff in H1, H2.
  apply negb_true_iff. destruct (str_ltb c a) eqn:E; [|reflexivity].
  destruct (str_ltb b c) eqn:F.
  - pose proof (str_ltb_trans _ _ _ F E). congruence.
  - assert (b = c) by now apply str_ltb_connex. subst. congruence.
Qed.

(** ** Sorting the items of a dictionary *)

Ltac order_cases :=
  repeat match goal with
         | |- context [if str_leb ?a ?b then _ else _] =>
             let E := fresh "E" in
             destruct (str_leb a b) eqn:E; cbn [insert_item]
         end.

Ltac order_contra :=
  exfalso;
  match goal with
  | H : ?a <> ?b, E1 : str_leb ?a ?b = true, E2 : str_leb ?b ?a = true |- _ =>
      apply H; exact (str_leb_antisym _ _ E1 E2)
  | E1 : str_leb ?a ?b = false, E2 : str_leb ?b ?a = false |- _ =>
      apply str_leb_total in E1; congruence
  | E1 : str_leb ?a ?b = true, E2 : str_leb ?b ?c = true,
    E3 : str_leb ?a ?c = false |- _ =>
      pose proof (str_leb_trans _ _ _ E1 E2); congruence
  end.

Section SortItems.
Variable A : Type.
Implicit Types (x y : pystr * A) (l : list (pystr * A)).

Lemma insert_item_comm x y l :
  fst x <> fst y ->
  insert_item x (insert_item y l) = insert_item y (insert_item x l).
Proof.
  intros Hne. induction l as [|z l IH]; cbn [insert_item].
  - order_cases; try reflexivity; try congruence; order_contra.
  - order_cases; try reflexivity; try congruence; order_contra.
Qed.

Lemma insert_item_perm x l : Permutation (x :: l) (insert_item x l).
Proof.
  induction l as [|z l IH]; simpl; [reflexivity|].
  destruct (str_leb (fst x) (fst z)); [reflexivity|].
  rewrite perm_swap. now apply perm_skip.
Qed.

Lemma sort_items_perm l : Permutation l (sort_items l).
Proof.
  induction l as [|x l IH]; simpl; [reflexivity|].
  rewrite <- insert_item_perm. now apply perm_skip.
Qed.

Lemma insert_item_sorted x l :
  Sorted (@key_le A) l -> Sorted (@key_le A) (insert_item x l).
Proof.
  induction 1 as [|z l Hs IH Hr]; simpl.
  - repeat constructor.
  - destruct (str_leb (fst x) (fst z)) eqn:E.
    + repeat constructor; assumption.
    + constructor; [assumption|].
      destruct l as [|w l]; simpl.
      * constructor. now apply str_leb_total.
      * destruct (str_leb (fst x) (fst w)).
        -- constructor. now apply str_leb_total.
        -- constructor. now inversion Hr.
Qed.

Lemma sort_items_sorted l : Sorted (@key_le A) (sort_items l).
Proof.
  induction l as [|x l IH]; simpl; [constructor|].
  now apply insert_item_sorted.
Qed.

(** Items with distinct keys come out the same in whatever order they
    went in. *)
Lemma sort_items_order_independent l1 l2 :
  Permutation l1 l2 -> NoDup (List.map fst l1) ->
  sort_items l1 = sort_items l2.
Proof.
  induction 1 as [|x l1 l2 HP IH|x y l|l1 l2 l3 HP1 IH1 HP2 IH2];
    intros Hnd; simpl.
  - reflexivity.
  - inversion Hnd; subst. now rewrite IH.
  - apply insert_item_comm. inversion Hnd as [|? ? Hin _]; subst.
    intros E. apply Hin. left. now symmetry.
  - rewrite IH1 by assumption. apply IH2.
    eapply Permutation_NoDup; [|exact Hnd]. now apply Permutation_map.
Qed.
End SortItems.

Section JsonInduction.
Variable P : json -> Prop.
Hypothesis Hnull : P JNull.
Hypothesis Hbool : forall b, P (JBool b).
Hypothesis Hint : forall n, P (JInt n).
Hypothesis Hfloat : forall r, P (JFloat r).
Hypothesis Hstr : forall s, P (JStr s).
Hypothesis Hlist : forall l, Forall P l -> P (JList l).
Hypothesis Hdict : forall d, Forall (fun kv => P (snd kv)) d -> P (JDict d).

Fixpoint json_induction (j : json) : P j :=
  match j with
  | JNull => Hnull
  | JBool b => Hbool b
  | JInt n => Hint n
  | JFloat r => Hfloat r
  | JStr s => Hstr s
  | JList l =>
      Hlist ((fix all (l : list json) : Forall P l :=
                match l with
                | [] => Forall_nil P
                | x :: l' => Forall_cons x (json_induction x) (all l')
                end) l)
  | JDict d =>
      Hdict ((fix all (d : dict) : Forall (fun kv => P (snd kv)) d :=
                match d with
                | [] => Forall_nil _
                | kv :: d' =>
                    Forall_cons kv (json_induction (snd kv)) (all d')
                end) d)
  end.
End JsonInduction.

Lemma wf_json_list (l : list json) : wf_json (JList l) <-> Forall wf_json l.
Proof.
  simpl. induction l as [|x l IH].
  - split; auto.
  - split.
    + intros [Hx Hl]. constructor; [assumption|]. now apply IH.
    + intros H. inversion H; subst. split; [assumption|]. now apply IH.
Qed.

Lemma wf_json_dict (d : dict) :
  wf_json (JDict d) <->
  NoDup (keys d) /\ Forall (fun kv => wf_json (snd kv)) d.
Proof.
  simpl. apply and_iff_compat_l. induction d as [|[k v] d IH].
  - split; auto.
  - split.
    + intros [Hx Hl]. constructor; [assumption|]. now apply IH.
    + intros H. inversion H; subst. split; [assumption|]. now apply IH.
Qed.

Lemma dumps_list (l : list json) :
  dumps (JList l) = lit "[" ++ join (lit ",") (List.map dumps l) ++ lit "]".
Proof.
  reflexivity.
Qed.

Lemma dumps_dict (d : dict) :
  dumps (JDict d)
  = lit "{" ++ join (lit ",") (List.map dump_item (sort_items (encoded_items d)))
        ++ lit "}".
Proof.
  cbn [dumps]. f_equal. f_equal. f_equal. f_equal. f_equal.
  induction d as [|[k v] d IH]; [reflexivity|].
  cbn [encoded_items List.map fst snd]. f_equal. exact IH.
Qed.

(** ** Dictionaries as finite maps *)

Lemma dict_lookup_none (d : dict) (k : pystr) :
  dict_lookup d k = None <-> ~ In k (keys d).
Proof.
  induction d as [|[k' v] d IH]; simpl.
  - tauto.
  - destruct (str_eqb k' k) eqn:E.
    + apply str_eqb_eq in E. split; [discriminate|]. intros H. exfalso. auto.
    + apply str_eqb_neq in E. rewrite IH. tauto.
Qed.

Lemma dict_lookup_pop (d : dict) (k k' : pystr) :
  dict_lookup (dict_pop d k) k'
  = if str_eqb k k' then None else dict_lookup d k'.
Proof.
  induction d as [|[k0 v] d IH]; simpl.
  - now destruct (str_eqb k k').
  - destruct (str_eqb k0 k) eqn:E.
    + apply str_eqb_eq in E. subst k0. rewrite IH.
      now destruct (str_eqb k k').
    + simpl. rewrite IH. destruct (str_eqb k0 k') eqn:E'; [|reflexivity].
      apply str_eqb_eq in E'. subst k0. rewrite str_eqb_sym in E.
      now rewrite E.
Qed.

Lemma keys_pop_incl (d : dict) (k x : pystr) :
  In x (keys (dict_pop d k)) -> In x (keys d).
Proof.
  induction d as [|[k0 v] d IH]; simpl; [tauto|].
  destruct (str_eqb k0 k); simpl; tauto.
Qed.

Lemma keys_pop_nodup (d : dict) (k : pystr) :
  NoDup (keys d) -> NoDup (keys (dict_pop d k)).
Proof.
  induction d as [|[k0 v] d IH]; simpl; intros H; [constructor|].
  inversion H; subst. destruct (str_eqb k0 k); simpl; auto.
  constructor; auto. intros Hin. apply keys_pop_incl in Hin. contradiction.
Qed.

Lemma dict_pop_absent (d : dict) (k : pystr) :
  ~ In k (keys d) -> dict_pop d k = d.
Proof.
  induction d as [|[k0 v] d IH]; simpl; intros H; [reflexivity|].
  destruct (str_eqb k0 k) eqn:E.
  - apply str_eqb_eq in E. subst. exfalso. auto.
  - f_equal. apply IH. tauto.
Qed.

Lemma dict_pop_perm (d : dict) (k : pystr) (v : json) :
  NoDup (keys d) -> dict_lookup d k = Some v ->
  Permutation d ((k, v) :: dict_pop d k).
Proof.
  induction d as [|[k0 v0] d IH]; simpl; intros Hnd H; [discriminate|].
  inversion Hnd; subst. destruct (str_eqb k0 k) eqn:E.
  - apply str_eqb_eq in E. subst k0. inversion H; subst v0.
    rewrite dict_pop_absent by assumption. reflexivity.
  - rewrite perm_swap. apply perm_skip. now apply IH.
Qed.

(** Two dictionaries with the same mappings hold the same items, up to
    their order and to [R] on the values. *)
Lemma same_entries_perm (R : json -> json -> Prop) (d1 : dict) :
  forall d2,
    NoDup (keys d1) -> NoDup (keys d2) ->
    (forall k, same_entry R (dict_lookup d1 k) (dict_lookup d2 k)) ->
    exists d2',
      Permutation d2 d2' /\
      Forall2 (fun a b => fst a = fst b /\ R (snd a) (snd b)) d1 d2'.
Proof.
  induction d1 as [|[k v] d1 IH]; intros d2 N1 N2 H.
  - exists []. split; [|constructor].
    destruct d2 as [|[k v] d2]; [reflexivity|].
    specialize (H k). simpl in H. rewrite str_eqb_refl in H. inversion H.
  - inversion N1 as [|? ? Hk N1']; subst.
    pose proof (H k) as Hk2. simpl in Hk2. rewrite str_eqb_refl in Hk2.
    inversion Hk2 as [|? v2 Rv E1 E2]; subst. symmetry in E2.
    destruct (IH (dict_pop d2 k) N1' (@keys_pop_nodup d2 k N2)) as (d2' & Pd & Fd).
    + intros k'. rewrite dict_lookup_pop.
      destruct (str_eqb k k') eqn:E.
      * apply str_eqb_eq in E. subst k'.
        apply dict_lookup_none in Hk. rewrite Hk. constructor.
      * specialize (H k'). simpl in H. now rewrite E in H.
    + exists ((k, v2) :: d2'). split.
      * rewrite (@dict_pop_perm d2 k v2 N2 E2). now apply perm_skip.
      * constructor; [simpl; auto|assumption].
Qed.

Lemma dumps_same_mappings (m1 : json) :
  forall m2, wf_json m1 -> wf_json m2 -> same_mappings m1 m2 ->
             dumps m1 = dumps m2.
Proof.
  induction m1 as [| | | | |l1 IH|d1 IH] using json_induction;
    intros m2 W1 W2 S; inversion S; subst; try reflexivity.
  - (* lists *)
    rewrite !dumps_list. do 3 f_equal.
    apply wf_json_list in W1, W2.
    match goal with H : Forall2 _ _ _ |- _ => rename H into F end.
    clear S. induction F as [|x y l1 l2 Hxy F IHF]; [reflexivity|].
    inversion IH; inversion W1; inversion W2; subst.
    cbn [List.map]. f_equal; auto.
  - (* dictionaries *)
    rewrite !dumps_dict. do 4 f_equal.
    apply wf_json_dict in W1 as [N1 F1]. apply wf_json_dict in W2 as [N2 F2].
    match goal with H : forall k, same_entry _ _ _ |- _ => rename H into E end.
    destruct (@same_entries_perm same_mappings d1 d2 N1 N2 E) as (d2' & Pd & Fd).
    assert (F2' : Forall (fun kv => wf_json (snd kv)) d2').
    { rewrite Forall_forall in *. intros kv Hin. apply F2.
      eapply Permutation_in; [symmetry; exact Pd|exact Hin]. }
    assert (Eq : encoded_items d1 = encoded_items d2').
    { clear - IH F1 F2' Fd. induction Fd as [|a b l1 l2 [Hk Hv] Fd IHF];
        [reflexivity|].
      inversion IH; inversion F1; inversion F2'; subst.
      cbn [encoded_items List.map]. f_equal.
      - rewrite Hk. f_equal. auto.
      - apply IHF; assumption. }
    rewrite Eq. symmetry. apply sort_items_order_independent.
    + unfold encoded_items. now apply Permutation_map.
    + unfold encoded_items. rewrite map_map. exact N2.
Qed.

Lemma dict_lookup_in (d : dict) (k : pystr) (v : json) :
  dict_lookup d k = Some v -> In (k, v) d.
Proof.
  induction d as [|[k0 v0] d IH]; simpl; [discriminate|].
  destruct (str_eqb k0 k) eqn:E.
  - apply str_eqb_eq in E. intros H. inversion H; subst. now left.
  - auto.
Qed.

Lemma dict_lookup_some (d : dict) (k : pystr) :
  In k (keys d) -> exists v, dict_lookup d k = Some v.
Proof.
  intros H. destruct (dict_lookup d k) eqn:E; [eauto|].
  apply dict_lookup_none in E. contradiction.
Qed.

Lemma dict_lookup_nodup (d : dict) (k : pystr) (v : json) :
  NoDup (keys d) -> In (k, v) d -> dict_lookup d k = Some v.
Proof.
  induction d as [|[k0 v0] d IH]; simpl; intros N H; [contradiction|].
  inversion N; subst. destruct H as [H|H].
  - inversion H; subst. now rewrite str_eqb_refl.
  - destruct (str_eqb k0 k) eqn:E; [|auto].
    apply str_eqb_eq in E. subst k0. exfalso.
    match goal with H : ~ In _ _ |- _ => apply H end.
    exact (in_map fst d (k, v) H).
Qed.

Lemma same_mappings_b_sound (a : json) :
  forall b, wf_json a -> wf_json b -> same_mappings_b a b = true ->
            same_mappings a b.
Proof.
  induction a as [| | | | |l1 IH|d1 IH] using json_induction;
    intros [| | | | |l2|d2] Wa Wb H; simpl in H; try discriminate.
  - constructor.
  - apply Bool.eqb_prop in H. subst. constructor.
  - apply Z.eqb_eq in H. subst. constructor.
  - apply str_eqb_eq in H. subst. constructor.
  - apply str_eqb_eq in H. subst. constructor.
  - constructor. apply wf_json_list in Wa, Wb.
    revert l2 Wb H. induction l1 as [|x l1 IHl]; intros [|y l2] Wb H;
      try discriminate; [constructor|].
    apply andb_true_iff in H as [Hx Hl].
    inversion IH; inversion Wa; inversion Wb; subst.
    constructor; auto.
  - apply andb_true_iff in H as [Hlen Hall]. apply Nat.eqb_eq in Hlen.
    apply wf_json_dict in Wa as [N1 F1]. apply wf_json_dict in Wb as [N2 F2].
    assert (Hfwd : forall k v, In (k, v) d1 ->
                     exists v2, dict_lookup d2 k = Some v2 /\ same_mappings v v2).
    { clear Hlen N1. induction d1 as [|[k0 v0] d1 IHd]; intros k v Hin;
        [contradiction|].
      apply andb_true_iff in Hall as [H0 Hall].
      inversion IH as [|? ? P0 IH']; inversion F1 as [|? ? W0 F1']; subst.
      destruct Hin as [Hin|Hin].
      - inversion Hin; subst.
        destruct (dict_lookup d2 k) as [v2|] eqn:E; [|discriminate].
        exists v2. split; [reflexivity|]. apply P0; auto.
        apply dict_lookup_in in E. rewrite Forall_forall in F2.
        exact (F2 _ E).
      - exact (IHd IH' F1' Hall k v Hin). }
    assert (Hincl : incl (keys d1) (keys d2)).
    { intros k Hk. apply in_map_iff in Hk as ([k' v] & <- & Hin).
      destruct (Hfwd _ _ Hin) as (v2 & E & _).
      apply dict_lookup_in in E. exact (in_map fst d2 (k', v2) E). }
    assert (Hback : incl (keys d2) (keys d1)).
    { apply NoDup_length_incl; auto. unfold keys. rewrite !length_map. lia. }
    constructor. intros k.
    destruct (dict_lookup d1 k) as [v|] eqn:E1.
    + apply dict_lookup_in in E1. destruct (Hfwd _ _ E1) as (v2 & E2 & S).
      rewrite E2. now constructor.
    + apply dict_lookup_none in E1.
      destruct (dict_lookup d2 k) as [v2|] eqn:E2; [|constructor].
      exfalso. apply E1. apply Hback. apply dict_lookup_in in E2.
      exact (in_map fst d2 (k, v2) E2).
Qed.

Lemma dict_pop_forall (P : pystr * json -> Prop) (d : dict) (k : pystr) :
  Forall P d -> Forall P (dict_pop d k).
Proof.
  induction 1 as [|[k0 v] d Hx Hd IH]; simpl; [constructor|].
  destruct (str_eqb k0 k); auto.
Qed.

Lemma canonical_same_mappings (m1 m2 : json) :
  wf_json m1 -> wf_json m2 -> same_mappings m1 m2 ->
  canonical_manifest_bytes m1 = canonical_manifest_bytes m2.
Proof.
  intros W1 W2 S. inversion S; subst; try reflexivity.
  unfold canonical_manifest_bytes. f_equal.
  apply wf_json_dict in W1 as [N1 F1]. apply wf_json_dict in W2 as [N2 F2].
  apply dumps_same_mappings.
  - apply wf_json_dict. split; [now apply keys_pop_nodup|now apply dict_pop_forall].
  - apply wf_json_dict. split; [now apply keys_pop_nodup|now apply dict_pop_forall].
  - constructor. intros k. rewrite !dict_lookup_pop.
    destruct (str_eqb (lit "manifest_sha256") k); [constructor|auto].
Qed.

(** C2. Key-order independence of canonicalization. *)
Theorem key_order_independence (m1 m2 : json) :
  wf_json m1 -> wf_json m2 -> same_mappings m1 m2 ->
  canonical_manifest_bytes m1 = canonical_manifest_bytes m2 /\
  (forall d v,
      canonical_manifest_bytes (JDict (dict_set d (lit "manifest_sha256") v))
      = canonical_manifest_bytes (JDict d)) /\
  (forall d,
      canonical_manifest_bytes (JDict d)
      = utf8_encode (dumps (JDict (dict_pop d (lit "manifest_sha256"))))) /\
  (forall d, exists items,
        Permutation items (encoded_items d) /\ Sorted key_le items /\
        dumps (JDict d)
        = lit "{" ++ join (lit ",") (List.map dump_item items) ++ lit "}") /\
  (forall l,
      dumps (JList l) = lit "[" ++ join (lit ",") (List.map dumps l) ++ lit "]") /\
  (forall c, 32 <= c -> c <> 34 -> c <> 92 -> escape_char c = [c]).
Proof.
  intros W1 W2 S. split; [|split; [|split; [|split; [|split]]]].
  - now apply canonical_same_mappings.
  - intros d v. apply canonical_ignores_stored.
  - reflexivity.
  - intros d. exists (sort_items (encoded_items d)). split; [|split].
    + symmetry. apply sort_items_perm.
    + apply sort_items_sorted.
    + apply dumps_dict.
  - apply dumps_list.
  - intros c H32 H34 H92. unfold escape_char.
    repeat match goal with
           | |- context [?a =? ?b] =>
               destruct (N.eqb_spec a b); [lia|]
           end.
    destruct (N.ltb_spec c 32); [lia|reflexivity].
Qed.

(* ================================================================== *)
(** * The redaction scanner                                            *)
(* ================================================================== *)

(** A match at some position is found by the search. *)
Lemma search_from_app (L : pylib) (r : regex) (pre s before : list N) :
  matches (match_here L r (rev pre ++ before) s) = true ->
  matches (search_from L r before (pre ++ s)) = true.
Proof.
  revert before. induction pre as [|c pre IH]; intros before H.
  - simpl in *. destruct s; simpl; destruct (match_here L r before _);
      try reflexivity; discriminate.
  - simpl. destruct (match_here L r before (c :: pre ++ s)); [reflexivity|].
    apply IH. simpl in H. now rewrite <- app_assoc in H.
Qed.

Lemma home_path_found (L : pylib) (pre suf : pystr) :
  matches (re_search L HOME_RE (pre ++ lit "/Users/alice/project" ++ suf)) = true.
Proof.
  unfold re_search. apply search_from_app. reflexivity.
Qed.

(** C3. Redaction detection on provenance strings. A string containing
    [/Users/alice/project] is flagged for its home path and a UUID for
    being one; [<UUID>], which the redactor puts in its place, is not
    flagged. The redactor turns [/Users/alice/project] into
    [/home/USER/project], and the scanner flags that string as an
    unredacted home path too. *)
Theorem redacted_home_path_is_flagged (L : pylib) (label : pystr) :
  (forall pre suf,
      matches (re_search L HOME_RE (pre ++ lit "/Users/alice/project" ++ suf))
      = true) /\
  Fixture.check_redaction L a_uuid label []
  = Ok [label ++ lit " contains unredacted UUID"] /\
  Capture.redact_cmdline L (lit "/Users/alice/project") = lit "/home/USER/project" /\
  Fixture.check_redaction L (lit "/home/USER/project") label []
  = Ok [label ++ lit " contains unredacted home path"] /\
  Capture.redact_cmdline L a_uuid = lit "<UUID>" /\
  Fixture.check_redaction L (lit "<UUID>") label [] = Ok [].
Proof.
  split; [apply home_path_found|].
  repeat split; vm_compute; reflexivity.
Qed.

(* ================================================================== *)
(** * A malformed stored digest                                        *)
(* ================================================================== *)

Section Malformed.
Variable L : pylib.

(** A stored value that is not well-formed is not a digest. *)
Lemma malformed_is_not_digest (stored : pystr) (data : bytes) :
  matches (re_match L SHA256_RE stored) = false -> stored <> sha256_bytes data.
Proof.
  intros H ->. unfold sha256_bytes in H.
  rewrite hexdigest_well_formed in H. discriminate.
Qed.

Lemma fixture_check_sha_malformed d stored errs :
  dict_get d (lit "manifest_sha256") = JStr stored ->
  matches (re_match L SHA256_RE stored) = false ->
  Fixture.check_manifest_sha L (JDict d) errs
  = Ok (errs ++ [lit "manifest_sha256 must be sha256 hex"]).
Proof.
  intros Hs Hw. unfold Fixture.check_manifest_sha. now rewrite Hs, Hw.
Qed.

Lemma e2e_check_sha_malformed d stored data errs :
  dict_get d (lit "manifest_sha256") = JStr stored ->
  matches (re_match L SHA256_RE stored) = false ->
  canonical_manifest_bytes (JDict d) = Ok data ->
  E2E.check_manifest_sha L (JDict d) errs
  = Ok (errs ++ [not_hex;
                 lit "manifest_sha256 mismatch: expected " ++ stored
                     ++ lit ", got " ++ sha256_bytes data]).
Proof.
  intros Hs Hw Hc. unfold E2E.check_manifest_sha. rewrite Hs, Hw, Hc.
  pose proof (@malformed_is_not_digest stored data Hw) as Hd.
  apply str_eqb_neq in Hd. unfold append_if, append. cbn [negb bind].
  rewrite Hd. cbn [negb]. now rewrite <- app_assoc.
Qed.
End Malformed.

(** C4. Self-hash comparison gated on well-formedness. The fixture
    validator reports a malformed [manifest_sha256] and does not compare
    it. The end-to-end validator does not gate the comparison: for the
    stored value [xyz] it reports that the value is not sha256 hex and,
    in addition, a hash mismatch. *)
Theorem e2e_malformed_sha_also_mismatches (L : pylib) (errs : errors) :
  E2E.check_manifest_sha L malformed_sha_manifest errs
  = Ok (errs ++ [not_hex; e2e_mismatch_xyz]) /\
  Fixture.check_manifest_sha L malformed_sha_manifest errs
  = Ok (errs ++ [lit "manifest_sha256 must be sha256 hex"]) /\
  exists pre post,
    E2E.validate_manifest Env.lib Env.fs malformed_sha_manifest
                          (lit "/fx/manifest.json") (lit "/schema.json")
    = Ok (pre ++ [not_hex; e2e_mismatch_xyz] ++ post).
Proof.
  split; [|split].
  - unfold E2E.check_manifest_sha, malformed_sha_manifest.
    change (dict_get _ _) with (JStr (lit "xyz")). cbv beta iota.
    change (matches (re_match L SHA256_RE (lit "xyz"))) with false.
    change (canonical_manifest_bytes _) with (Ok (lit "{}")).
    unfold append_if, append, bind, negb.
    change (str_eqb (lit "xyz") (sha256_bytes (lit "{}"))) with false.
    cbv beta iota. rewrite <- app_assoc. reflexivity.
  - unfold Fixture.check_manifest_sha, malformed_sha_manifest.
    change (dict_get _ _) with (JStr (lit "xyz")). cbv beta iota.
    change (matches (re_match L SHA256_RE (lit "xyz"))) with false.
    reflexivity.
  - eexists. eexists. vm_compute. 
    match goal with |- Ok ?l = _ => 
      instantiate (1 := skipn 18 l); instantiate (1 := firstn 16 l) end.
    reflexivity.
Qed.

(* ================================================================== *)
(** * A manifest that is not an object                                 *)
(* ================================================================== *)

Section NonObject.
Variable L : pylib.
Variable fs : filesystem.

Lemma require_fields_returns manifest fields errs :
  (forall field, exists b, contains manifest field = Ok b) ->
  exists errs', require_fields manifest fields errs = Ok errs'.
Proof.
  intros Hc. unfold require_fields. revert errs.
  induction fields as [|f fields IH]; intros errs; simpl; [eauto|].
  destruct (Hc f) as [b ->]. simpl.
  destruct b; simpl; apply IH.
Qed.

Lemma for_each_require_field_returns manifest fields errs :
  (forall field, exists b, contains manifest field = Ok b) ->
  exists errs', for_each (E2E.require_field manifest) fields errs = Ok errs'.
Proof.
  intros Hc. revert errs.
  induction fields as [|f fields IH]; intros errs; simpl; [eauto|].
  unfold E2E.require_field at 1. destruct (Hc f) as [b ->]. simpl.
  destruct b; simpl; apply IH.
Qed.

Lemma require_fields_raises manifest fields errs e :
  fields <> [] -> (forall field, contains manifest field = Raise e) ->
  require_fields manifest fields errs = Raise e.
Proof.
  intros Hne Hc. destruct fields as [|f fields]; [contradiction|].
  unfold require_fields. simpl. now rewrite Hc.
Qed.

Lemma for_each_require_field_raises manifest fields errs e :
  fields <> [] -> (forall field, contains manifest field = Raise e) ->
  for_each (E2E.require_field manifest) fields errs = Raise e.
Proof.
  intros Hne Hc. destruct fields as [|f fields]; [contradiction|].
  simpl. unfold E2E.require_field. now rewrite Hc.
Qed.

(** C9. A manifest file may hold valid JSON that is not an object.
    On such a value each of the three [validate_manifest] functions
    raises instead of returning an error list; on an array the
    exception is the [AttributeError] of [manifest.get] (on a number
    the membership test [field not in manifest] raises [TypeError]
    before). *)
Theorem validate_manifest_raises_on_non_object
        (manifest : json) (manifest_path schema_path : path) :
  is_dict manifest = false ->
  (exists e, Fixture.validate_manifest L fs manifest manifest_path schema_path
             = Raise e) /\
  (exists e, E2E.validate_manifest L fs manifest manifest_path schema_path
             = Raise e) /\
  (exists e, Capabilities.validate_manifest L manifest schema_path = Raise e) /\
  (is_list manifest = true ->
   (forall msg, jsonschema L schema_path manifest <> SchemaSystemExit msg) ->
   Fixture.validate_manifest L fs manifest manifest_path schema_path
   = Raise AttributeError /\
   E2E.validate_manifest L fs manifest manifest_path schema_path
   = Raise AttributeError /\
   Capabilities.validate_manifest L manifest schema_path
   = Raise AttributeError).
Proof.
  intros Hd.
  assert (Hs : forall errs,
             (exists errs', validate_schema_with_jsonschema
                              L manifest schema_path errs = Ok errs') \/
             (exists msg, jsonschema L schema_path manifest = SchemaSystemExit msg /\
                          validate_schema_with_jsonschema
                            L manifest schema_path errs = Raise (SystemExit msg))).
  { intros errs. unfold validate_schema_with_jsonschema.
    destruct (jsonschema L schema_path manifest); unfold append;
      first [ left; eexists; reflexivity
            | right; eexists; split; reflexivity ]. }
  assert (Hc : (forall field, exists b, contains manifest field = Ok b) \/
               (forall field, contains manifest field = Raise TypeError)).
  { destruct manifest; simpl; try discriminate;
      first [ right; reflexivity | left; intros field; eexists; reflexivity ]. }
  unfold Fixture.validate_manifest, E2E.validate_manifest,
    Capabilities.validate_manifest.
  destruct (Hs []) as [[e1 ->]|(msg & Hm & ->)]; cbn [bind].
  - destruct Hc as [Hc|Hc].
    + destruct (@require_fields_returns
                  manifest Fixture.required_fields e1 Hc) as [e2 ->].
      destruct (@require_fields_returns manifest Capabilities.required_fields e1 Hc)
        as [e3 ->].
      destruct (@for_each_require_field_returns manifest E2E.required_fields e1 Hc)
        as [e4 ->].
      cbn [bind].
      destruct manifest; try discriminate;
        (split; [eauto|split; [eauto|split; [eauto|]]]); intros Hl Hn;
        try discriminate; auto.
    + rewrite (@require_fields_raises
                 manifest Fixture.required_fields e1 TypeError
                 ltac:(discriminate) Hc).
      rewrite (@require_fields_raises
                 manifest Capabilities.required_fields e1 TypeError
                 ltac:(discriminate) Hc).
      rewrite (@for_each_require_field_raises
                 manifest E2E.required_fields e1 TypeError
                 ltac:(discriminate) Hc).
      cbn [bind]. split; [eauto|split; [eauto|split; [eauto|]]].
      intros Hl. destruct manifest; try discriminate.
      specialize (Hc []). discriminate.
  - split; [eauto|split; [eauto|split; [eauto|]]].
    intros _ Hn. exfalso. eapply Hn; eauto.
Qed.
End NonObject.

(* ================================================================== *)
(** * File entries, redaction profiles and the source block            *)
(* ================================================================== *)

Section FileEntries.
Variable L : pylib.
Variable fs : filesystem.

(** C5. Independent size and digest errors per file entry. For an entry
    whose file exists, with a recorded size that is not the actual one
    and a recorded, well-formed digest that is not the actual one,
    [E2E.validate_file_entry] adds exactly the bytes-mismatch and the
    sha256-mismatch message, and [Fixture.validate_artifact_entry] adds the same
    two (before its check of [redaction_profile]). For an entry whose
    file does not exist, both add exactly the missing-file message. *)
Theorem independent_size_and_digest_errors
        (entry : dict) (base_dir : path) (label path_value : pystr)
        (errs : errors) :
  dict_get entry (lit "path") = JStr path_value -> path_value <> [] ->
  (forall f content expected_bytes expected_hash,
      fs (resolve L base_dir path_value) = Some f ->
      read_bytes f = Ok content ->
      dict_get entry (lit "bytes") = expected_bytes ->
      is_int expected_bytes = true ->
      int_value expected_bytes <> st_size f ->
      dict_get entry (lit "sha256") = JStr expected_hash ->
      matches (re_match L SHA256_RE expected_hash) = true ->
      expected_hash <> Sha256.hexdigest content ->
      let size_msg kind :=
        bytes_mismatch L kind path_value expected_bytes (st_size f) in
      let hash_msg kind :=
        sha256_mismatch kind path_value expected_hash
                        (Sha256.hexdigest content) in
      E2E.validate_file_entry L fs entry base_dir label errs
      = Ok (errs ++ [size_msg label; hash_msg label]) /\
      Fixture.validate_artifact_entry L fs entry base_dir errs
      = (known <- in_set (dict_get entry (lit "redaction_profile"))
                         Fixture.REDACTION_PROFILES ;;
         append_if (negb known)
                   (lit "artifact redaction_profile invalid for " ++ path_value)
                   (errs ++ [size_msg (lit "artifact");
                             hash_msg (lit "artifact")]))) /\
  (fs (resolve L base_dir path_value) = None ->
   E2E.validate_file_entry L fs entry base_dir label errs
   = Ok (errs ++ [label ++ lit " file missing: "
                        ++ resolve L base_dir path_value]) /\
   Fixture.validate_artifact_entry L fs entry base_dir errs
   = Ok (errs ++ [lit "artifact file missing: "
                      ++ resolve L base_dir path_value])).
Proof.
  intros Hp Hne. destruct path_value as [|c pv]; [contradiction|]. split.
  - intros f content expected_bytes expected_hash Hf Hr Hb Hi Hbn Hh Hw Hhn.
    unfold E2E.validate_file_entry, Fixture.validate_artifact_entry, sha256_file.
    rewrite Hp, Hf, Hr, Hb, Hh, Hi, Hw. cbn [bind negb].
    apply Z.eqb_neq in Hbn. rewrite Hbn.
    apply str_eqb_neq in Hhn. rewrite Hhn.
    unfold append_if, append. cbn [negb bind]. rewrite <- !app_assoc.
    split; reflexivity.
  - intros Hf. unfold E2E.validate_file_entry, Fixture.validate_artifact_entry.
    rewrite Hp, Hf. split; reflexivity.
Qed.

Lemma dict_get_pop_other (d : dict) (k k' : pystr) :
  str_eqb k k' = false -> dict_get (dict_pop d k) k' = dict_get d k'.
Proof.
  intros H. unfold dict_get. now rewrite dict_lookup_pop, H.
Qed.

Ltac sync_pop :=
  repeat match goal with
         | |- context [dict_get (dict_pop ?d ?k) ?k'] =>
             rewrite (@dict_get_pop_other d k k' eq_refl)
         end.

Lemma validate_file_entry_ignores_profile entry base_dir label errs :
  E2E.validate_file_entry L fs (dict_pop entry (lit "redaction_profile"))
                      base_dir label errs
  = E2E.validate_file_entry L fs entry base_dir label errs.
Proof.
  unfold E2E.validate_file_entry.
  sync_pop. reflexivity.
Qed.

Lemma required_kind_is_known (kind : json) :
  in_set kind E2E.REDACTION_REQUIRED_KINDS = Ok true ->
  in_set kind E2E.ARTIFACT_KINDS = Ok true.
Proof.
  unfold in_set. destruct (hashable kind); [|discriminate].
  intros H. injection H as E. f_equal. simpl in *.
  repeat match goal with
         | |- context [eq_str kind ?s] => destruct (eq_str kind s)
         end; simpl in *; try reflexivity; discriminate.
Qed.

(** C6. Where [redaction_profile] may be omitted. An end-to-end artifact
    whose kind is outside [E2E.REDACTION_REQUIRED_KINDS] is validated the
    same with and without the field, and so is every log entry; an
    end-to-end artifact whose kind is inside is reported when the field
    is absent or empty. A fixture artifact whose file exists is
    reported when the field is absent: there the field is required and
    must be one of the four profiles. *)
Theorem redaction_profile_requirement
        (entry : dict) (base_dir : path) (run_id : pystr) (errs : errors) :
  let kind := dict_get entry (lit "kind") in
  let profile := dict_get entry (lit "redaction_profile") in
  let without := dict_pop entry (lit "redaction_profile") in
  (in_set kind E2E.REDACTION_REQUIRED_KINDS = Ok false ->
   E2E.artifact_entry L fs base_dir (JDict entry) errs
   = E2E.artifact_entry L fs base_dir (JDict without) errs) /\
  (in_set kind E2E.REDACTION_REQUIRED_KINDS = Ok true ->
   E2E.artifact_entry L fs base_dir (JDict entry) errs
   = (errs <- E2E.validate_file_entry L fs entry base_dir (lit "artifact") errs ;;
      append_if (negb (truthy profile))
                (lit "artifact " ++ py_str L (dict_get entry (lit "path"))
                     ++ lit " missing redaction_profile")
                errs)) /\
  E2E.log_entry L fs base_dir run_id (JDict without) errs
  = E2E.log_entry L fs base_dir run_id (JDict entry) errs /\
  (forall path_value f content,
      dict_get entry (lit "path") = JStr path_value -> path_value <> [] ->
      fs (resolve L base_dir path_value) = Some f ->
      read_bytes f = Ok content ->
      profile = JNull ->
      exists reported,
        Fixture.validate_artifact_entry L fs entry base_dir errs
        = Ok (reported
                ++ [lit "artifact redaction_profile invalid for "
                        ++ path_value])).
Proof.
  intros kind profile without. split; [|split; [|split]].
  - intros Hk. unfold E2E.artifact_entry. subst without.
    sync_pop. fold kind.
    destruct (in_set kind E2E.ARTIFACT_KINDS) as [known|]; [|reflexivity].
    cbn [bind]. sync_pop. fold kind.
    destruct (append_if (negb known) _ errs) as [e1|]; [|reflexivity].
    cbn [bind]. rewrite validate_file_entry_ignores_profile.
    destruct (E2E.validate_file_entry L fs entry base_dir (lit "artifact") e1);
      [|reflexivity].
    cbn [bind]. sync_pop. fold kind.
    rewrite Hk. reflexivity.
  - intros Hk. unfold E2E.artifact_entry. fold kind profile.
    rewrite (required_kind_is_known _ Hk), Hk. cbn [bind negb append_if].
    destruct (E2E.validate_file_entry L fs entry base_dir (lit "artifact") errs);
      reflexivity.
  - unfold E2E.log_entry. subst without.
    sync_pop. fold kind.
    destruct (in_set kind E2E.LOG_KINDS) as [known|]; [|reflexivity].
    cbn [bind]. sync_pop. fold kind.
    destruct (append_if (negb known) _ errs) as [e1|]; [|reflexivity].
    cbn [bind]. rewrite validate_file_entry_ignores_profile.
    destruct (E2E.validate_file_entry L fs entry base_dir (lit "log") e1);
      [|reflexivity].
    cbn [bind]. sync_pop. fold kind.
    unfold E2E.validate_jsonl_run_id.
    sync_pop. reflexivity.
  - intros path_value f content Hp Hne Hf Hr Hn.
    destruct path_value as [|c pv]; [contradiction|].
    unfold Fixture.validate_artifact_entry, sha256_file.
    rewrite Hp, Hf, Hr. fold profile. rewrite Hn. cbn [bind].
    unfold append_if, append.
    destruct (dict_get entry (lit "sha256"));
      repeat match goal with
             | |- context [if ?c then _ else _] => destruct c
             end;
      cbn [bind]; eexists; reflexivity.
Qed.

Lemma dict_get_set_other (d : dict) (k k' : pystr) (v : json) :
  str_eqb k k' = false -> dict_get (dict_set d k v) k' = dict_get d k'.
Proof.
  intros H. unfold dict_get. induction d as [|[k0 v0] d IH]; simpl.
  - now rewrite H.
  - destruct (str_eqb k0 k) eqn:E; simpl.
    + apply str_eqb_eq in E. subst k0. now rewrite H.
    + destruct (str_eqb k0 k'); [reflexivity|exact IH].
Qed.

Lemma for_each_ext {A} (f g : A -> errors -> result errors) xs :
  (forall x e, In x xs -> f x e = g x e) ->
  forall errs, for_each f xs errs = for_each g xs errs.
Proof.
  induction xs as [|x xs IH]; intros H errs; simpl; [reflexivity|].
  rewrite H by now left. destruct (g x errs); simpl; [|reflexivity].
  apply IH. intros y e Hy. apply H. now right.
Qed.

Lemma bind_ext {A B} (m : result A) (k k' : A -> result B) :
  (forall a, k a = k' a) -> bind m k = bind m k'.
Proof. intros H. destruct m; simpl; auto. Qed.

Lemma append_if_appends (c : bool) (msg : pystr) (errs : errors) :
  exists added, append_if c msg errs = Ok (errs ++ added).
Proof.
  destruct c; simpl; [eexists; reflexivity|].
  exists []. now rewrite app_nil_r.
Qed.

Lemma reports_app_l item label a b :
  reports L item label a -> reports L item label (a ++ b).
Proof.
  intros (H1 & H2 & H3). repeat split; intros H; apply in_or_app; left; auto.
Qed.

Lemma reports_app_r item label a b :
  reports L item label b -> reports L item label (a ++ b).
Proof.
  intros (H1 & H2 & H3). repeat split; intros H; apply in_or_app; right; auto.
Qed.

Lemma check_redaction_reports item label errs :
  exists added,
    Fixture.check_redaction L item label errs = Ok (errs ++ added) /\
    reports L item label added.
Proof.
  unfold Fixture.check_redaction, reports, append_if, append.
  exists ((if matches (re_search L HOME_RE item)
           then [label ++ lit " contains unredacted home path"] else [])
            ++ (if matches (re_search L UUID_RE item)
                then [label ++ lit " contains unredacted UUID"] else [])
            ++ (if matches (re_search L HEX_RE item)
                then [label ++ lit " contains unredacted hex id"] else [])).
  destruct (matches (re_search L HOME_RE item)),
           (matches (re_search L UUID_RE item)),
           (matches (re_search L HEX_RE item));
    cbn [bind]; rewrite <- ?app_assoc, ?app_nil_r;
    (split; [reflexivity|]);
    repeat split; intros H; try discriminate H; simpl; auto.
Qed.

Lemma source_item_appends key idx item errs :
  exists added, Fixture.source_item L key idx item errs = Ok (errs ++ added).
Proof.
  unfold Fixture.source_item.
  destruct item; try (eexists; reflexivity).
  destruct (check_redaction_reports
              s (lit "source." ++ key ++ lit "[" ++ str_of_nat idx ++ lit "]")
              errs) as (a & -> & _).
  eauto.
Qed.

Lemma for_enumerate_appends {A} (body : nat -> A -> errors -> result errors) xs :
  (forall i x e, exists a, body i x e = Ok (e ++ a)) ->
  forall start errs,
  exists added, for_enumerate body start xs errs = Ok (errs ++ added).
Proof.
  intros Hb. induction xs as [|x xs IH]; intros start errs; simpl.
  - exists []. now rewrite app_nil_r.
  - destruct (Hb start x errs) as [a ->]. simpl.
    destruct (IH (S start) (errs ++ a)) as [a' ->].
    exists (a ++ a'). now rewrite app_assoc.
Qed.

Lemma for_enumerate_reports {A} (body : nat -> A -> errors -> result errors)
      (P : list pystr -> Prop) xs :
  (forall a b, P a -> P (a ++ b)) -> (forall a b, P b -> P (a ++ b)) ->
  (forall i x e, exists a, body i x e = Ok (e ++ a)) ->
  forall idx x start errs,
    nth_error xs idx = Some x ->
    (forall e, exists a, body (start + idx)%nat x e = Ok (e ++ a) /\ P a) ->
    exists added,
      for_enumerate body start xs errs = Ok (errs ++ added) /\ P added.
Proof.
  intros Pl Pr Hb. induction xs as [|y xs IH]; intros idx x start errs Hn Hx.
  - destruct idx; discriminate.
  - destruct idx as [|idx]; simpl in Hn.
    + inversion Hn; subst y. simpl.
      destruct (Hx errs) as (a & Ha & Pa). rewrite Nat.add_0_r in Ha.
      rewrite Ha. simpl.
      destruct (for_enumerate_appends body xs Hb (S start) (errs ++ a))
        as [a' ->].
      exists (a ++ a'). split; [now rewrite app_assoc|auto].
    + simpl. destruct (Hb start y errs) as [a ->]. simpl.
      destruct (IH idx x (S start) (errs ++ a) Hn) as (a' & -> & Pa').
      { intros e. rewrite Nat.add_succ_comm. apply Hx. }
      exists (a ++ a'). split; [now rewrite app_assoc|auto].
Qed.

Lemma source_key_appends source key errs :
  exists added, Fixture.source_key L source key errs = Ok (errs ++ added).
Proof.
  unfold Fixture.source_key. destruct (dict_get source key);
    try (eexists; reflexivity).
  - exists []. now rewrite app_nil_r.
  - apply for_enumerate_appends. intros i x e. apply source_item_appends.
Qed.

(** C7. Scanner coverage of the source block. Each string entry of
    [command] and of [paths] is scanned: [Fixture.validate_source] returns, and
    for every pattern that matches the entry its list holds the
    violation labelled [source.<key>[<idx>]]. [origin] is not scanned:
    any two non-empty strings there give the same result. *)
Theorem scanner_covers_command_and_paths
        (source : dict) (key : pystr) (value : list json) (idx : nat)
        (item : pystr) (errs : errors) :
  key = lit "command" \/ key = lit "paths" ->
  dict_get source key = JList value ->
  nth_error value idx = Some (JStr item) ->
  (exists added,
      Fixture.validate_source L source errs = Ok (errs ++ added) /\
      reports L item
              (lit "source." ++ key ++ lit "[" ++ str_of_nat idx ++ lit "]")
              added) /\
  (forall o1 o2,
      o1 <> [] -> o2 <> [] ->
      Fixture.validate_source L (dict_set source (lit "origin") (JStr o1)) errs
      = Fixture.validate_source L (dict_set source (lit "origin") (JStr o2)) errs).
Proof.
  intros Hkey Hv Hn. split.
  - assert (Hk : forall e, exists a,
               Fixture.source_key L source key e = Ok (e ++ a) /\
               reports L item
                 (lit "source." ++ key ++ lit "[" ++ str_of_nat idx ++ lit "]") a).
    { intros e. unfold Fixture.source_key. rewrite Hv.
      apply for_enumerate_reports with (idx := idx) (x := JStr item).
      - apply reports_app_l.
      - apply reports_app_r.
      - intros i x e'. apply source_item_appends.
      - exact Hn.
      - intros e'. simpl. apply check_redaction_reports. }
    unfold Fixture.validate_source. cbv zeta.
    match goal with
    | |- context [append_if ?c ?m errs] =>
        destruct (append_if_appends c m errs) as [a0 ->]
    end.
    cbn [bind for_each].
    assert (H1 : exists a1,
               (errs' <- Fixture.source_key L source (lit "command") (errs ++ a0) ;;
                errs'0 <- Fixture.source_key L source (lit "paths") errs' ;; Ok errs'0)
               = Ok ((errs ++ a0) ++ a1) /\
               reports L item
                 (lit "source." ++ key ++ lit "[" ++ str_of_nat idx ++ lit "]") a1).
    { destruct Hkey as [-> | ->].
      - destruct (Hk (errs ++ a0)) as (a & -> & Ra). cbn [bind].
        destruct (source_key_appends source (lit "paths") ((errs ++ a0) ++ a))
          as [a' ->].
        cbn [bind]. exists (a ++ a'). split; [now rewrite app_assoc|].
        now apply reports_app_l.
      - destruct (source_key_appends source (lit "command") (errs ++ a0))
          as [a ->].
        cbn [bind]. destruct (Hk ((errs ++ a0) ++ a)) as (a' & -> & Ra).
        cbn [bind]. exists (a ++ a'). split; [now rewrite app_assoc|].
        now apply reports_app_r. }
    destruct H1 as (a1 & -> & R1). cbn [bind].
    match goal with
    | |- context [append_if ?c ?m ?e] =>
        destruct (append_if_appends c m e) as [a2 ->]
    end.
    exists (a0 ++ a1 ++ a2). split.
    + now rewrite <- !app_assoc.
    + apply reports_app_r. now apply reports_app_l.
  - intros o1 o2 H1 H2. unfold Fixture.validate_source.
    rewrite !dict_get_set.
    destruct o1 as [|c1 o1]; [contradiction|].
    destruct o2 as [|c2 o2]; [contradiction|].
    cbn [is_str truthy negb orb append_if bind].
    rewrite !(@dict_get_set_other source (lit "origin") (lit "notes")) by reflexivity.
    apply (f_equal (fun m => bind m _)).
    transitivity (for_each (Fixture.source_key L source)
                           [lit "command"; lit "paths"] errs).
    + apply for_each_ext. intros k e Hk. unfold Fixture.source_key.
      destruct Hk as [<-|[<-|[]]]; now rewrite dict_get_set_other.
    + symmetry. apply for_each_ext. intros k e Hk. unfold Fixture.source_key.
      destruct Hk as [<-|[<-|[]]]; now rewrite dict_get_set_other.
Qed.
End FileEntries.


(* ================================================================== *)
(** * The JSONL check                                                  *)
(* ================================================================== *)


Section SkippedJsonl.
Variable L : pylib.
Variable fs : filesystem.

Lemma e2e_check_manifest_sha_grows manifest errs :
  grows (tagged [lit "manifest_sha256 "]) errs
        (E2E.check_manifest_sha L manifest errs).
Proof.
  unfold E2E.check_manifest_sha. repeat grows_step; tag_by_computation.
Qed.

Lemma e2e_log_without_run_id base_dir entry errs :
  E2E.log_entry L fs base_dir (lit "") (JDict entry) errs
  = (known <- in_set (dict_get entry (lit "kind")) E2E.LOG_KINDS ;;
     errs <- append_if (negb known)
                       (lit "log kind invalid: "
                            ++ py_str L (dict_get entry (lit "kind")))
                       errs ;;
     E2E.validate_file_entry L fs entry base_dir (lit "log") errs).
Proof.
  unfold E2E.log_entry. apply bind_ext. intros known.
  apply bind_ext. intros e1.
  change (truthy (JStr (lit ""))) with false. rewrite andb_false_r.
  destruct (E2E.validate_file_entry L fs entry base_dir (lit "log") e1);
    reflexivity.
Qed.

Lemma e2e_log_grows_without_run_id base_dir entry errs :
  grows (tagged [lit "log "]) errs (E2E.log_entry L fs base_dir (lit "") entry errs).
Proof.
  destruct entry; try (unfold E2E.log_entry; repeat grows_step; tag_by_computation).
  rewrite e2e_log_without_run_id.
  repeat grows_step; try tag_by_computation.
  eapply grows_weaken; [|apply validate_file_entry_grows].
  intros m Hm; apply starts_with_split in Hm as [t ->]; tag_by_computation.
Qed.

Lemma e2e_validate_manifest_grows d manifest_path schema_path :
  is_str (dict_get d (lit "run_id")) = false ->
  grows (tagged E2E_TAGS) []
        (E2E.validate_manifest L fs (JDict d) manifest_path schema_path).
Proof.
  intros Hr. unfold E2E.validate_manifest.
  destruct (dict_get d (lit "run_id")) eqn:Er; try discriminate Hr.
  all: repeat grows_step; try tag_by_computation.
  all: first [ by_lemma (schema_grows L)
             | by_lemma require_field_grows
             | by_lemma (check_schema_version_grows L)
             | by_lemma e2e_check_manifest_sha_grows
             | by_lemma e2e_command_grows
             | by_lemma e2e_log_grows_without_run_id
             | by_lemma (e2e_artifact_grows L fs) ].
Qed.

End SkippedJsonl.

Lemma bind_cong {A B} (m m' : result A) (k k' : A -> result B) :
  m = m' -> (forall a, k a = k' a) -> bind m k = bind m' k'.
Proof. intros -> H. now apply bind_ext. Qed.

Section OtherText.
Variable L : pylib.
Variable fs : filesystem.
Variable loads : pystr -> option json.
Variable text : path -> list pystr * option exn.

Let L' := with_json_loads L loads.
Let fs' := with_text fs text.

Lemma validate_file_entry_other_text entry base_dir label errs :
  E2E.validate_file_entry L' fs' entry base_dir label errs
  = E2E.validate_file_entry L fs entry base_dir label errs.
Proof.
  unfold E2E.validate_file_entry.
  destruct (dict_get entry (lit "path")) as [| | | |[|c pv]| |];
    try reflexivity.
  change (resolve L' base_dir (c :: pv)) with (resolve L base_dir (c :: pv)).
  unfold fs', with_text.
  destruct (fs (resolve L base_dir (c :: pv))); reflexivity.
Qed.

Lemma e2e_log_other_text base_dir entry errs :
  E2E.log_entry L' fs' base_dir (lit "") entry errs
  = E2E.log_entry L fs base_dir (lit "") entry errs.
Proof.
  destruct entry; try reflexivity.
  rewrite (e2e_log_without_run_id L' fs'), (e2e_log_without_run_id L fs).
  apply bind_ext. intros known. apply bind_cong; [reflexivity|].
  intros e1. apply validate_file_entry_other_text.
Qed.

Lemma e2e_artifact_other_text base_dir entry errs :
  E2E.artifact_entry L' fs' base_dir entry errs
  = E2E.artifact_entry L fs base_dir entry errs.
Proof.
  destruct entry; try reflexivity. unfold E2E.artifact_entry.
  apply bind_ext. intros known. apply bind_cong; [reflexivity|].
  intros e1. apply bind_cong; [apply validate_file_entry_other_text|].
  intros e2. reflexivity.
Qed.

Lemma e2e_validate_manifest_other_text d manifest_path schema_path :
  is_str (dict_get d (lit "run_id")) = false ->
  E2E.validate_manifest L' fs' (JDict d) manifest_path schema_path
  = E2E.validate_manifest L fs (JDict d) manifest_path schema_path.
Proof.
  intros Hr. unfold E2E.validate_manifest.
  destruct (dict_get d (lit "run_id")) eqn:Er; try discriminate Hr.
  all: repeat (apply bind_cong; [reflexivity|intros ?]).
  all: apply bind_cong;
    [ destruct (dict_get d (lit "logs")); try reflexivity;
      apply for_each_ext; intros; apply e2e_log_other_text
    | intros ? ].
  all: destruct (dict_get d (lit "artifacts")); try reflexivity.
  all: apply for_each_ext; intros; apply e2e_artifact_other_text.
Qed.
End OtherText.

Section SkippedJsonlCheck.
Variable L : pylib.
Variable fs : filesystem.

(** C10. Without a string [run_id] the JSONL check is skipped. No
    message of the validator starts with [jsonl]; the result is the same
    whatever [json.loads] does and whatever text the files hold, so no
    log file is read as text; and the loop over the logs still runs the
    kind check and [E2E.validate_file_entry] on each entry. *)
Theorem jsonl_check_skipped_without_run_id
        (d : dict) (manifest_path schema_path : path) :
  is_str (dict_get d (lit "run_id")) = false ->
  (forall errs,
      E2E.validate_manifest L fs (JDict d) manifest_path schema_path = Ok errs ->
      Forall (fun msg => starts_with (lit "jsonl ") msg = false) errs) /\
  (forall loads text,
      E2E.validate_manifest (with_json_loads L loads) (with_text fs text)
                            (JDict d) manifest_path schema_path
      = E2E.validate_manifest L fs (JDict d) manifest_path schema_path) /\
  (forall base_dir entry errs,
      E2E.log_entry L fs base_dir (lit "") (JDict entry) errs
      = (known <- in_set (dict_get entry (lit "kind")) E2E.LOG_KINDS ;;
         errs <- append_if (negb known)
                           (lit "log kind invalid: "
                                ++ py_str L (dict_get entry (lit "kind")))
                           errs ;;
         E2E.validate_file_entry L fs entry base_dir (lit "log") errs)).
Proof.
  intros Hr. split; [|split].
  - intros errs H.
    destruct (@e2e_validate_manifest_grows L fs d manifest_path schema_path Hr _ H)
      as (added & -> & F).
    change ([] ++ added) with added. eapply Forall_impl; [|exact F].
    intros m Hm. eapply tagged_not_prefixed; [exact Hm|reflexivity].
  - intros loads text. now apply e2e_validate_manifest_other_text.
  - apply e2e_log_without_run_id.
Qed.
End SkippedJsonlCheck.

Lemma filter_tagged_e2e (l : list pystr) :
  Forall (tagged E2E_TAGS) l -> filter (starts_with (lit "jsonl ")) l = [].
Proof.
  induction 1 as [|m l Hm Hl IH]; [reflexivity|].
  cbn [filter].
  rewrite (@tagged_not_prefixed E2E_TAGS m (lit "jsonl ") Hm eq_refl).
  exact IH.
Qed.

Section SingleLog.
Variable L : pylib.
Variable fs : filesystem.

Ltac e2e_step :=
  repeat grows_step; try tag_by_computation;
  first [ by_lemma (schema_grows L)
        | by_lemma require_field_grows
        | by_lemma (check_schema_version_grows L)
        | by_lemma e2e_check_manifest_sha_grows
        | by_lemma e2e_command_grows
        | by_lemma (e2e_artifact_grows L fs) ].

Lemma e2e_validate_manifest_single_log
      d entry manifest_path schema_path run_id errs
      (after : errors -> result errors) :
  dict_get d (lit "run_id") = JStr run_id ->
  dict_get d (lit "logs") = JList [JDict entry] ->
  (forall e, E2E.log_entry L fs (parent L manifest_path) run_id (JDict entry) e
             = after e) ->
  E2E.validate_manifest L fs (JDict d) manifest_path schema_path = Ok errs ->
  exists pre mid post,
    after pre = Ok mid /\ errs = mid ++ post /\
    Forall (tagged E2E_TAGS) pre /\ Forall (tagged E2E_TAGS) post.
Proof.
  intros Hr Hl Ha H. unfold E2E.validate_manifest in H.
  rewrite Hr, Hl in H.
  peel H E2E_TAGS ltac:(e2e_step).
  peel H E2E_TAGS ltac:(e2e_step).
  peel H E2E_TAGS ltac:(e2e_step).
  peel H E2E_TAGS ltac:(e2e_step).
  peel H E2E_TAGS ltac:(e2e_step).
  peel H E2E_TAGS ltac:(e2e_step).
  peel H E2E_TAGS ltac:(e2e_step).
  peel H E2E_TAGS ltac:(e2e_step).
  peel H E2E_TAGS ltac:(e2e_step).
  peel H E2E_TAGS ltac:(e2e_step).
  apply bind_ok_inv in H as (mid & Hmid & H).
  cbn [for_each] in Hmid. rewrite Ha in Hmid.
  apply bind_ok_inv in Hmid as (mid' & Hmid & E). inversion E; subst mid'.
  assert (G : grows (tagged E2E_TAGS) mid
                     (match dict_get d (lit "artifacts") with
                      | JList artifacts =>
                          for_each (E2E.artifact_entry L fs (parent L manifest_path))
                                   artifacts mid
                      | _ => append (lit "artifacts must be array") mid
                      end)) by e2e_step.
  destruct (G _ H) as (post & -> & Fpost).
  eexists. exists mid, post. split; [exact Hmid|]. split; [reflexivity|].
  split; [|exact Fpost].
  repeat (apply Forall_app; split); try apply Forall_nil; assumption.
Qed.
End SingleLog.

Section Jsonl.
Variable L : pylib.
Variable fs : filesystem.

(** C8. JSONL run_id consistency. Under the run_id [abc], a log file
    whose two lines are the objects with [run_id] [abc] and [xyz] gets
    exactly one message from the JSONL check, the run_id mismatch of
    line 2, and no parse error; the loop over the logs adds it after
    the messages of the file checks. *)
Theorem jsonl_run_id_consistency
        (entry : dict) (base_dir : path) (path_value : pystr) (f : file)
        (errs : errors) :
  json_loads L Env.line_abc
  = Some (JDict [(lit "run_id", JStr (lit "abc"))]) ->
  json_loads L Env.line_xyz
  = Some (JDict [(lit "run_id", JStr (lit "xyz"))]) ->
  dict_get entry (lit "path") = JStr path_value -> path_value <> [] ->
  fs (resolve L base_dir path_value) = Some f ->
  read_lines f = [Env.line_abc ++ [10]; Env.line_xyz ++ [10]] ->
  read_fails f = None ->
  E2E.validate_jsonl_run_id L fs entry base_dir (lit "abc") errs
  = Ok (errs ++ [mismatch_line_2 path_value]) /\
  (dict_get entry (lit "kind") = JStr (lit "jsonl") ->
   E2E.log_entry L fs base_dir (lit "abc") (JDict entry) errs
   = (errs <- E2E.validate_file_entry L fs entry base_dir (lit "log") errs ;;
      Ok (errs ++ [mismatch_line_2 path_value])) /\
   forall d manifest_path schema_path reported,
     base_dir = parent L manifest_path ->
     dict_get d (lit "run_id") = JStr (lit "abc") ->
     dict_get d (lit "logs") = JList [JDict entry] ->
     E2E.validate_manifest L fs (JDict d) manifest_path schema_path
     = Ok reported ->
     filter (starts_with (lit "jsonl ")) reported
     = [mismatch_line_2 path_value]).
Proof.
  intros H1 H2 Hp Hne Hf Hl Hn.
  assert (Hj : forall e,
             E2E.validate_jsonl_run_id L fs entry base_dir (lit "abc") e
             = Ok (e ++ [mismatch_line_2 path_value])).
  { intros e. unfold E2E.validate_jsonl_run_id. rewrite Hp.
    destruct path_value as [|c pv]; [contradiction|].
    rewrite Hf, Hl, Hn. cbn [for_enumerate]. unfold E2E.jsonl_line.
    change (strip (Env.line_abc ++ [10])) with Env.line_abc.
    change (strip (Env.line_xyz ++ [10])) with Env.line_xyz.
    rewrite H1, H2. reflexivity. }
  split; [apply Hj|].
  intros Hk.
  assert (Hlog : forall e,
             E2E.log_entry L fs base_dir (lit "abc") (JDict entry) e
             = (e1 <- E2E.validate_file_entry L fs entry base_dir (lit "log") e ;;
                Ok (e1 ++ [mismatch_line_2 path_value]))).
  { intros e. unfold E2E.log_entry. rewrite Hk. cbn [in_set hashable bind].
    change (existsb (eq_str (JStr (lit "jsonl"))) E2E.LOG_KINDS) with true.
    cbn [negb append_if bind].
    apply bind_ext. intros e1.
    change (eq_str (JStr (lit "jsonl")) (lit "jsonl")
            && truthy (JStr (lit "abc"))) with true.
    cbv iota. apply Hj. }
  split; [apply Hlog|].
  intros d manifest_path schema_path reported Hb Hr Hlogs Hv. subst base_dir.
  destruct (e2e_validate_manifest_single_log
              L fs d manifest_path schema_path _ Hr Hlogs Hlog Hv)
    as (pre & mid & post & Hmid & -> & Fpre & Fpost).
  apply bind_ok_inv in Hmid as (e1 & He1 & Hm). inversion Hm; subst mid.
  destruct (@validate_file_entry_grows
              L fs entry (parent L manifest_path) (lit "log") pre e1 He1)
    as (a & -> & Fa).
  rewrite !filter_app, (filter_tagged_e2e Fpre), (filter_tagged_e2e Fpost).
  rewrite (@filter_tagged_e2e a).
  - reflexivity.
  - eapply Forall_impl; [|exact Fa]. intros m Hm'.
    apply starts_with_split in Hm' as [t ->]. tag_by_computation.
Qed.
End Jsonl.

(* ================================================================== *)
(** * The theorems at work on concrete manifests                       *)
(* ================================================================== *)

Lemma canonical_hash_closure_witness :
  Fixture.validate_manifest Env.lib Env.fs (JDict Sample.fixture_manifest)
                            Sample.manifest_path Sample.schema_path = Ok [] /\
  (forall errs,
      Fixture.validate_manifest Env.lib Env.fs (JDict Sample.fixture_manifest)
                                Sample.manifest_path Sample.schema_path
      = Ok errs -> ~ In mismatch errs) /\
  (forall errs,
      Fixture.validate_manifest Env.lib Env.fs (JDict Sample.tampered)
                                Sample.manifest_path Sample.schema_path
      = Ok errs -> In mismatch errs) /\
  (forall errs,
      Fixture.check_manifest_sha Env.lib (JDict Sample.fixture_manifest) errs
      = Ok errs).
Proof.
  destruct (canonical_hash_closure Env.lib Env.fs) as (Tstored & Tbuilt).
  split; [vm_compute; reflexivity|]. split; [|split].
  - edestruct (Tstored Sample.fixture_manifest) as (Teq & _).
    + vm_compute. reflexivity.
    + vm_compute. reflexivity.
    + apply Teq. vm_compute. reflexivity.
  - edestruct (Tstored Sample.tampered) as (_ & Tne).
    + vm_compute. reflexivity.
    + vm_compute. reflexivity.
    + apply Tne.
      * vm_compute. reflexivity.
      * intros E. vm_compute in E. discriminate E.
  - refine (proj1 (Tbuilt (lit "fx-1") (lit "triage") None
                          (lit "2026-01-31T12:00:00Z") (lit "manual")
                          (Some [lit "ls"; lit "-l"]) None
                          [(lit "fixture_capture", JStr (lit "1.0.0"))]
                          (lit "safe") [JDict Sample.data_entry]
                          (JDict Sample.fixture_manifest) _)).
    vm_compute. reflexivity.
Defined.

Ltac wf_by_computation :=
  repeat match goal with
         | |- _ /\ _ => split
         | |- True => exact I
         | |- NoDup _ => constructor
         | |- ~ In _ _ =>
             let H := fresh in
             intros H; simpl in H;
             repeat match type of H with
                    | _ \/ _ => destruct H as [H|H]
                    end;
             solve [discriminate H | contradiction H]
         | |- wf_json _ => simpl
         end.

Lemma key_order_independence_witness :
  canonical_manifest_bytes Sample.doc_a = canonical_manifest_bytes Sample.doc_b.
Proof.
  refine (proj1 (@key_order_independence Sample.doc_a Sample.doc_b _ _ _)).
  - unfold Sample.doc_a. wf_by_computation.
  - unfold Sample.doc_b. wf_by_computation.
  - apply same_mappings_b_sound.
    + unfold Sample.doc_a. wf_by_computation.
    + unfold Sample.doc_b. wf_by_computation.
    + vm_compute. reflexivity.
Defined.

Lemma independent_size_and_digest_errors_witness :
  E2E.validate_file_entry Env.lib Env.fs Sample.truncated_entry Sample.base_dir
                      (lit "artifact") []
  = Ok [lit "artifact bytes mismatch for data.txt: expected 6, got 5";
        lit "artifact sha256 mismatch for data.txt: expected ce06092fb948d9ffac7d1a376e404b26b7575bcc11ee05a4615fef4fec3a308b, got 2cf24dba5fb0a30e26e83b2ac5b9e29e1b161e5c1fa7425e73043362938b9824"].
Proof.
  edestruct (@independent_size_and_digest_errors
               Env.lib Env.fs Sample.truncated_entry Sample.base_dir
               (lit "artifact") (lit "data.txt") [])
    as (Texists & _).
  - vm_compute. reflexivity.
  - discriminate.
  - edestruct Texists as (Tfile & _).
    + vm_compute. reflexivity.
    + vm_compute. reflexivity.
    + reflexivity.
    + vm_compute. reflexivity.
    + vm_compute. discriminate.
    + vm_compute. reflexivity.
    + vm_compute. reflexivity.
    + vm_compute. discriminate.
    + rewrite Tfile. vm_compute. reflexivity.
Defined.

Lemma fixture_entry_needs_profile_counterexample :
  Fixture.validate_artifact_entry Env.lib Env.fs Sample.unprofiled_entry
                          Sample.base_dir []
  = Ok [lit "artifact redaction_profile invalid for data.txt"].
Proof. vm_compute. reflexivity. Qed.

Lemma redaction_profile_requirement_witness :
  E2E.artifact_entry Env.lib Env.fs Sample.base_dir (JDict Sample.data_entry) []
  = E2E.artifact_entry Env.lib Env.fs Sample.base_dir
                 (JDict (dict_pop Sample.data_entry (lit "redaction_profile")))
                 [] /\
  exists reported,
    Fixture.validate_artifact_entry Env.lib Env.fs Sample.unprofiled_entry
                            Sample.base_dir []
    = Ok (reported ++ [lit "artifact redaction_profile invalid for data.txt"]).
Proof.
  destruct (@redaction_profile_requirement
              Env.lib Env.fs Sample.data_entry Sample.base_dir (lit "") [])
    as (Tother & _ & _ & _).
  destruct (@redaction_profile_requirement
              Env.lib Env.fs Sample.unprofiled_entry Sample.base_dir (lit "") [])
    as (_ & _ & _ & Tfixture).
  split.
  - apply Tother. vm_compute. reflexivity.
  - eapply (Tfixture (lit "data.txt")).
    + vm_compute. reflexivity.
    + discriminate.
    + vm_compute. reflexivity.
    + vm_compute. reflexivity.
    + vm_compute. reflexivity.
Defined.

Lemma origin_not_scanned_counterexample :
  matches (re_search Env.lib HOME_RE (lit "/Users/alice/project")) = true /\
  Fixture.validate_source Env.lib Sample.origin_only [] = Ok [].
Proof. split; vm_compute; reflexivity. Qed.

Lemma scanner_covers_command_and_paths_witness :
  exists added,
    Fixture.validate_source Env.lib Sample.scanned_source [] = Ok ([] ++ added) /\
    In (lit "source.command[1] contains unredacted home path") added.
Proof.
  destruct (@scanner_covers_command_and_paths
              Env.lib Sample.scanned_source (lit "command")
              [JStr (lit "cat"); JStr (lit "/Users/alice/notes")] 1%nat
              (lit "/Users/alice/notes") [])
    as ((added & Hv & (Hhome & _)) & _).
  - left. reflexivity.
  - vm_compute. reflexivity.
  - reflexivity.
  - exists added. split; [exact Hv|]. apply Hhome. vm_compute. reflexivity.
Defined.

Lemma jsonl_run_id_consistency_witness :
  E2E.validate_jsonl_run_id Env.lib Env.fs Sample.jsonl_entry Sample.base_dir
                            (lit "abc") []
  = Ok [lit "jsonl run_id mismatch in run.jsonl line 2"] /\
  exists reported,
    E2E.validate_manifest Env.lib Env.fs (JDict Sample.run_abc)
                          Sample.manifest_path Sample.schema_path
    = Ok reported /\
    filter (starts_with (lit "jsonl ")) reported
    = [lit "jsonl run_id mismatch in run.jsonl line 2"].
Proof.
  edestruct (@jsonl_run_id_consistency
               Env.lib Env.fs Sample.jsonl_entry Sample.base_dir
               (lit "run.jsonl"))
    as (Tcheck & Tlog).
  - vm_compute. reflexivity.
  - vm_compute. reflexivity.
  - vm_compute. reflexivity.
  - discriminate.
  - vm_compute. reflexivity.
  - vm_compute. reflexivity.
  - vm_compute. reflexivity.
  - split.
    + rewrite Tcheck. vm_compute. reflexivity.
    + destruct Tlog as (_ & Tall); [vm_compute; reflexivity|].
      eexists. split; [vm_compute; reflexivity|].
      rewrite (Tall Sample.run_abc Sample.manifest_path Sample.schema_path).
      * vm_compute. reflexivity.
      * vm_compute. reflexivity.
      * vm_compute. reflexivity.
      * vm_compute. reflexivity.
      * vm_compute. reflexivity.
Defined.

Lemma validate_manifest_raises_on_non_object_witness :
  Fixture.validate_manifest Env.lib Env.fs (JList [])
                            Sample.manifest_path Sample.schema_path
  = Raise AttributeError /\
  E2E.validate_manifest Env.lib Env.fs (JList [])
                        Sample.manifest_path Sample.schema_path
  = Raise AttributeError /\
  Capabilities.validate_manifest Env.lib (JList []) Sample.schema_path
  = Raise AttributeError.
Proof.
  destruct (@validate_manifest_raises_on_non_object
              Env.lib Env.fs (JList []) Sample.manifest_path Sample.schema_path)
    as (_ & _ & _ & Tlist).
  - reflexivity.
  - apply Tlist.
    + reflexivity.
    + intros msg. vm_compute. discriminate.
Defined.

Lemma jsonl_check_skipped_without_run_id_witness :
  exists errs,
    E2E.validate_manifest Env.lib Env.fs (JDict Sample.no_run_id)
                          Sample.manifest_path Sample.schema_path = Ok errs /\
    Forall (fun msg => starts_with (lit "jsonl ") msg = false) errs.
Proof.
  destruct (@jsonl_check_skipped_without_run_id
              Env.lib Env.fs Sample.no_run_id
              Sample.manifest_path Sample.schema_path)
    as (Tnone & _ & _).
  - vm_compute. reflexivity.
  - eexists. split; [vm_compute; reflexivity|].
    apply Tnone. vm_compute. reflexivity.
Defined.

(* ================================================================== *)
(** * Further properties of the scripts                                *)
(* ================================================================== *)

(* ---------------------------------------------------------------- *)
(** ** The digest format *)
(* ---------------------------------------------------------------- *)

Lemma rep_sound (R : Type) (p : N -> bool) (rest : list N) :
  forall lo hi before caps (k : cont R) r,
    rep p lo hi before rest caps k = Some r ->
    exists a s',
      rest = a ++ s' /\ forallb p a = true /\ (lo <= length a)%nat /\
      match hi with Some h => (length a <= h)%nat | None => True end /\
      k (rev a ++ before) s' caps = Some r.
Proof.
  induction rest as [|c rest IH]; intros lo hi before caps k r H.
  - exists [], []. simpl in H.
    destruct hi as [[|h]|]; destruct lo; try discriminate;
      repeat split; simpl; auto; lia.
  - simpl in H.
    assert (Hstop :
              match lo with O => k before (c :: rest) caps | S _ => None end
              = Some r ->
              exists a s',
                c :: rest = a ++ s' /\ forallb p a = true /\
                (lo <= length a)%nat /\
                match hi with Some h => (length a <= h)%nat | None => True end /\
                k (rev a ++ before) s' caps = Some r).
    { intros Hs. destruct lo; [|discriminate]. exists [], (c :: rest).
      repeat split; simpl; auto. destruct hi; [lia|exact I]. }
    destruct hi as [[|h]|].
    + auto.
    + destruct (p c) eqn:Hc; [|auto].
      destruct (rep p (pred lo) (option_map pred (Some (S h))) (c :: before) rest caps k) eqn:E.
      * inversion H; subst. apply IH in E as (a & s' & -> & Ha & Hlo & Hhi & Hk).
        exists (c :: a), s'. simpl in *. rewrite Hc, Ha.
        rewrite <- app_assoc. simpl. repeat split; auto; lia.
      * auto.
    + destruct (p c) eqn:Hc; [|auto].
      destruct (rep p (pred lo) (option_map pred None) (c :: before) rest caps k) eqn:E.
      * inversion H; subst. apply IH in E as (a & s' & -> & Ha & Hlo & Hhi & Hk).
        exists (c :: a), s'. simpl in *. rewrite Hc, Ha.
        rewrite <- app_assoc. simpl. repeat split; auto; lia.
      * auto.
Qed.

Lemma rep_longest (R : Type) (p : N -> bool) (a : list N) :
  forallb p a = true ->
  forall lo before s' caps (k : cont R) r,
    (lo <= length a)%nat ->
    match s' with c :: _ => p c = false | [] => True end ->
    k (rev a ++ before) s' caps = Some r ->
    rep p lo None before (a ++ s') caps k = Some r.
Proof.
  induction a as [|c a IH]; intros Ha lo before s' caps k r Hlo Hs Hk.
  - simpl in *. assert (lo = 0%nat) by lia. subst lo.
    destruct s' as [|x s']; simpl; [assumption|]. now rewrite Hs.
  - simpl in Ha. apply andb_true_iff in Ha as [Hc Ha].
    simpl. rewrite Hc.
    rewrite (IH Ha (pred lo) (c :: before) s' caps k r); [reflexivity| |assumption|].
    + simpl in Hlo. lia.
    + simpl in Hk. rewrite <- app_assoc in Hk. exact Hk.
Qed.

Lemma group_text (a before : list N) :
  rev (firstn (length (rev a ++ before) - length before) (rev a ++ before)) = a.
Proof.
  rewrite length_app, Nat.add_sub.
  rewrite firstn_app, firstn_all. rewrite Nat.sub_diag. simpl.
  rewrite app_nil_r. apply rev_involutive.
Qed.

Lemma forallb_Forall_true {A} (p : A -> bool) (l : list A) :
  forallb p l = true <-> Forall (fun c => p c = true) l.
Proof.
  rewrite forallb_forall, Forall_forall. reflexivity.
Qed.

(** X1. The digest pattern [SHA256_RE], used with [match], accepts exactly the
    texts made of 64 lower-case hexadecimal digits, and those followed by
    one newline (Python's [$] also matches before a final newline). *)
Theorem sha256_format_characterised (L : pylib) (s : pystr) :
  matches (re_match L SHA256_RE s) = true <->
  exists h, length h = 64%nat /\ forallb hex_lower h = true /\
            (s = h \/ s = h ++ [10]).
Proof.
  split.
  - unfold re_match, match_here, SHA256_RE, Exactly. cbn [Seq rmatch].
    destruct (rep _ _ _ _ _ _ _) as [r|] eqn:E; [intros _|discriminate].
    apply rep_sound in E as (a & s' & -> & Ha & Hlo & Hhi & Hk).
    exists a. split; [lia|]. split; [assumption|].
    destruct s' as [|c [|d s']]; try discriminate.
    + left. now rewrite app_nil_r.
    + right. destruct (N.eq_dec c 10) as [->|Hc]; [reflexivity|].
      exfalso. revert Hk. clear -Hc.
      destruct c as [|p]; [discriminate|].
      do 4 (destruct p as [p|p|]; try discriminate). congruence.
    + destruct c as [|p]; [discriminate|].
      do 4 (destruct p as [p|p|]; try discriminate).
  - intros (h & Hl & Hh & [->| ->]).
    + apply sha256_re_matches; [assumption|]. now apply forallb_Forall_true.
    + unfold re_match, match_here, SHA256_RE, Exactly. cbn [Seq rmatch].
      rewrite <- Hl. rewrite (@rep_exact _ hex_lower h); [reflexivity|].
      now apply forallb_Forall_true.
Qed.

(* ---------------------------------------------------------------- *)
(** ** Version strings *)
(* ---------------------------------------------------------------- *)

Lemma dot_not_digit (L : pylib) : is_digit L 46 = false.
Proof. reflexivity. Qed.

Lemma newline_not_digit (L : pylib) : is_digit L 10 = false.
Proof. reflexivity. Qed.

Lemma append_changes (msg : pystr) (errs errs' : errors) :
  append msg errs = Ok errs' -> errs' <> errs.
Proof.
  unfold append. intros H. inversion H; subst. intros E.
  apply (f_equal (@length _)) in E. rewrite length_app in E. simpl in E. lia.
Qed.

Lemma group_text0 (a : list N) :
  rev (firstn (length (rev a) - length (@nil N)) (rev a)) = a.
Proof.
  simpl. rewrite Nat.sub_0_r, firstn_all. apply rev_involutive.
Qed.

Lemma version_match (L : pylib) (version : pystr) b s groups :
  re_match L (VERSION_RE L) version = Some (b, s, groups) ->
  exists major minor patch tail,
    version = major ++ lit "." ++ minor ++ lit "." ++ patch ++ tail /\
    (tail = [] \/ tail = [10]) /\
    digits L major /\ digits L minor /\ digits L patch /\
    groups = [major; minor; patch].
Proof.
  unfold re_match, match_here, VERSION_RE, Plus. cbn [Seq rmatch].
  intros H.
  apply rep_sound in H as (a1 & s1 & -> & Ha1 & Hl1 & _ & H).
  rewrite app_nil_r in H. cbn [app] in H.
  destruct s1 as [|x s1]; [discriminate|].
  destruct (N.eqb_spec x 46); [subst x|discriminate].
  apply rep_sound in H as (a2 & s2 & -> & Ha2 & Hl2 & _ & H).
  destruct s2 as [|x s2]; [discriminate|].
  destruct (N.eqb_spec x 46); [subst x|discriminate].
  apply rep_sound in H as (a3 & s3 & -> & Ha3 & Hl3 & _ & H).
  assert (Ht : s3 = [] \/ s3 = [10]).
  { destruct s3 as [|c [|d s3]]; auto.
    - destruct (N.eq_dec c 10) as [->|Hc]; [auto|].
      destruct c as [|p]; [discriminate|].
      do 4 (destruct p as [p|p|]; try discriminate). congruence.
    - destruct c as [|p]; [discriminate|].
      do 4 (destruct p as [p|p|]; try discriminate). }
  exists a1, a2, a3, s3.
  assert (Hg : groups = [a1; a2; a3]).
  { rewrite group_text0, !group_text in H.
    destruct Ht as [-> | ->]; cbn in H; inversion H; reflexivity. }
  unfold digits.
  repeat split; auto.
  - intros ->. simpl in Hl1. lia.
  - intros ->. simpl in Hl2. lia.
  - intros ->. simpl in Hl3. lia.
Qed.

Lemma version_found (L : pylib) (major minor patch tail : pystr) :
  digits L major -> digits L minor -> digits L patch ->
  tail = [] \/ tail = [10] ->
  exists b s,
    re_match L (VERSION_RE L)
             (major ++ lit "." ++ minor ++ lit "." ++ patch ++ tail)
    = Some (b, s, [major; minor; patch]).
Proof.
  intros [N1 D1] [N2 D2] [N3 D3] Ht.
  change (lit ".") with [46]. cbn [app].
  unfold re_match, match_here, VERSION_RE, Plus. cbn [Seq rmatch].
  eexists. eexists.
  apply rep_longest; [assumption| | |].
  - destruct major; [congruence|simpl; lia].
  - reflexivity.
  - rewrite N.eqb_refl.
    apply rep_longest; [assumption| | |].
    + destruct minor; [congruence|simpl; lia].
    + reflexivity.
    + rewrite N.eqb_refl.
      apply rep_longest; [assumption| | |].
      * destruct patch; [congruence|simpl; lia].
      * destruct Ht as [-> | ->]; [exact I|reflexivity].
      * rewrite !app_nil_r, group_text0.
        rewrite (group_text minor (46 :: rev major)).
        rewrite (group_text patch (46 :: rev minor ++ 46 :: rev major)).
        destruct Ht as [-> | ->]; reflexivity.
Qed.

(** X2. [validate_version] adds no message exactly for three non-empty runs
    of decimal digits separated by dots, optionally followed by one
    newline, whose first run reads as the integer 1 (so [01.2.3] passes). *)
Theorem validate_version_accepts (L : pylib) (version : pystr) (errs : errors) :
  validate_version L version errs = Ok errs <->
  exists major minor patch tail,
    version = major ++ lit "." ++ minor ++ lit "." ++ patch ++ tail /\
    (tail = [] \/ tail = [10]) /\
    digits L major /\ digits L minor /\ digits L patch /\
    py_int L major = 1%Z.
Proof.
  unfold validate_version. split.
  - destruct (re_match L (VERSION_RE L) version) as [[[b s] groups]|] eqn:E.
    + apply version_match in E
        as (major & minor & patch & tail & -> & Ht & D1 & D2 & D3 & ->).
      cbn [nth]. intros H.
      exists major, minor, patch, tail.
      repeat split; try apply D1; try apply D2; try apply D3; auto.
      destruct (py_int L major =? 1)%Z eqn:Em; [now apply Z.eqb_eq|].
      simpl in H. now apply append_changes in H.
    + intros H. now apply append_changes in H.
  - intros (major & minor & patch & tail & -> & Ht & D1 & D2 & D3 & Hm).
    destruct (version_found D1 D2 D3 Ht) as (b & s & ->).
    cbn [nth]. rewrite Hm. reflexivity.
Qed.

(* ---------------------------------------------------------------- *)
(** ** Tool versions *)
(* ---------------------------------------------------------------- *)

Lemma tool_version_entry_spec (entry : pystr) (tv : dict) :
  Capture.tool_version_entry entry tv =
  if key_value entry
  then Ok (dict_set tv (entry_key entry) (JStr (entry_value entry)))
  else Raise (Capture.tool_version_error entry).
Proof.
  unfold Capture.tool_version_entry, key_value, entry_key, entry_value.
  destruct (str_contains (lit "=") entry); [|reflexivity].
  destruct (Capture.split_eq entry) as [k v]. cbn [fst snd negb andb].
  destruct (strip k); [reflexivity|].
  destruct (strip v); reflexivity.
Qed.

Lemma for_in_app {A S} (body : A -> S -> result S) (xs ys : list A) (s : S) :
  for_in body (xs ++ ys) s = (s' <- for_in body xs s ;; for_in body ys s').
Proof.
  revert s; induction xs as [|x xs IH]; intros s; simpl; [reflexivity|].
  destruct (body x s); simpl; [apply IH|reflexivity].
Qed.

Lemma for_in_tool_versions_ok (entries : list pystr) :
  forall tv, forallb key_value entries = true ->
  for_in Capture.tool_version_entry entries tv = Ok (tool_versions_of entries tv).
Proof.
  induction entries as [|e es IH]; intros tv H; [reflexivity|].
  simpl in H. apply andb_true_iff in H as [He Hes].
  simpl. rewrite tool_version_entry_spec, He. simpl. now apply IH.
Qed.

Lemma for_in_tool_versions_stops (good : list pystr) (bad : pystr) (rest : list pystr) tv :
  forallb key_value good = true -> key_value bad = false ->
  for_in Capture.tool_version_entry (good ++ bad :: rest) tv
  = Raise (Capture.tool_version_error bad).
Proof.
  intros Hg Hb. rewrite for_in_app, (@for_in_tool_versions_ok good tv Hg).
  simpl. now rewrite tool_version_entry_spec, Hb.
Qed.

(** X3. [parse_tool_versions] raises [SystemExit] for the first entry that has
    no equals sign or whose key or value is blank, naming that entry, and
    whatever comes after it is not looked at. *)
Theorem parse_tool_versions_stops_at_first_malformed
        (good : list pystr) (bad : pystr) (rest : list pystr) :
  forallb key_value good = true -> key_value bad = false ->
  Capture.parse_tool_versions (Some (good ++ bad :: rest))
  = Raise (Capture.tool_version_error bad).
Proof.
  intros Hg Hb. unfold Capture.parse_tool_versions.
  destruct (good ++ bad :: rest) eqn:E.
  - destruct good; discriminate.
  - rewrite <- E. now apply for_in_tool_versions_stops.
Qed.

Lemma split_first_bad (entries : list pystr) :
  forallb key_value entries = false ->
  exists good bad rest,
    entries = good ++ bad :: rest /\ forallb key_value good = true /\
    key_value bad = false.
Proof.
  induction entries as [|e es IH]; [discriminate|].
  simpl. destruct (key_value e) eqn:He.
  - simpl. intros H. destruct (IH H) as (g & b & r & -> & Hg & Hb).
    exists (e :: g), b, r. simpl. rewrite He. auto.
  - intros _. exists [], e, es. auto.
Qed.

Lemma parse_tool_versions_returns_iff (entries : list pystr) :
  (exists tv, Capture.parse_tool_versions (Some entries) = Ok tv) <->
  forallb key_value entries = true.
Proof.
  split.
  - intros [tv H]. destruct (forallb key_value entries) eqn:E; [reflexivity|].
    apply split_first_bad in E as (g & b & r & -> & Hg & Hb).
    unfold Capture.parse_tool_versions in H.
    destruct (g ++ b :: r) eqn:E; [destruct g; discriminate|].
    rewrite <- E in H.
    rewrite (@for_in_tool_versions_stops g b r _ Hg Hb) in H. discriminate.
  - intros H. unfold Capture.parse_tool_versions.
    destruct entries; [eauto|]. rewrite (@for_in_tool_versions_ok _ _ H). eauto.
Qed.

Lemma dict_get_after_set (d : dict) (k k' : pystr) (v : json) :
  dict_get (dict_set d k v) k' = if str_eqb k k' then v else dict_get d k'.
Proof.
  destruct (str_eqb k k') eqn:E.
  - apply str_eqb_eq in E. subst. apply dict_get_set.
  - now apply dict_get_set_other.
Qed.

Lemma tool_versions_of_snoc (entries : list pystr) (e : pystr) (tv : dict) :
  tool_versions_of (entries ++ [e]) tv
  = dict_set (tool_versions_of entries tv) (entry_key e) (JStr (entry_value e)).
Proof. unfold tool_versions_of. now rewrite fold_left_app. Qed.

Lemma parse_tool_versions_value (entries : option (list pystr)) (tv : dict) :
  Capture.parse_tool_versions entries = Ok tv ->
  tv = tool_versions_of (match entries with Some es => es | None => [] end)
                        [(lit "fixture_capture", JStr Capture.SCRIPT_VERSION)].
Proof.
  destruct entries as [[|e es]|]; try (intros H; inversion H; reflexivity).
  intros H.
  assert (Hall : forallb key_value (e :: es) = true).
  { apply parse_tool_versions_returns_iff. eauto. }
  unfold Capture.parse_tool_versions in H.
  rewrite (@for_in_tool_versions_ok _ _ Hall) in H. now inversion H.
Qed.

(** X4. In what [parse_tool_versions] returns, a tool has the value of the last
    entry that names it (keys and values stripped); [fixture_capture] has
    the script's version unless an entry names it, and every other
    key is absent. *)
Theorem parse_tool_versions_last_entry_wins
        (entries : list pystr) (tv : dict) (tool : pystr) :
  Capture.parse_tool_versions (Some entries) = Ok tv ->
  dict_get tv tool =
  match find (fun e => str_eqb (entry_key e) tool) (rev entries) with
  | Some e => JStr (entry_value e)
  | None =>
      if str_eqb (lit "fixture_capture") tool
      then JStr Capture.SCRIPT_VERSION else JNull
  end.
Proof.
  intros H. apply parse_tool_versions_value in H. subst tv.
  induction entries as [|e es IH] using rev_ind.
  - unfold tool_versions_of. cbn [fold_left rev find].
    unfold dict_get. cbn [dict_lookup].
    destruct (str_eqb (lit "fixture_capture") tool); reflexivity.
  - rewrite tool_versions_of_snoc, rev_app_distr. cbn [rev app find].
    rewrite dict_get_after_set.
    destruct (str_eqb (entry_key e) tool); [reflexivity|exact IH].
Qed.

Lemma dict_set_named (d : dict) (k v : pystr) :
  k <> [] -> v <> [] -> Forall named_string d ->
  Forall named_string (dict_set d k (JStr v)).
Proof.
  intros Hk Hv. induction 1 as [|[k0 v0] d H0 Hd IH]; simpl.
  - constructor; [|constructor]. split; simpl; eauto.
  - destruct (str_eqb k0 k) eqn:E.
    + constructor; [|assumption]. split; [apply H0|]. simpl. eauto.
    + constructor; assumption.
Qed.

Lemma key_value_named (e : pystr) :
  key_value e = true -> entry_key e <> [] /\ entry_value e <> [].
Proof.
  unfold key_value. intros H.
  apply andb_true_iff in H as [H Hv]. apply andb_true_iff in H as [_ Hk].
  apply negb_true_iff in Hk, Hv. apply str_eqb_neq in Hk, Hv. auto.
Qed.

Lemma tool_versions_of_named (entries : list pystr) :
  forall tv, forallb key_value entries = true -> Forall named_string tv ->
             Forall named_string (tool_versions_of entries tv).
Proof.
  induction entries as [|e es IH]; intros tv H Htv; [exact Htv|].
  simpl in H. apply andb_true_iff in H as [He Hes].
  simpl. apply IH; [assumption|].
  apply key_value_named in He as [Hk Hv]. now apply dict_set_named.
Qed.

Lemma validate_named (tv : dict) :
  Forall named_string tv ->
  forall errs, Fixture.validate_tool_versions tv errs = Ok errs.
Proof.
  unfold Fixture.validate_tool_versions.
  induction 1 as [|[k v] d [Hk (s & Hs & Hv)] Hd IH]; intros errs; [reflexivity|].
  simpl in *. subst v.
  destruct k; [congruence|]. destruct s; [congruence|]. simpl. apply IH.
Qed.

(** X5. What [parse_tool_versions] returns draws no message from
    [validate_tool_versions] of the fixture validator. *)
Theorem parsed_tool_versions_are_valid
        (entries : option (list pystr)) (tv : dict) (errs : errors) :
  Capture.parse_tool_versions entries = Ok tv ->
  Fixture.validate_tool_versions tv errs = Ok errs.
Proof.
  intros H. apply validate_named.
  assert (H0 : Forall named_string
                      [(lit "fixture_capture", JStr Capture.SCRIPT_VERSION)]).
  { constructor; [|constructor]. split; simpl; [discriminate|].
    eexists. split; [reflexivity|discriminate]. }
  pose proof (parse_tool_versions_value _ H) as ->.
  apply tool_versions_of_named; [|exact H0].
  destruct entries as [es|]; [|reflexivity].
  apply parse_tool_versions_returns_iff. eauto.
Qed.

(* ---------------------------------------------------------------- *)
(** ** File entries that draw no message *)
(* ---------------------------------------------------------------- *)

Ltac absurd_growth H :=
  let E := fresh "E" in
  exfalso; unfold append_if, append in H; cbn [bind] in H;
  inversion H as [E]; apply (f_equal (@length _)) in E;
  rewrite ?length_app in E; cbn [length] in E; lia.

Section CleanEntries.
Variable L : pylib.
Variable fs : filesystem.

Lemma recorded_file_entry_is_silent
      (entry : dict) (base_dir : path) (label : pystr) (errs : errors) :
  records L fs entry base_dir ->
  E2E.validate_file_entry L fs entry base_dir label errs = Ok errs.
Proof.
  unfold E2E.validate_file_entry, records.
  intros (pv & f & content & -> & Hne & -> & Hr & Hi & Hb & ->).
  destruct pv as [|c pv]; [congruence|].
  unfold sha256_file. rewrite Hr. cbn [bind]. rewrite Hi, Hb, Z.eqb_refl.
  cbn [negb append_if bind].
  now rewrite hexdigest_well_formed, str_eqb_refl.
Qed.

Lemma recorded_artifact_entry_is_silent
      (entry : dict) (base_dir : path) (errs : errors) :
  records L fs entry base_dir ->
  in_set (dict_get entry (lit "redaction_profile")) Fixture.REDACTION_PROFILES
  = Ok true ->
  Fixture.validate_artifact_entry L fs entry base_dir errs = Ok errs.
Proof.
  unfold Fixture.validate_artifact_entry, records.
  intros (pv & f & content & -> & Hne & -> & Hr & Hi & Hb & ->) Hk.
  destruct pv as [|c pv]; [congruence|].
  unfold sha256_file. rewrite Hr. cbn [bind]. rewrite Hi, Hb, Z.eqb_refl.
  cbn [negb append_if bind].
  rewrite hexdigest_well_formed, str_eqb_refl. cbn [negb bind].
  rewrite Hk. reflexivity.
Qed.

Lemma silent_file_entry_records
      (entry : dict) (base_dir : path) (label : pystr) (errs : errors) :
  E2E.validate_file_entry L fs entry base_dir label errs = Ok errs ->
  records L fs entry base_dir.
Proof.
  unfold E2E.validate_file_entry, records.
  - destruct (dict_get entry (lit "path")) as [| | | |[|c pv]| |] eqn:Ep;
      try (intros H; absurd_growth H).
    destruct (fs (resolve L base_dir (c :: pv))) as [f|] eqn:Ef;
      [|intros H; absurd_growth H].
    unfold sha256_file. destruct (read_bytes f) as [content|e] eqn:Er;
      [|discriminate].
    cbn [bind].
    destruct (is_int (dict_get entry (lit "bytes"))) eqn:Ei; cbn [negb];
      [|destruct (dict_get entry (lit "sha256")) as [| | | |s| |];
        try destruct (matches (re_match L SHA256_RE s));
        try destruct (str_eqb s (Sha256.hexdigest content));
        intros H; absurd_growth H].
    destruct (int_value (dict_get entry (lit "bytes")) =? st_size f)%Z eqn:Eb;
      cbn [negb];
      [|destruct (dict_get entry (lit "sha256")) as [| | | |s| |];
        try destruct (matches (re_match L SHA256_RE s));
        try destruct (str_eqb s (Sha256.hexdigest content));
        intros H; absurd_growth H].
    destruct (dict_get entry (lit "sha256")) as [| | | |s| |] eqn:Es;
      try (intros H; absurd_growth H).
    destruct (matches (re_match L SHA256_RE s)) eqn:Em; cbn [negb];
      [|intros H; absurd_growth H].
    destruct (str_eqb s (Sha256.hexdigest content)) eqn:Eq; cbn [negb];
      [|intros H; absurd_growth H].
    intros _. apply str_eqb_eq in Eq. subst s. apply Z.eqb_eq in Eb.
    exists (c :: pv), f, content. repeat split; auto. discriminate.
Qed.

(** X6. [validate_file_entry] of the end-to-end validator adds no message
    exactly when the entry has a non-empty [path], the file exists and can
    be read, [bytes] is an integer equal to its size and [sha256] is its
    digest. *)
Theorem validate_file_entry_silent_iff
        (entry : dict) (base_dir : path) (label : pystr) (errs : errors) :
  E2E.validate_file_entry L fs entry base_dir label errs = Ok errs <->
  records L fs entry base_dir.
Proof.
  split.
  - apply silent_file_entry_records.
  - apply recorded_file_entry_is_silent.
Qed.

Lemma silent_artifact_entry_records
      (entry : dict) (base_dir : path) (errs : errors) :
  Fixture.validate_artifact_entry L fs entry base_dir errs = Ok errs ->
  records L fs entry base_dir /\
  in_set (dict_get entry (lit "redaction_profile")) Fixture.REDACTION_PROFILES
  = Ok true.
Proof.
  unfold Fixture.validate_artifact_entry, records.
  - destruct (dict_get entry (lit "path")) as [| | | |[|c pv]| |] eqn:Ep;
      try (intros H; absurd_growth H).
    destruct (fs (resolve L base_dir (c :: pv))) as [f|] eqn:Ef;
      [|intros H; absurd_growth H].
    unfold sha256_file. destruct (read_bytes f) as [content|e] eqn:Er;
      [|discriminate].
    cbn [bind].
    destruct (in_set (dict_get entry (lit "redaction_profile"))
                     Fixture.REDACTION_PROFILES) as [[|]|e] eqn:Ek;
      cycle 1.
    { destruct (is_int (dict_get entry (lit "bytes")));
        try destruct (int_value (dict_get entry (lit "bytes")) =? st_size f)%Z;
        destruct (dict_get entry (lit "sha256")) as [| | | |s| |];
        try destruct (matches (re_match L SHA256_RE s));
        try destruct (str_eqb s (Sha256.hexdigest content));
        intros H; absurd_growth H. }
    { destruct (is_int (dict_get entry (lit "bytes")));
        try destruct (int_value (dict_get entry (lit "bytes")) =? st_size f)%Z;
        destruct (dict_get entry (lit "sha256")) as [| | | |s| |];
        try destruct (matches (re_match L SHA256_RE s));
        try destruct (str_eqb s (Sha256.hexdigest content));
        intros H; discriminate H. }
    destruct (is_int (dict_get entry (lit "bytes"))) eqn:Ei; cbn [negb];
      [|destruct (dict_get entry (lit "sha256")) as [| | | |s| |];
        try destruct (matches (re_match L SHA256_RE s));
        try destruct (str_eqb s (Sha256.hexdigest content));
        intros H; absurd_growth H].
    destruct (int_value (dict_get entry (lit "bytes")) =? st_size f)%Z eqn:Eb;
      cbn [negb];
      [|destruct (dict_get entry (lit "sha256")) as [| | | |s| |];
        try destruct (matches (re_match L SHA256_RE s));
        try destruct (str_eqb s (Sha256.hexdigest content));
        intros H; absurd_growth H].
    destruct (dict_get entry (lit "sha256")) as [| | | |s| |] eqn:Es;
      try (intros H; absurd_growth H).
    destruct (matches (re_match L SHA256_RE s)) eqn:Em; cbn [negb];
      [|intros H; absurd_growth H].
    destruct (str_eqb s (Sha256.hexdigest content)) eqn:Eq; cbn [negb];
      [|intros H; absurd_growth H].
    intros _. apply str_eqb_eq in Eq. subst s. apply Z.eqb_eq in Eb.
    split; [|reflexivity].
    exists (c :: pv), f, content. repeat split; auto. discriminate.
Qed.
End CleanEntries.

(* ---------------------------------------------------------------- *)
(** ** Gathering the artifacts *)
(* ---------------------------------------------------------------- *)

Lemma in_set_true_iff (x : json) (S : list pystr) :
  in_set x S = Ok true <-> exists p, x = JStr p /\ In p S.
Proof.
  unfold in_set. split.
  - destruct (hashable x); [|discriminate].
    intros H. inversion H as [E]. apply existsb_exists in E as (p & Hp & Hs).
    destruct x; simpl in Hs; try discriminate.
    apply str_eqb_eq in Hs. subst. eauto.
  - intros (p & -> & Hp). simpl. f_equal. apply existsb_exists.
    exists p. split; [assumption|apply str_eqb_refl].
Qed.

(** X7. [validate_artifact_entry] of the fixture validator adds no message
    exactly when the entry records its file (path, size, digest) and its
    [redaction_profile] is one of the four known profiles. *)
Theorem validate_artifact_entry_silent_iff
        (L : pylib) (fs : filesystem)
        (entry : dict) (base_dir : path) (errs : errors) :
  Fixture.validate_artifact_entry L fs entry base_dir errs = Ok errs <->
  records L fs entry base_dir /\
  exists profile,
    dict_get entry (lit "redaction_profile") = JStr profile /\
    In profile Fixture.REDACTION_PROFILES.
Proof.
  rewrite <- in_set_true_iff. split.
  - apply silent_artifact_entry_records.
  - intros [H Hk]. now apply recorded_artifact_entry_is_silent.
Qed.

Section Gathered.
Variable L : pylib.
Variable O : oslib.
Variable fs : filesystem.
Variable fixture_dir : path.
Variable excludes : list pystr.
Variable manifest_path : path.
Variable log_path : option path.
Variable redaction_profile : pystr.

Lemma gather_entry_skips (p : path) (entries : list json) :
  listed O fixture_dir excludes manifest_path log_path p = false ->
  Capture.gather_entry O fs fixture_dir excludes manifest_path log_path
                       redaction_profile p entries = Ok entries.
Proof.
  unfold listed, Capture.gather_entry. intros H.
  destruct (is_dir O p); [reflexivity|].
  destruct (str_eqb p manifest_path); [reflexivity|].
  destruct (match log_path with Some lp => str_eqb p lp | None => false end);
    [reflexivity|].
  destruct (Capture.should_exclude O _ excludes); [reflexivity|discriminate].
Qed.

Lemma gather_entry_lists (p : path) (entries : list json) :
  listed O fixture_dir excludes manifest_path log_path p = true ->
  Capture.gather_entry O fs fixture_dir excludes manifest_path log_path
                       redaction_profile p entries =
  match fs p with
  | None => Raise OSError
  | Some f =>
      digest <- sha256_file f ;;
      Ok (entries ++
          [JDict [(lit "path", JStr (relative_posix O p fixture_dir));
                  (lit "kind", JStr (Capture.infer_kind O (relative_posix O p fixture_dir)));
                  (lit "sha256", JStr digest);
                  (lit "bytes", JInt (st_size f));
                  (lit "redaction_profile", JStr redaction_profile)]])
  end.
Proof.
  unfold listed, Capture.gather_entry. intros H.
  destruct (is_dir O p); [discriminate|].
  destruct (str_eqb p manifest_path); [discriminate|].
  destruct (match log_path with Some lp => str_eqb p lp | None => false end);
    [discriminate|].
  destruct (Capture.should_exclude O _ excludes); [discriminate|reflexivity].
Qed.

Lemma gather_loop (paths : list path) :
  forall acc entries,
    for_in (Capture.gather_entry O fs fixture_dir excludes manifest_path
                                 log_path redaction_profile) paths acc
    = Ok entries <->
    exists added,
      entries = acc ++ added /\
      Forall2 (entry_for O fs fixture_dir redaction_profile)
              (filter (listed O fixture_dir excludes manifest_path log_path)
                      paths)
              added.
Proof.
  induction paths as [|p paths IH]; intros acc entries.
  - simpl. split.
    + intros H. inversion H. exists []. split; [now rewrite app_nil_r|constructor].
    + intros (added & -> & H). inversion H. now rewrite app_nil_r.
  - cbn [for_in filter]. destruct (listed O fixture_dir excludes manifest_path log_path p) eqn:Hp.
    + rewrite (@gather_entry_lists p acc Hp). split.
      * destruct (fs p) as [f|] eqn:Ef; [|discriminate].
        unfold sha256_file. destruct (read_bytes f) as [content|] eqn:Er;
          [|discriminate].
        cbn [bind]. intros H. apply IH in H as (added & -> & HF).
        eexists (_ :: added). split; [now rewrite <- app_assoc|].
        constructor; [|exact HF]. exists f, content. auto.
      * intros (added & -> & HF). inversion HF as [|? e ? added' He HF']; subst.
        destruct He as (f & content & -> & Hr & ->).
        unfold sha256_file. rewrite Hr. cbn [bind].
        apply IH. exists added'. split; [now rewrite <- app_assoc|exact HF'].
    + rewrite (@gather_entry_skips p acc Hp). cbn [bind]. apply IH.
Qed.

(** X8. [gather_artifacts] returns exactly one entry for each path of the
    listing that is not a directory, not the manifest, not the log and not
    excluded, in the order of the listing, each with the file's relative
    path, inferred kind, digest, size and the given profile; it returns
    only if every such file can be read. *)
Theorem gather_artifacts_lists_each_file_once (entries : list json) :
  Capture.gather_artifacts O fs fixture_dir excludes manifest_path log_path
                           redaction_profile = Ok entries <->
  Forall2 (entry_for O fs fixture_dir redaction_profile)
          (filter (listed O fixture_dir excludes manifest_path log_path)
                  (rglob O fixture_dir))
          entries.
Proof.
  unfold Capture.gather_artifacts. rewrite gather_loop. split.
  - intros (added & -> & H). exact H.
  - intros H. exists entries. auto.
Qed.

(** X9. Entries gathered from a directory validate against that directory:
    when a relative path joined to the directory gives the file back and
    the profile is a known one, every entry [gather_artifacts] returns is
    an object that draws no message from [validate_artifact_entry]. *)
Theorem gathered_entries_validate (entries : list json) :
  (forall p, In p (rglob O fixture_dir) ->
             relative_posix O p fixture_dir <> [] /\
             resolve L fixture_dir (relative_posix O p fixture_dir) = p) ->
  In redaction_profile Fixture.REDACTION_PROFILES ->
  Capture.gather_artifacts O fs fixture_dir excludes manifest_path log_path
                           redaction_profile = Ok entries ->
  Forall (fun e => exists entry,
              e = JDict entry /\
              forall errs, Fixture.validate_artifact_entry L fs entry fixture_dir
                                                           errs = Ok errs)
         entries.
Proof.
  intros Hpath Hprof H.
  unfold Capture.gather_artifacts in H. apply gather_loop in H as (added & -> & H).
  cbn [app].
  assert (Hin : forall p,
             In p (filter (listed O fixture_dir excludes manifest_path log_path)
                          (rglob O fixture_dir)) ->
                          In p (rglob O fixture_dir)).
  { intros p Hp. now apply filter_In in Hp. }
  induction H as [|p e ps es He HF IH]; constructor.
  - destruct He as (f & content & Ef & Er & ->).
    eexists. split; [reflexivity|]. intros errs.
    destruct (Hpath p (Hin p (or_introl eq_refl))) as [Hne Hres].
    apply recorded_artifact_entry_is_silent.
    + exists (relative_posix O p fixture_dir), f, content.
      rewrite Hres. repeat split; auto.
    + apply in_set_true_iff. exists redaction_profile. split; [reflexivity|assumption].
  - apply IH. intros q Hq. apply Hin. now right.
Qed.
End Gathered.

(* ---------------------------------------------------------------- *)
(** ** Values the redactor and the scanner leave alone *)
(* ---------------------------------------------------------------- *)

Section Unmatched.
Variable L : pylib.

Lemma home_needs_slash (before rest : list N) :
  match rest with c :: _ => not_slash c = true | [] => True end ->
  match_here L HOME_RE before rest = None.
Proof.
  unfold match_here, HOME_RE. cbn [Seq rmatch].
  destruct rest as [|c rest]; [reflexivity|].
  unfold not_slash. intros H. apply negb_true_iff in H. now rewrite H.
Qed.

Lemma hex_needs_32 (before rest : list N) :
  (length rest < 32)%nat -> match_here L HEX_RE before rest = None.
Proof.
  unfold match_here, HEX_RE. cbn [Seq rmatch]. intros Hl.
  destruct (at_boundary L before rest); [|reflexivity].
  destruct (rep _ _ _ _ _ _ _) as [r|] eqn:E; [|reflexivity].
  apply rep_sound in E as (a & s' & -> & _ & Hlo & _).
  rewrite length_app in Hl. lia.
Qed.

Lemma uuid_needs_32 (before rest : list N) :
  (length rest < 32)%nat -> match_here L UUID_RE before rest = None.
Proof.
  unfold match_here, UUID_RE, Exactly. cbn [Seq rmatch]. intros Hl.
  destruct (at_boundary L before rest); [|reflexivity].
  destruct (rep _ _ _ _ _ _ _) as [r|] eqn:E; [|reflexivity].
  exfalso.
  apply rep_sound in E as (a1 & s1 & -> & _ & H1 & _ & E).
  destruct s1 as [|x s1]; [discriminate|]. destruct (x =? 45); [|discriminate].
  apply rep_sound in E as (a2 & s2 & -> & _ & H2 & _ & E).
  destruct s2 as [|y s2]; [discriminate|]. destruct (y =? 45); [|discriminate].
  apply rep_sound in E as (a3 & s3 & -> & _ & H3 & _ & E).
  destruct s3 as [|z s3]; [discriminate|]. destruct (z =? 45); [|discriminate].
  apply rep_sound in E as (a4 & s4 & -> & _ & H4 & _ & E).
  destruct s4 as [|w s4]; [discriminate|]. destruct (w =? 45); [|discriminate].
  apply rep_sound in E as (a5 & s5 & -> & _ & H5 & _ & E).
  repeat (rewrite length_app in Hl; cbn [length] in Hl). lia.
Qed.

(** Text none of whose suffixes a pattern matches at. *)
Section NoMatch.
Variable r : regex.
Variable P : list N -> Prop.
Hypothesis P_tail : forall c s, P (c :: s) -> P s.
Hypothesis P_none : forall before s, P s -> match_here L r before s = None.

Lemma search_from_none (rest : list N) :
  forall before, P rest -> search_from L r before rest = None.
Proof.
  induction rest as [|c rest IH]; intros before HP; simpl;
    rewrite (P_none _ HP); [reflexivity|].
  apply IH. eapply P_tail; eauto.
Qed.

Lemma sub_from_none (repl : pystr) (fuel : nat) :
  forall before rest, P rest -> sub_from L fuel r repl before rest = rest.
Proof.
  induction fuel as [|fuel IH]; intros before rest HP; [reflexivity|].
  simpl. rewrite (P_none _ HP).
  destruct rest as [|c rest]; [reflexivity|].
  f_equal. apply IH. eapply P_tail; eauto.
Qed.
End NoMatch.

Lemma short_plain_tail (c : N) (s : list N) : short_plain (c :: s) -> short_plain s.
Proof.
  unfold short_plain. simpl. intros [Hl Hs].
  apply andb_true_iff in Hs as [_ Hs]. split; [lia|assumption].
Qed.

Lemma short_plain_home before s : short_plain s -> match_here L HOME_RE before s = None.
Proof.
  intros [_ Hs]. apply home_needs_slash. destruct s; [exact I|].
  simpl in Hs. now apply andb_true_iff in Hs as [Hc _].
Qed.

Lemma short_plain_uuid before s : short_plain s -> match_here L UUID_RE before s = None.
Proof. intros [Hl _]. now apply uuid_needs_32. Qed.

Lemma short_plain_hex before s : short_plain s -> match_here L HEX_RE before s = None.
Proof. intros [Hl _]. now apply hex_needs_32. Qed.

Lemma short_plain_unredacted (value : pystr) :
  short_plain value -> Capture.redact_cmdline L value = value.
Proof.
  intros H.
  unfold Capture.redact_cmdline, Capture.redact_id, Capture.redact_path, re_sub.
  rewrite (@sub_from_none HOME_RE short_plain short_plain_tail short_plain_home _ _ _ _ H).
  rewrite (@sub_from_none UUID_RE short_plain short_plain_tail short_plain_uuid _ _ _ _ H).
  rewrite (@sub_from_none HEX_RE short_plain short_plain_tail short_plain_hex _ _ _ _ H).
  reflexivity.
Qed.

Lemma short_plain_unflagged (value label : pystr) (errs : errors) :
  short_plain value -> Fixture.check_redaction L value label errs = Ok errs.
Proof.
  intros H. unfold Fixture.check_redaction, re_search.
  rewrite (@search_from_none HOME_RE short_plain short_plain_tail short_plain_home _ _ H).
  rewrite (@search_from_none UUID_RE short_plain short_plain_tail short_plain_uuid _ _ H).
  rewrite (@search_from_none HEX_RE short_plain short_plain_tail short_plain_hex _ _ H).
  reflexivity.
Qed.
End Unmatched.

(** X10. A value of fewer than 32 characters without a slash is returned
    unchanged by [redact_cmdline] and draws no message from
    [check_redaction]. *)
Theorem short_plain_values_pass_unchanged (L : pylib) (value : pystr) :
  (length value < 32)%nat -> forallb not_slash value = true ->
  Capture.redact_cmdline L value = value /\
  forall label errs, Fixture.check_redaction L value label errs = Ok errs.
Proof.
  intros Hl Hs. split.
  - apply short_plain_unredacted. now split.
  - intros label errs. apply short_plain_unflagged. now split.
Qed.

(* ---------------------------------------------------------------- *)
(** ** Manifests the capabilities validator accepts *)
(* ---------------------------------------------------------------- *)

Lemma silent_step (m : result errors) (k : errors -> result errors) :
  (forall e, grows anything e (k e)) ->
  bind m k = Ok [] -> m = Ok [] /\ k [] = Ok [].
Proof.
  intros Hk H. destruct m as [e1|]; [|discriminate]. cbn [bind] in H.
  destruct (Hk _ _ H) as (added & E & _).
  symmetry in E. apply app_eq_nil in E as [-> _]. auto.
Qed.

Lemma silent_step_val {A} (m : result A) (k : A -> result errors) :
  bind m k = Ok [] -> exists a, m = Ok a /\ k a = Ok [].
Proof. apply bind_ok_inv. Qed.

Ltac anything_by lem :=
  eapply grows_weaken; [intros ? _; exact I | apply lem].

Lemma fixture_check_manifest_sha_grows (L : pylib) (manifest : json) (errs : errors) :
  grows anything errs (Fixture.check_manifest_sha L manifest errs).
Proof.
  unfold Fixture.check_manifest_sha. repeat grows_step; exact I.
Qed.

Ltac appends_only L fs :=
  repeat first
    [ grows_step
    | exact I
    | anything_by (schema_grows L)
    | anything_by require_fields_grows
    | anything_by require_field_grows
    | anything_by (check_schema_version_grows L)
    | anything_by (validate_source_grows L)
    | anything_by validate_tool_versions_grows
    | anything_by (validate_artifact_entry_grows L fs)
    | anything_by (validate_file_entry_grows L fs)
    | anything_by (e2e_log_grows L fs)
    | anything_by (e2e_artifact_grows L fs)
    | anything_by e2e_command_grows
    | apply fixture_check_manifest_sha_grows
    | anything_by (e2e_check_manifest_sha_grows L) ].

Lemma dict_get_present (d : dict) (k : pystr) :
  dict_get d k <> JNull -> dict_has d k = true.
Proof.
  unfold dict_get, dict_has. destruct (dict_lookup d k); [reflexivity|congruence].
Qed.

Lemma append_not_silent (msg : pystr) (errs : errors) : append msg errs <> Ok [].
Proof.
  unfold append. intros H. inversion H as [E]. now apply app_eq_nil in E as [_ E'].
Qed.

Lemma append_if_silent (c : bool) (msg : pystr) :
  append_if c msg [] = Ok [] <-> c = false.
Proof.
  unfold append_if. destruct c; split; try reflexivity; discriminate.
Qed.

Lemma schema_silent (L : pylib) (manifest : json) (schema_path : path) :
  validate_schema_with_jsonschema L manifest schema_path [] = Ok [] <->
  jsonschema L schema_path manifest = SchemaUnavailable \/
  jsonschema L schema_path manifest = SchemaValid.
Proof.
  unfold validate_schema_with_jsonschema.
  destruct (jsonschema L schema_path manifest); split; auto;
    try (intros [H|H]; discriminate H);
    try (intros H; now apply append_not_silent in H); discriminate.
Qed.

Lemma require_fields_silent (d : dict) (fields : list pystr) :
  require_fields (JDict d) fields [] = Ok [] <->
  forallb (dict_has d) fields = true.
Proof.
  unfold require_fields. induction fields as [|f fields IH]; [now split|].
  cbn [for_each contains bind forallb]. split.
  - intros H. apply silent_step in H as [H1 H2].
    + apply append_if_silent in H1. apply negb_false_iff in H1.
      rewrite H1. now apply IH.
    + intros e. apply grows_for_each. intros x e' _.
      cbn [contains bind]. apply grows_append_if. intros _. exact I.
  - intros H. apply andb_true_iff in H as [H1 H2].
    rewrite H1. cbn [negb append_if bind]. now apply IH.
Qed.

Section Accepted.
Variable L : pylib.
Variable fs : filesystem.

Lemma capabilities_acceptance (d : dict) (schema_path : path) :
  Capabilities.validate_manifest L (JDict d) schema_path = Ok [] <->
  (jsonschema L schema_path (JDict d) = SchemaUnavailable \/
   jsonschema L schema_path (JDict d) = SchemaValid) /\
  capabilities_well_typed L d.
Proof.
  unfold Capabilities.validate_manifest, capabilities_well_typed. split.
  - intros H.
    apply silent_step in H as [H1 H]; [|intros e; appends_only L fs].
    apply schema_silent in H1.
    apply silent_step in H as [_ H]; [|intros e; appends_only L fs].
    apply silent_step in H as [H2 H]; [|intros e; appends_only L fs].
    apply silent_step in H as [H3 H]; [|intros e; appends_only L fs].
    apply silent_step in H as [H4 H]; [|intros e; appends_only L fs].
    apply silent_step in H as [H5 H]; [|intros e; appends_only L fs].
    apply silent_step in H as [H6 H7]; [|intros e; appends_only L fs].
    split; [assumption|].
    repeat split.
    + unfold check_schema_version in H2.
      destruct (dict_get d (lit "schema_version")); try (now apply append_not_silent in H2).
      eauto.
    + destruct (dict_get d (lit "os")); try (now apply append_not_silent in H3).
      apply append_if_silent, negb_false_iff in H3. eauto.
    + apply append_if_silent, negb_false_iff in H4. exact H4.
    + destruct (dict_get d (lit "user")); try (now apply append_not_silent in H5).
      apply silent_step in H5 as [Ha H5]; [|intros e; appends_only L fs].
      apply silent_step in H5 as [Hb Hc]; [|intros e; appends_only L fs].
      apply append_if_silent, negb_false_iff in Ha, Hb, Hc. eauto.
    + destruct (dict_get d (lit "paths")); try (now apply append_not_silent in H6).
      apply silent_step in H6 as [Ha Hb]; [|intros e; appends_only L fs].
      apply append_if_silent, negb_false_iff in Ha, Hb. eauto.
    + destruct (dict_get d (lit "discovered_at")); try (now apply append_not_silent in H7).
      apply append_if_silent, negb_false_iff in H7. eauto.
  - intros (Hs & (v & Ev & Hv) & (os & Eo & Ho) & Ht & (u & Eu & Hu1 & Hu2 & Hu3)
            & (p & Ep & Hp1 & Hp2) & (t & Et & Ht')).
    apply schema_silent in Hs. rewrite Hs. cbn [bind].
    assert (Hr : require_fields (JDict d) Capabilities.required_fields [] = Ok []).
    { apply require_fields_silent. unfold Capabilities.required_fields.
      cbn [forallb].
      rewrite !dict_get_present; try reflexivity; try congruence.
      destruct (dict_get d (lit "tools")); discriminate. }
    rewrite Hr. cbn [bind].
    unfold check_schema_version. rewrite Ev, Hv. cbn [bind].
    rewrite Eo, Ho. cbn [negb append_if bind].
    rewrite Ht. cbn [negb append_if bind].
    rewrite Eu, Hu1, Hu2, Hu3. cbn [negb append_if bind].
    rewrite Ep, Hp1, Hp2. cbn [negb append_if bind].
    rewrite Et, Ht'. reflexivity.
Qed.

(** X11. The capabilities validator returns no error for an object exactly
    when the schema check passes (or [jsonschema] is not installed) and
    every field it looks at has its type; the presence checks add nothing
    to that. *)
Theorem capabilities_manifest_accepted_iff (d : dict) (schema_path : path) :
  Capabilities.validate_manifest L (JDict d) schema_path = Ok [] <->
  (jsonschema L schema_path (JDict d) = SchemaUnavailable \/
   jsonschema L schema_path (JDict d) = SchemaValid) /\
  capabilities_well_typed L d.
Proof. apply capabilities_acceptance. Qed.
End Accepted.

(* ---------------------------------------------------------------- *)
(** ** Manifests the fixture validator accepts *)
(* ---------------------------------------------------------------- *)

Lemma for_each_silent {A} (body : A -> errors -> result errors) (xs : list A) :
  (forall x e, grows anything e (body x e)) ->
  for_each body xs [] = Ok [] <-> Forall (fun x => body x [] = Ok []) xs.
Proof.
  intros Hb. induction xs as [|x xs IH]; cbn [for_each].
  - split; auto.
  - split.
    + intros H. apply silent_step in H as [H1 H2].
      * constructor; [assumption|]. now apply IH.
      * intros e. apply grows_for_each. intros y e' _. apply Hb.
    + intros H. inversion H as [|? ? H1 H2]; subst.
      rewrite H1. cbn [bind]. now apply IH.
Qed.

Section FixtureAccepted.
Variable L : pylib.
Variable fs : filesystem.

Lemma fixture_sha_silent (d : dict) :
  Fixture.check_manifest_sha L (JDict d) [] = Ok [] <->
  exists data, canonical_manifest_bytes (JDict d) = Ok data /\
               dict_get d (lit "manifest_sha256") = JStr (sha256_bytes data).
Proof.
  split.
  - unfold Fixture.check_manifest_sha.
    destruct (dict_get d (lit "manifest_sha256")) as [| | | |s| |];
      try (intros H; now apply append_not_silent in H).
    destruct (matches (re_match L SHA256_RE s));
      [|intros H; now apply append_not_silent in H].
    destruct (canonical_manifest_bytes (JDict d)) as [data|]; [|discriminate].
    cbn [bind]. intros H. apply append_if_silent, negb_false_iff in H.
    apply str_eqb_eq in H. subst. eauto.
  - intros (data & Hc & Hs). now apply fixture_check_sha_equal with (data := data).
Qed.

Lemma artifact_loop_body_grows (base_dir : path) (x : json) (e : errors) :
  grows anything e
        (match x with
         | JDict entry => Fixture.validate_artifact_entry L fs entry base_dir e
         | _ => append (lit "artifact entry must be object") e
         end).
Proof. appends_only L fs. Qed.

Lemma fixture_accepted (d : dict) (manifest_path schema_path : path) :
  (jsonschema L schema_path (JDict d) = SchemaUnavailable \/
   jsonschema L schema_path (JDict d) = SchemaValid) ->
  fixture_well_formed L fs d (parent L manifest_path) ->
  Fixture.validate_manifest L fs (JDict d) manifest_path schema_path = Ok [].
Proof.
  intros Hs ((v & Ev & Hv) & Hf & Hd & (t & Et & Ht) & (src & Esrc & Hsrc)
             & (tv & Etv & Htv) & (p & Ep & Hp) & (a & others & Ea & Has) & Hsha).
  unfold Fixture.validate_manifest.
  apply schema_silent in Hs. rewrite Hs. cbn [bind].
  assert (Hr : require_fields (JDict d) Fixture.required_fields [] = Ok []).
  { apply require_fields_silent. unfold Fixture.required_fields.
    cbn [forallb]. destruct Hsha as (data & _ & Esha).
    rewrite !dict_get_present; try reflexivity; try congruence.
    - destruct (dict_get d (lit "domain")); discriminate.
    - destruct (dict_get d (lit "fixture_id")); discriminate. }
  rewrite Hr. cbn [bind].
  unfold check_schema_version. rewrite Ev, Hv. cbn [bind].
  rewrite Hf, Hd. cbn [negb append_if bind].
  rewrite Et, Ht. cbn [negb append_if bind].
  rewrite Esrc, Hsrc. cbn [bind].
  rewrite Etv, Htv. cbn [bind].
  rewrite (proj2 (in_set_true_iff _ _) (ex_intro _ p (conj Ep Hp))).
  cbn [negb append_if bind].
  rewrite Ea.
  rewrite (proj2 (for_each_silent _ _ (artifact_loop_body_grows _))).
  - cbn [bind]. now apply fixture_sha_silent.
  - eapply Forall_impl; [|exact Has]. intros e (entry & -> & He). exact He.
Qed.

Lemma fixture_accepted_inv (d : dict) (manifest_path schema_path : path) :
  Fixture.validate_manifest L fs (JDict d) manifest_path schema_path = Ok [] ->
  (jsonschema L schema_path (JDict d) = SchemaUnavailable \/
   jsonschema L schema_path (JDict d) = SchemaValid) /\
  fixture_well_formed L fs d (parent L manifest_path).
Proof.
  unfold Fixture.validate_manifest, fixture_well_formed. intros H.
  apply silent_step in H as [H1 H]; [|intros e; appends_only L fs].
  apply schema_silent in H1.
  apply silent_step in H as [_ H]; [|intros e; appends_only L fs].
  apply silent_step in H as [H2 H]; [|intros e; appends_only L fs].
  apply silent_step in H as [H3 H]; [|intros e; appends_only L fs].
  apply silent_step in H as [H4 H]; [|intros e; appends_only L fs].
  apply silent_step in H as [H5 H]; [|intros e; appends_only L fs].
  apply silent_step in H as [H6 H]; [|intros e; appends_only L fs].
  apply silent_step in H as [H7 H]; [|intros e; appends_only L fs].
  apply silent_step_val in H as (known & H8 & H).
  apply silent_step in H as [H9 H]; [|intros e; appends_only L fs].
  apply silent_step in H as [H10 H11]; [|intros e; appends_only L fs].
  split; [assumption|].
  repeat split.
  - unfold check_schema_version in H2.
    destruct (dict_get d (lit "schema_version")); try (now apply append_not_silent in H2).
    eauto.
  - apply append_if_silent, negb_false_iff in H3. exact H3.
  - apply append_if_silent, negb_false_iff in H4. exact H4.
  - destruct (dict_get d (lit "capture_time")); try (now apply append_not_silent in H5).
    apply append_if_silent, negb_false_iff in H5. eauto.
  - destruct (dict_get d (lit "source")); try (now apply append_not_silent in H6).
    eauto.
  - destruct (dict_get d (lit "tool_versions")); try (now apply append_not_silent in H7).
    eauto.
  - apply append_if_silent, negb_false_iff in H9. subst known.
    now apply in_set_true_iff.
  - destruct (dict_get d (lit "artifacts")) as [| | | | |[|a others]|];
      try (now apply append_not_silent in H10).
    exists a, others. split; [reflexivity|].
    apply for_each_silent in H10; [|apply artifact_loop_body_grows].
    eapply Forall_impl; [|exact H10]. cbn beta.
    intros [| | | | | |entry] He; try (now apply append_not_silent in He).
    eauto.
  - now apply fixture_sha_silent.
Qed.

(** X12. The fixture validator returns no error for an object exactly when the
    schema check passes, every field has its type, [source] and
    [tool_versions] are silent, there is at least one artifact and every
    artifact entry is a silent object, and the stored digest is the digest
    of the canonical bytes. *)
Theorem fixture_manifest_accepted_iff (d : dict) (manifest_path schema_path : path) :
  Fixture.validate_manifest L fs (JDict d) manifest_path schema_path = Ok [] <->
  (jsonschema L schema_path (JDict d) = SchemaUnavailable \/
   jsonschema L schema_path (JDict d) = SchemaValid) /\
  fixture_well_formed L fs d (parent L manifest_path).
Proof.
  split.
  - apply fixture_accepted_inv.
  - intros [Hs Hw]. now apply fixture_accepted.
Qed.
End FixtureAccepted.

(* ---------------------------------------------------------------- *)
(** ** Captured manifests validate *)
(* ---------------------------------------------------------------- *)

Ltac lookup :=
  repeat first [ rewrite dict_get_set
               | rewrite dict_get_set_other by reflexivity ];
  reflexivity.

Section Captured.
Variable L : pylib.
Variable fs : filesystem.

Lemma current_version_accepted (errs : errors) :
  validate_version L Capture.SCHEMA_VERSION errs = Ok errs.
Proof. reflexivity. Qed.

Lemma scan_unflagged (key : pystr) (l : list pystr) :
  Forall (unflagged L) l ->
  forall start errs,
    for_enumerate (Fixture.source_item L key) start (List.map JStr l) errs
    = Ok errs.
Proof.
  induction 1 as [|v l Hv Hl IH]; intros start errs; [reflexivity|].
  cbn [List.map for_enumerate]. unfold Fixture.source_item at 1.
  rewrite Hv. cbn [bind]. apply IH.
Qed.

Lemma built_source_silent (origin : pystr) (command source_paths : option (list pystr)) :
  origin <> [] ->
  Forall (fun v => unflagged L (Capture.redact_cmdline L v))
         (values_of command ++ values_of source_paths) ->
  Fixture.validate_source L
    (let source : dict := [(lit "origin", JStr origin)] in
     let source :=
       match command with
       | Some ((_ :: _) as command) =>
           dict_set source (lit "command")
                    (Capture.str_list (Capture.redact_values L command))
       | _ => source
       end in
     match source_paths with
     | Some ((_ :: _) as source_paths) =>
         dict_set source (lit "paths")
                  (Capture.str_list (Capture.redact_values L source_paths))
     | _ => source
     end) [] = Ok [].
Proof.
  intros Ho Hv. apply Forall_app in Hv as [Hc Hp].
  assert (Hc' : Forall (unflagged L) (Capture.redact_values L (values_of command))).
  { unfold Capture.redact_values. now apply Forall_map. }
  assert (Hp' : Forall (unflagged L) (Capture.redact_values L (values_of source_paths))).
  { unfold Capture.redact_values. now apply Forall_map. }
  cbv zeta. unfold Fixture.validate_source.
  set (S := match source_paths with Some (_ :: _ as sp) => _ | _ => _ end).
  assert (Eo : dict_get S (lit "origin") = JStr origin).
  { subst S. destruct command as [[|? ?]|], source_paths as [[|? ?]|]; lookup. }
  assert (En : dict_get S (lit "notes") = JNull).
  { subst S. destruct command as [[|? ?]|], source_paths as [[|? ?]|]; lookup. }
  assert (Ec : dict_get S (lit "command") = JNull \/
               dict_get S (lit "command")
               = JList (List.map JStr (Capture.redact_values L (values_of command)))).
  { subst S. destruct command as [[|? ?]|], source_paths as [[|? ?]|];
      try (left; lookup); right; unfold Capture.str_list, values_of; lookup. }
  assert (Ep : dict_get S (lit "paths") = JNull \/
               dict_get S (lit "paths")
               = JList (List.map JStr (Capture.redact_values L (values_of source_paths)))).
  { subst S. destruct command as [[|? ?]|], source_paths as [[|? ?]|];
      try (left; lookup); right; unfold Capture.str_list, values_of; lookup. }
  clearbody S.
  rewrite Eo, En. cbn [is_str truthy negb orb].
  destruct origin; [congruence|]. cbn [negb append_if bind for_each].
  unfold Fixture.source_key.
  destruct Ec as [-> | ->], Ep as [-> | ->];
    repeat (cbn [bind for_each append_if]; rewrite ?scan_unflagged by assumption);
    reflexivity.
Qed.

(** X13. A manifest [build_manifest] returns is accepted by the fixture
    validator when the capture time parses, the origin is not empty, the
    redacted command and paths are not flagged, the tool versions and the
    profile are valid and the artifacts are non-empty and silent. *)
Theorem built_manifest_is_accepted
        (fixture_id domain : pystr) (description : option pystr)
        (capture_time origin : pystr)
        (command source_paths : option (list pystr))
        (tool_versions : dict) (redaction_profile : pystr)
        (artifacts : list json) (m : json)
        (manifest_path schema_path : path) :
  Capture.build_manifest L fixture_id domain description capture_time origin
                         command source_paths tool_versions redaction_profile
                         artifacts = Ok m ->
  (jsonschema L schema_path m = SchemaUnavailable \/
   jsonschema L schema_path m = SchemaValid) ->
  parse_rfc3339 L capture_time = true ->
  origin <> [] ->
  Forall (fun v => unflagged L (Capture.redact_cmdline L v))
         (values_of command ++ values_of source_paths) ->
  Fixture.validate_tool_versions tool_versions [] = Ok [] ->
  In redaction_profile Fixture.REDACTION_PROFILES ->
  artifacts <> [] ->
  Forall (fun e => exists entry,
              e = JDict entry /\
              Fixture.validate_artifact_entry L fs entry
                                              (parent L manifest_path) []
              = Ok [])
         artifacts ->
  Fixture.validate_manifest L fs m manifest_path schema_path = Ok [].
Proof.
  intros Hb Hs Ht Ho Hv Htv Hp Hne Ha.
  pose proof (build_manifest_closed L _ _ _ _ _ _ _ _ _ _ Hb)
    as (d & data & -> & Esha & Hc).
  unfold Capture.build_manifest in Hb. cbv zeta in Hb.
  apply bind_ok_inv in Hb as (data' & _ & Hb).
  injection Hb as Ed.
  assert (E1 : dict_get d (lit "schema_version") = JStr Capture.SCHEMA_VERSION)
    by (subst d; destruct description as [[|? ?]|]; reflexivity).
  assert (E2 : dict_get d (lit "fixture_id") = JStr fixture_id)
    by (subst d; destruct description as [[|? ?]|]; reflexivity).
  assert (E3 : dict_get d (lit "domain") = JStr domain)
    by (subst d; destruct description as [[|? ?]|]; reflexivity).
  assert (E4 : dict_get d (lit "capture_time") = JStr capture_time)
    by (subst d; destruct description as [[|? ?]|]; reflexivity).
  assert (E5 : dict_get d (lit "source") =
               JDict
                 (let source : dict := [(lit "origin", JStr origin)] in
                  let source :=
                    match command with
                    | Some ((_ :: _) as command) =>
                        dict_set source (lit "command")
                                 (Capture.str_list
                                    (Capture.redact_values L command))
                    | _ => source
                    end in
                  match source_paths with
                  | Some ((_ :: _) as source_paths) =>
                      dict_set source (lit "paths")
                               (Capture.str_list
                                  (Capture.redact_values L source_paths))
                  | _ => source
                  end))
    by (subst d; destruct description as [[|? ?]|]; reflexivity).
  assert (E6 : dict_get d (lit "tool_versions") = JDict tool_versions)
    by (subst d; destruct description as [[|? ?]|]; reflexivity).
  assert (E7 : dict_get d (lit "redaction_profile") = JStr redaction_profile)
    by (subst d; destruct description as [[|? ?]|]; reflexivity).
  assert (E8 : dict_get d (lit "artifacts") = JList artifacts)
    by (subst d; destruct description as [[|? ?]|]; reflexivity).
  clear Ed.
  apply fixture_accepted; [exact Hs|].
  unfold fixture_well_formed. rewrite E1, E2, E3, E4, E5, E6, E7, E8.
  split; [|split; [|split; [|split; [|split; [|split; [|split; [|split]]]]]]].
  - exists Capture.SCHEMA_VERSION. split; [reflexivity|apply current_version_accepted].
  - reflexivity.
  - reflexivity.
  - eexists. split; [reflexivity|exact Ht].
  - eexists. split; [reflexivity|]. now apply built_source_silent.
  - eexists. split; [reflexivity|exact Htv].
  - eexists. split; [reflexivity|exact Hp].
  - destruct artifacts as [|a others]; [congruence|].
    exists a, others. split; [reflexivity|exact Ha].
  - exists data. split; [exact Hc|exact Esha].
Qed.
End Captured.

(* ---------------------------------------------------------------- *)
(** ** A profile that cannot be hashed *)
(* ---------------------------------------------------------------- *)

Lemma returns_ok {A} (a : A) : returns (Ok a).
Proof. now exists a. Qed.

Lemma returns_append msg errs : returns (append msg errs).
Proof. unfold append. apply returns_ok. Qed.

Lemma returns_append_if c msg errs : returns (append_if c msg errs).
Proof. unfold append_if. destruct c; [apply returns_append|apply returns_ok]. Qed.

Lemma returns_bind {A B} (m : result A) (k : A -> result B) :
  returns m -> (forall a, returns (k a)) -> returns (bind m k).
Proof. intros [a ->] Hk. apply Hk. Qed.

Lemma returns_for_each {A} (body : A -> errors -> result errors) xs :
  (forall x e, returns (body x e)) -> forall errs, returns (for_each body xs errs).
Proof.
  intros Hb. induction xs as [|x xs IH]; intros errs; cbn [for_each].
  - apply returns_ok.
  - apply returns_bind; [apply Hb|apply IH].
Qed.

Lemma returns_for_enumerate {A} (body : nat -> A -> errors -> result errors) xs :
  (forall i x e, returns (body i x e)) ->
  forall start errs, returns (for_enumerate body start xs errs).
Proof.
  intros Hb. induction xs as [|x xs IH]; intros start errs; cbn [for_enumerate].
  - apply returns_ok.
  - apply returns_bind; [apply Hb|intros; apply IH].
Qed.

Ltac returns_step :=
  match goal with
  | |- returns (Ok _) => apply returns_ok
  | |- returns (append _ _) => apply returns_append
  | |- returns (append_if _ _ _) => apply returns_append_if
  | |- returns (for_each _ _ _) => apply returns_for_each; intros ? ?
  | |- returns (for_enumerate _ _ _ _) => apply returns_for_enumerate; intros ? ? ?
  | |- returns (bind _ _) => apply returns_bind; [|intros ?]
  | |- returns (match ?x with _ => _ end) => destruct x
  | |- returns (if ?x then _ else _) => destruct x
  | |- returns (let (_, _) := ?x in _) => destruct x
  end.

Lemma bind_after_return {A B} (m : result A) (k : A -> result B) (r : result B) :
  returns m -> (forall a, k a = r) -> bind m k = r.
Proof. intros [a ->] Hk. apply Hk. Qed.

Section Unhashable.
Variable L : pylib.
Variable fs : filesystem.

Lemma validate_version_returns version errs :
  returns (validate_version L version errs).
Proof. unfold validate_version. repeat returns_step. Qed.

Lemma check_schema_version_returns d errs :
  returns (check_schema_version L d errs).
Proof.
  unfold check_schema_version.
  destruct (dict_get d (lit "schema_version"));
    try apply returns_append. apply validate_version_returns.
Qed.

Lemma check_redaction_returns value label errs :
  returns (Fixture.check_redaction L value label errs).
Proof. unfold Fixture.check_redaction. repeat returns_step. Qed.

Lemma validate_source_returns source errs :
  returns (Fixture.validate_source L source errs).
Proof.
  unfold Fixture.validate_source, Fixture.source_key, Fixture.source_item.
  repeat first [returns_step | apply check_redaction_returns].
Qed.

Lemma validate_tool_versions_returns tool_versions errs :
  returns (Fixture.validate_tool_versions tool_versions errs).
Proof. unfold Fixture.validate_tool_versions. repeat returns_step. Qed.

Lemma require_fields_of_object_return d fields errs :
  returns (require_fields (JDict d) fields errs).
Proof.
  unfold require_fields. apply returns_for_each. intros x e.
  cbn [contains bind]. apply returns_append_if.
Qed.

Lemma schema_returns manifest schema_path errs :
  (forall message,
      jsonschema L schema_path manifest <> SchemaSystemExit message) ->
  returns (validate_schema_with_jsonschema L manifest schema_path errs).
Proof.
  unfold validate_schema_with_jsonschema. intros H.
  destruct (jsonschema L schema_path manifest);
    try apply returns_ok; try apply returns_append.
  now specialize (H message).
Qed.

(** X14. A [redaction_profile] that is a JSON array or object cannot be looked
    up in the set of profiles: the fixture validator raises [TypeError]
    instead of returning errors. *)
Theorem fixture_validator_raises_on_unhashable_profile
        (d : dict) (manifest_path schema_path : path) :
  hashable (dict_get d (lit "redaction_profile")) = false ->
  (forall message,
      jsonschema L schema_path (JDict d) <> SchemaSystemExit message) ->
  Fixture.validate_manifest L fs (JDict d) manifest_path schema_path
  = Raise TypeError.
Proof.
  intros Hh Hs. unfold Fixture.validate_manifest.
  apply bind_after_return; [now apply schema_returns|intros e0].
  apply bind_after_return; [apply require_fields_of_object_return|intros e1].
  apply bind_after_return; [apply check_schema_version_returns|intros e2].
  apply bind_after_return; [apply returns_append_if|intros e3].
  apply bind_after_return; [apply returns_append_if|intros e4].
  apply bind_after_return; [repeat returns_step|intros e5].
  apply bind_after_return;
    [destruct (dict_get d (lit "source"));
     try apply returns_append; apply validate_source_returns|intros e6].
  apply bind_after_return;
    [destruct (dict_get d (lit "tool_versions"));
     try apply returns_append; apply validate_tool_versions_returns|intros e7].
  unfold in_set. rewrite Hh. reflexivity.
Qed.
End Unhashable.

(* ---------------------------------------------------------------- *)
(** ** Text that cannot be encoded *)
(* ---------------------------------------------------------------- *)

Lemma encodable_json_list (l : list json) :
  encodable_json (JList l) = forallb encodable_json l.
Proof. induction l as [|x l IH]; [reflexivity|]. cbn. now rewrite <- IH. Qed.

Lemma encodable_json_dict (d : dict) :
  encodable_json (JDict d)
  = forallb (fun kv => forallb encodable (fst kv) && encodable_json (snd kv)) d.
Proof.
  induction d as [|[k v] d IH]; [reflexivity|].
  cbn [forallb fst snd]. rewrite <- IH. reflexivity.
Qed.

Lemma small_encodable (c : N) : c < 0xD800 -> encodable c = true.
Proof.
  intros H. unfold encodable, in_range. apply negb_true_iff.
  apply andb_false_iff. left. apply N.leb_gt. exact H.
Qed.

Lemma utf8_char_encodable (c : N) :
  encodable c = true -> exists b, utf8_char c = Ok b.
Proof.
  unfold utf8_char, encodable. intros H. apply negb_true_iff in H. rewrite H.
  destruct (c <? 128); [eauto|]. destruct (c <? 2048); [eauto|].
  destruct (c <? 65536); eauto.
Qed.

Lemma utf8_char_surrogate (c : N) :
  encodable c = false -> utf8_char c = Raise UnicodeEncodeError.
Proof.
  unfold utf8_char, encodable. intros H. apply negb_false_iff in H. rewrite H.
  unfold in_range in H. apply andb_true_iff in H as [H _]. apply N.leb_le in H.
  destruct (N.ltb_spec c 128); [lia|]. destruct (N.ltb_spec c 2048); [lia|].
  reflexivity.
Qed.

Lemma utf8_encode_encodable (s : pystr) :
  forallb encodable s = true -> exists b, utf8_encode s = Ok b.
Proof.
  induction s as [|c s IH]; [now exists []|].
  cbn [forallb utf8_encode]. intros H. apply andb_true_iff in H as [Hc Hs].
  destruct (utf8_char_encodable _ Hc) as [b ->].
  destruct (IH Hs) as [bs ->]. cbn [bind]. eauto.
Qed.

Lemma utf8_encode_surrogate (s : pystr) :
  forallb encodable s = false -> utf8_encode s = Raise UnicodeEncodeError.
Proof.
  induction s as [|c s IH]; [discriminate|].
  cbn [forallb utf8_encode]. intros H.
  destruct (encodable c) eqn:Hc.
  - destruct (utf8_char_encodable _ Hc) as [b ->]. cbn [bind].
    rewrite IH; [reflexivity|exact H].
  - now rewrite utf8_char_surrogate.
Qed.

Lemma lit_encodable (x : string) : forallb encodable (lit x) = true.
Proof.
  unfold lit. induction x as [|a x IH]; [reflexivity|].
  cbn [list_ascii_of_string List.map forallb]. rewrite IH, andb_true_r.
  apply small_encodable. pose proof (N_ascii_bounded a). lia.
Qed.

Lemma hex_digit_encodable (x : N) : encodable (Sha256.hex_digit x) = true.
Proof.
  apply small_encodable. pose proof (hex_lower_hex_digit x) as H.
  unfold hex_lower, in_range in H.
  apply orb_true_iff in H as [H|H]; apply andb_true_iff in H as [_ H];
    apply N.leb_le in H; lia.
Qed.

Lemma escape_char_encodable (c : N) :
  forallb encodable (escape_char c) = encodable c.
Proof.
  unfold escape_char.
  destruct (N.eqb_spec c 92); [subst; reflexivity|].
  destruct (N.eqb_spec c 34); [subst; reflexivity|].
  destruct (N.eqb_spec c 8); [subst; reflexivity|].
  destruct (N.eqb_spec c 12); [subst; reflexivity|].
  destruct (N.eqb_spec c 10); [subst; reflexivity|].
  destruct (N.eqb_spec c 13); [subst; reflexivity|].
  destruct (N.eqb_spec c 9); [subst; reflexivity|].
  destruct (N.ltb_spec c 32).
  - rewrite forallb_app, lit_encodable. cbn [forallb].
    rewrite !hex_digit_encodable. symmetry. apply small_encodable. lia.
  - cbn [forallb]. apply andb_true_r.
Qed.

Lemma encode_basestring_encodable (s : pystr) :
  forallb encodable (encode_basestring s) = forallb encodable s.
Proof.
  unfold encode_basestring. rewrite !forallb_app. cbn [forallb].
  change (encodable 34) with true. cbn [andb]. rewrite andb_true_r.
  induction s as [|c s IH]; [reflexivity|].
  cbn [flat_map forallb]. rewrite forallb_app, escape_char_encodable. now rewrite IH.
Qed.

Lemma join_forallb (p : N -> bool) (sep : pystr) (parts : list pystr) :
  forallb p sep = true ->
  forallb p (join sep parts) = forallb (forallb p) parts.
Proof.
  intros Hs. induction parts as [|x parts IH]; [reflexivity|].
  destruct parts as [|y parts].
  - cbn [join forallb]. now rewrite andb_true_r.
  - change (join sep (x :: y :: parts)) with (x ++ sep ++ join sep (y :: parts)).
    rewrite !forallb_app, Hs, IH. reflexivity.
Qed.

Lemma forallb_perm {A} (p : A -> bool) (l l' : list A) :
  Permutation l l' -> forallb p l = forallb p l'.
Proof.
  induction 1; cbn [forallb]; try congruence.
  - now rewrite !andb_assoc, (andb_comm (p y)).
Qed.

Lemma forallb_over_map {A B} (p : B -> bool) (f : A -> B) (l : list A) :
  forallb p (List.map f l) = forallb (fun x => p (f x)) l.
Proof.
  induction l as [|x l IH]; [reflexivity|]. cbn [List.map forallb]. now rewrite IH.
Qed.

Lemma floatstr_encodable (r : pystr) :
  forallb encodable (floatstr r) = forallb encodable r.
Proof.
  unfold floatstr.
  destruct (str_eqb r (lit "nan")) eqn:E1;
    [apply str_eqb_eq in E1; subst; reflexivity|].
  destruct (str_eqb r (lit "inf")) eqn:E2;
    [apply str_eqb_eq in E2; subst; reflexivity|].
  destruct (str_eqb r (lit "-inf")) eqn:E3;
    [apply str_eqb_eq in E3; subst; reflexivity|].
  reflexivity.
Qed.

Lemma dumps_encodable (j : json) :
  forallb encodable (dumps j) = encodable_json j.
Proof.
  induction j as [| b | n | r | s | l IH | d IH] using json_induction.
  - reflexivity.
  - destruct b; reflexivity.
  - cbn [dumps encodable_json]. unfold str_of_Z. apply lit_encodable.
  - cbn [dumps encodable_json]. apply floatstr_encodable.
  - cbn [dumps encodable_json]. apply encode_basestring_encodable.
  - rewrite dumps_list, encodable_json_list.
    rewrite !forallb_app, !lit_encodable, andb_true_r. cbn [andb].
    rewrite join_forallb by apply lit_encodable.
    induction IH as [|x l Hx Hl IHl]; [reflexivity|].
    cbn [List.map forallb]. now rewrite Hx, IHl.
  - rewrite dumps_dict, encodable_json_dict.
    rewrite !forallb_app, !lit_encodable, andb_true_r. cbn [andb].
    rewrite join_forallb by apply lit_encodable.
    rewrite forallb_over_map.
    rewrite <- (forallb_perm _ (sort_items_perm (encoded_items d))).
    unfold encoded_items. rewrite forallb_over_map.
    induction IH as [|[k v] d' Hx Hl IHl]; [reflexivity|].
    cbn [forallb fst snd]. rewrite IHl. f_equal.
    unfold dump_item. cbn [fst snd].
    rewrite !forallb_app, encode_basestring_encodable, lit_encodable.
    cbn [andb]. cbn [snd] in Hx. now rewrite Hx.
Qed.

(** X15. [canonical_manifest_bytes] returns exactly when no string of the
    manifest, [manifest_sha256] apart, holds a surrogate code point;
    otherwise it raises [UnicodeEncodeError]. *)
Theorem canonical_bytes_need_encodable_text (d : dict) :
  (encodable_json (JDict (dict_pop d (lit "manifest_sha256"))) = true ->
   exists data, canonical_manifest_bytes (JDict d) = Ok data) /\
  (encodable_json (JDict (dict_pop d (lit "manifest_sha256"))) = false ->
   canonical_manifest_bytes (JDict d) = Raise UnicodeEncodeError).
Proof.
  unfold canonical_manifest_bytes. rewrite <- dumps_encodable. split.
  - apply utf8_encode_encodable.
  - apply utf8_encode_surrogate.
Qed.

(* ---------------------------------------------------------------- *)
(** ** The lines of a JSONL log *)
(* ---------------------------------------------------------------- *)

Lemma quiet_step (errs : errors) (m : result errors) (k : errors -> result errors) :
  grows anything errs m -> (forall e, grows anything e (k e)) ->
  bind m k = Ok errs -> m = Ok errs /\ k errs = Ok errs.
Proof.
  intros Hm Hk H. destruct m as [e1|]; [|discriminate]. cbn [bind] in H.
  destruct (Hm _ eq_refl) as (a1 & -> & _).
  destruct (Hk _ _ H) as (a2 & E & _).
  assert (a1 = []).
  { apply (f_equal (@length _)) in E. rewrite !length_app in E.
    destruct a1; [reflexivity|]. simpl in E. lia. }
  subst a1. rewrite app_nil_r in *. auto.
Qed.

Section JsonlLines.
Variable L : pylib.
Variable fs : filesystem.

Lemma jsonl_line_grows path_value run_id idx line errs :
  grows anything errs (E2E.jsonl_line L path_value run_id idx line errs).
Proof. unfold E2E.jsonl_line. repeat grows_step; exact I. Qed.

Lemma eq_str_true (j : json) (s : pystr) : eq_str j s = true <-> j = JStr s.
Proof.
  destruct j; simpl; split; try discriminate.
  - intros H. apply str_eqb_eq in H. now subst.
  - intros H. inversion H. apply str_eqb_refl.
Qed.

Lemma jsonl_line_quiet path_value run_id idx line errs :
  E2E.jsonl_line L path_value run_id idx line errs = Ok errs <->
  line_agrees L run_id line.
Proof.
  unfold E2E.jsonl_line, line_agrees.
  destruct (strip line) as [|c s] eqn:Es.
  - split; auto.
  - split.
    + destruct (json_loads L (c :: s)) as [[| | | | | |payload]|];
        try discriminate; try (intros H; absurd_growth H).
      destruct (eq_str (dict_get payload (lit "run_id")) run_id) eqn:E.
      * intros _. right. exists payload. split; [reflexivity|].
        now apply eq_str_true.
      * intros H. absurd_growth H.
    + intros [H|(payload & -> & Hr)]; [discriminate|].
      rewrite Hr. cbn [eq_str]. now rewrite str_eqb_refl.
Qed.

Lemma jsonl_lines_quiet path_value run_id (lines : list pystr) :
  forall start errs,
    for_enumerate (E2E.jsonl_line L path_value run_id) start lines errs = Ok errs
    <-> Forall (line_agrees L run_id) lines.
Proof.
  induction lines as [|line lines IH]; intros start errs; cbn [for_enumerate].
  - split; auto.
  - split.
    + intros H. apply quiet_step in H as [H1 H2].
      * constructor; [now apply jsonl_line_quiet in H1|]. now apply IH in H2.
      * apply jsonl_line_grows.
      * intros e. apply grows_for_enumerate. intros. apply jsonl_line_grows.
    + intros H. inversion H as [|? ? H1 H2]; subst.
      rewrite (proj2 (jsonl_line_quiet _ _ _ _ _) H1). cbn [bind]. now apply IH.
Qed.

(** X16. The JSONL check of a log that exists adds no message exactly when the
    file can be read to its end and every line is blank or an object whose
    [run_id] is the manifest's. *)
Theorem validate_jsonl_run_id_silent_iff
        (entry : dict) (base_dir : path) (run_id path_value : pystr)
        (f : file) (errs : errors) :
  dict_get entry (lit "path") = JStr path_value -> path_value <> [] ->
  fs (resolve L base_dir path_value) = Some f ->
  (E2E.validate_jsonl_run_id L fs entry base_dir run_id errs = Ok errs <->
   Forall (line_agrees L run_id) (read_lines f) /\ read_fails f = None).
Proof.
  intros Hp Hne Hf. unfold E2E.validate_jsonl_run_id. rewrite Hp.
  destruct path_value as [|c pv]; [congruence|]. rewrite Hf. split.
  - intros H.
    destruct (for_enumerate _ 1 (read_lines f) errs) as [e1|] eqn:E;
      [|discriminate].
    cbn [bind] in H. destruct (read_fails f); [discriminate|].
    inversion H; subst e1. split; [|reflexivity].
    now apply jsonl_lines_quiet in E.
  - intros [Hl Hr].
    rewrite (proj2 (jsonl_lines_quiet _ _ _ _ _) Hl). cbn [bind]. now rewrite Hr.
Qed.

Lemma jsonl_line_returns path_value run_id idx line errs :
  ~ not_an_object L line ->
  returns (E2E.jsonl_line L path_value run_id idx line errs).
Proof.
  unfold E2E.jsonl_line, not_an_object. intros H.
  destruct (strip line) as [|c s]; [apply returns_ok|].
  destruct (json_loads L (c :: s)) as [payload|]; [|apply returns_append].
  destruct payload; try apply returns_append_if;
    exfalso; apply H; eexists; repeat split; discriminate.
Qed.

Lemma jsonl_line_raises path_value run_id idx line errs :
  not_an_object L line ->
  E2E.jsonl_line L path_value run_id idx line errs = Raise AttributeError.
Proof.
  unfold E2E.jsonl_line. intros (payload & Hs & Hl & Hd).
  destruct (strip line); [congruence|]. rewrite Hl.
  destruct payload; try reflexivity; discriminate.
Qed.

Lemma jsonl_lines_raise path_value run_id (before : list pystr) :
  forall line after start errs,
    Forall (fun l => ~ not_an_object L l) before -> not_an_object L line ->
    for_enumerate (E2E.jsonl_line L path_value run_id) start
                  (before ++ line :: after) errs
    = Raise AttributeError.
Proof.
  induction before as [|l before IH]; intros line after start errs Hb Hl.
  - cbn [app for_enumerate]. now rewrite jsonl_line_raises.
  - inversion Hb as [|? ? H1 H2]; subst. cbn [app for_enumerate].
    apply bind_after_return; [now apply jsonl_line_returns|].
    intros e. now apply IH.
Qed.

(** X17. The first line of a log that is JSON but not an object ends the JSONL
    check with [AttributeError]. *)
Theorem jsonl_check_raises_on_non_object_line
        (entry : dict) (base_dir : path) (run_id path_value : pystr)
        (f : file) (before : list pystr) (line : pystr) (after : list pystr)
        (errs : errors) :
  dict_get entry (lit "path") = JStr path_value -> path_value <> [] ->
  fs (resolve L base_dir path_value) = Some f ->
  read_lines f = before ++ line :: after ->
  Forall (fun l => ~ not_an_object L l) before -> not_an_object L line ->
  E2E.validate_jsonl_run_id L fs entry base_dir run_id errs
  = Raise AttributeError.
Proof.
  intros Hp Hne Hf Hl Hb Hn. unfold E2E.validate_jsonl_run_id. rewrite Hp.
  destruct path_value as [|c pv]; [congruence|]. rewrite Hf, Hl.
  now rewrite jsonl_lines_raise.
Qed.
End JsonlLines.

(* ---------------------------------------------------------------- *)
(** ** The command line of the capabilities validator *)
(* ---------------------------------------------------------------- *)

Section Mains.
Variable L : pylib.
Variable O : oslib.
Variable fs : filesystem.

Lemma capabilities_validates_objects_only (manifest : json) (schema_path : path)
      (errs : errors) :
  Capabilities.validate_manifest L manifest schema_path = Ok errs ->
  exists d, manifest = JDict d.
Proof.
  unfold Capabilities.validate_manifest. intros H.
  apply bind_ok_inv in H as (e0 & _ & H).
  apply bind_ok_inv in H as (e1 & _ & H).
  destruct manifest; try discriminate. eauto.
Qed.

Lemma load_json_ok (p : path) (manifest : json) :
  load_json L O fs p = Ok manifest <->
  exists f, fs p = Some f /\ read_fails f = None /\
            json_loads L (concat (read_lines f)) = Some manifest.
Proof.
  unfold load_json. split.
  - destruct (fs p) as [f|]; [|discriminate].
    destruct (read_fails f) eqn:Er; [discriminate|].
    destruct (json_loads L (concat (read_lines f))) eqn:El; [|discriminate].
    intros H. inversion H; subst. eauto.
  - intros (f & -> & -> & ->). reflexivity.
Qed.

(** X18. [main] of the capabilities validator returns status 0 exactly when
    the manifest file exists, can be read, holds a JSON object, and that
    object is accepted. *)
Theorem capabilities_main_succeeds_iff (manifest_path schema_path : path) :
  (exists out, Capabilities.main L O fs manifest_path schema_path = Ok out /\
               status out = 0%Z) <->
  exists f d,
    fs manifest_path = Some f /\ read_fails f = None /\
    json_loads L (concat (read_lines f)) = Some (JDict d) /\
    (jsonschema L schema_path (JDict d) = SchemaUnavailable \/
     jsonschema L schema_path (JDict d) = SchemaValid) /\
    capabilities_well_typed L d.
Proof.
  unfold Capabilities.main. split.
  - intros (out & H & Hs).
    apply bind_ok_inv in H as (manifest & Hl & H).
    apply bind_ok_inv in H as (errs & Hv & H).
    destruct (capabilities_validates_objects_only _ _ Hv) as [d ->].
    apply load_json_ok in Hl as (f & Hf & Hr & Hj).
    destruct errs as [|e errs].
    + apply capabilities_acceptance in Hv as [H1 H2].
      exists f, d. auto.
    + inversion H; subst out. discriminate Hs.
  - intros (f & d & Hf & Hr & Hj & Hs & Hw).
    rewrite (proj2 (load_json_ok _ _) (ex_intro _ f (conj Hf (conj Hr Hj)))).
    cbn [bind].
    rewrite (proj2 (capabilities_acceptance L d schema_path) (conj Hs Hw)).
    cbn [bind]. eexists. split; reflexivity.
Qed.

End Mains.

(* ---------------------------------------------------------------- *)
(** ** Manifests the end-to-end validator accepts *)
(* ---------------------------------------------------------------- *)

Lemma for_enumerate_silent {A} (body : nat -> A -> errors -> result errors)
      (ok : A -> Prop) (xs : list A) :
  (forall i x e, grows anything e (body i x e)) ->
  (forall i x, body i x [] = Ok [] <-> ok x) ->
  forall start, for_enumerate body start xs [] = Ok [] <-> Forall ok xs.
Proof.
  intros Hb Hok. induction xs as [|x xs IH]; intros start; cbn [for_enumerate].
  - split; auto.
  - split.
    + intros H. apply silent_step in H as [H1 H2].
      * constructor; [now apply Hok in H1|]. now apply IH in H2.
      * intros e. apply grows_for_enumerate. intros. apply Hb.
    + intros H. inversion H as [|? ? H1 H2]; subst.
      rewrite (proj2 (Hok _ _) H1). cbn [bind]. now apply IH.
Qed.

Section E2EAccepted.
Variable L : pylib.
Variable fs : filesystem.

Lemma command_entry_silent (idx : nat) (e : json) :
  E2E.command_entry idx e [] = Ok [] <-> command_well_formed e.
Proof.
  unfold E2E.command_entry, command_well_formed. split.
  - destruct e as [| | | | | |entry]; try (intros H; now apply append_not_silent in H).
    intros H.
    apply silent_step in H as [H1 H]; [|intros e; appends_only L fs].
    apply silent_step in H as [H2 H3]; [|intros e; appends_only L fs].
    apply append_if_silent, negb_false_iff in H1, H2, H3.
    destruct (dict_get entry (lit "argv")) as [| | | | |[|a argv]|] eqn:Ea;
      try discriminate.
    exists entry, a, argv. repeat split; assumption.
  - intros (entry & a & argv & -> & -> & Ha & -> & ->). rewrite Ha. reflexivity.
Qed.

Lemma e2e_sha_silent (d : dict) :
  E2E.check_manifest_sha L (JDict d) [] = Ok [] <->
  exists data, canonical_manifest_bytes (JDict d) = Ok data /\
               dict_get d (lit "manifest_sha256") = JStr (sha256_bytes data).
Proof.
  unfold E2E.check_manifest_sha. split.
  - destruct (dict_get d (lit "manifest_sha256")) as [| | | |s| |];
      try (intros H; now apply append_not_silent in H).
    intros H.
    apply silent_step in H as [_ H]; [|intros e; appends_only L fs].
    destruct (canonical_manifest_bytes (JDict d)) as [data|]; [|discriminate].
    cbn [bind] in H. apply append_if_silent, negb_false_iff in H.
    apply str_eqb_eq in H. subst. eauto.
  - intros (data & -> & ->). unfold sha256_bytes.
    rewrite hexdigest_well_formed. cbn [negb append_if bind].
    now rewrite str_eqb_refl.
Qed.

Lemma require_field_loop_silent (d : dict) (fields : list pystr) :
  for_each (E2E.require_field (JDict d)) fields [] = Ok [] <->
  forallb (dict_has d) fields = true.
Proof.
  rewrite for_each_silent by (intros; appends_only L fs).
  rewrite forallb_forall, Forall_forall.
  unfold E2E.require_field. cbn [contains bind].
  split; intros H x Hx; specialize (H x Hx).
  - now apply append_if_silent, negb_false_iff in H.
  - now rewrite H.
Qed.

Lemma e2e_acceptance (d : dict) (manifest_path schema_path : path) :
  E2E.validate_manifest L fs (JDict d) manifest_path schema_path = Ok [] <->
  (jsonschema L schema_path (JDict d) = SchemaUnavailable \/
   jsonschema L schema_path (JDict d) = SchemaValid) /\
  e2e_well_formed L fs d (parent L manifest_path).
Proof.
  unfold E2E.validate_manifest, e2e_well_formed. split.
  - intros H.
    apply silent_step in H as [H1 H]; [|intros e; appends_only L fs].
    apply schema_silent in H1.
    apply silent_step in H as [H0 H]; [|intros e; appends_only L fs].
    apply require_field_loop_silent in H0.
    apply silent_step in H as [H2 H]; [|intros e; appends_only L fs].
    apply silent_step in H as [H3 H]; [|intros e; appends_only L fs].
    apply silent_step in H as [H4 H]; [|intros e; appends_only L fs].
    apply silent_step in H as [H5 H]; [|intros e; appends_only L fs].
    apply silent_step in H as [H6 H]; [|intros e; appends_only L fs].
    apply silent_step in H as [H7 H]; [|intros e; appends_only L fs].
    apply silent_step in H as [H8 H]; [|intros e; appends_only L fs].
    apply silent_step in H as [H9 H]; [|intros e; appends_only L fs].
    apply silent_step in H as [H10 H11]; [|intros e; appends_only L fs].
    split; [assumption|].
    apply append_if_silent, negb_false_iff in H3, H4, H5.
    split; [|split; [|split; [|split; [|split; [|split; [|split; [|split; [|split]]]]]]]].
    + unfold check_schema_version in H2.
      destruct (dict_get d (lit "schema_version")); try (now apply append_not_silent in H2).
      eauto.
    + destruct (dict_get d (lit "run_id")) as [| | | |run_id| |]; try discriminate.
      destruct (dict_get d (lit "logs")) as [| | | | |logs|];
        try (now apply append_not_silent in H10).
      exists run_id, logs. repeat split.
      apply for_each_silent in H10; [exact H10|].
      intros; appends_only L fs.
    + exact H4.
    + exact H5.
    + destruct (dict_get d (lit "timestamp")); try (now apply append_not_silent in H6).
      apply append_if_silent, negb_false_iff in H6. eauto.
    + destruct (dict_get d (lit "env")) as [| | | | | |env];
        try (now apply append_not_silent in H7).
      cbn [for_each] in H7.
      apply silent_step in H7 as [Ha H7]; [|intros e; appends_only L fs].
      apply silent_step in H7 as [Hb H7]; [|intros e; appends_only L fs].
      apply silent_step in H7 as [Hc H7]; [|intros e; appends_only L fs].
      apply silent_step in H7 as [Hd _]; [|intros e; appends_only L fs].
      apply append_if_silent, negb_false_iff in Ha, Hb, Hc, Hd.
      exists env. auto.
    + now apply e2e_sha_silent.
    + destruct (dict_get d (lit "commands")) as [| | | | |[|c cs]|];
        try (now apply append_not_silent in H9).
      exists c, cs. split; [reflexivity|].
      eapply for_enumerate_silent in H9; [exact H9| |].
      * intros; appends_only L fs.
      * intros. apply command_entry_silent.
    + destruct (dict_get d (lit "artifacts")) as [| | | | |artifacts|];
        try (now apply append_not_silent in H11).
      exists artifacts. split; [reflexivity|].
      apply for_each_silent in H11; [exact H11|].
      intros; appends_only L fs.
    + unfold E2E.required_fields in H0. cbn [forallb] in H0.
      repeat (apply andb_true_iff in H0 as [? H0]). assumption.
  - intros (Hs & (v & Ev & Hv) & (run_id & logs & Er & El & Hl) & Hsu & Hte
            & (t & Et & Ht) & (env & Ee & He1 & He2 & He3 & He4) & Hsha
            & (c & cs & Ec & Hc) & (artifacts & Ea & Ha) & Hm).
    apply schema_silent in Hs. rewrite Hs. cbn [bind].
    assert (Hr : for_each (E2E.require_field (JDict d)) E2E.required_fields []
                 = Ok []).
    { apply require_field_loop_silent. unfold E2E.required_fields.
      cbn [forallb]. destruct Hsha as (data & _ & Esha).
      rewrite Hm.
      rewrite !dict_get_present; try reflexivity; try congruence.
      all: match goal with
           | |- dict_get ?m ?k <> JNull => destruct (dict_get m k); discriminate
           end. }
    rewrite Hr. cbn [bind].
    unfold check_schema_version. rewrite Ev, Hv. cbn [bind].
    rewrite Er, Hsu, Hte. cbn [is_str negb append_if bind].
    rewrite Et, Ht. cbn [negb append_if bind].
    rewrite Ee. cbn [for_each]. rewrite He1, He2, He3, He4.
    cbn [negb append_if bind].
    rewrite (proj2 (e2e_sha_silent d) Hsha). cbn [bind].
    rewrite Ec.
    assert (Hc' : for_enumerate E2E.command_entry 0 (c :: cs) [] = Ok []).
    { eapply for_enumerate_silent; [| |exact Hc].
      - intros; appends_only L fs.
      - intros. apply command_entry_silent. }
    rewrite Hc'. cbn [bind]. rewrite El.
    assert (Hl' : for_each (E2E.log_entry L fs (parent L manifest_path) run_id)
                           logs [] = Ok []).
    { apply for_each_silent; [intros; appends_only L fs|exact Hl]. }
    rewrite Hl'. cbn [bind]. rewrite Ea.
    apply for_each_silent; [intros; appends_only L fs|exact Ha].
Qed.

(** X19. The end-to-end validator returns no error for an object exactly when
    the schema check passes, every field has its type, [metrics] is
    present, the stored digest is the digest of the canonical bytes, and
    every command, log and artifact entry is silent. *)
Theorem e2e_manifest_accepted_iff (d : dict) (manifest_path schema_path : path) :
  E2E.validate_manifest L fs (JDict d) manifest_path schema_path = Ok [] <->
  (jsonschema L schema_path (JDict d) = SchemaUnavailable \/
   jsonschema L schema_path (JDict d) = SchemaValid) /\
  e2e_well_formed L fs d (parent L manifest_path).
Proof. apply e2e_acceptance. Qed.

(** X20. An artifact entry of an end-to-end manifest draws no message exactly
    when its kind is a known one, it records its file, and it has a
    non-empty redaction profile if its kind asks for one. *)
Theorem e2e_artifact_entry_silent_iff (base_dir : path) (entry : dict) :
  E2E.artifact_entry L fs base_dir (JDict entry) [] = Ok [] <->
  exists kind,
    dict_get entry (lit "kind") = JStr kind /\
    In kind E2E.ARTIFACT_KINDS /\
    records L fs entry base_dir /\
    (In kind E2E.REDACTION_REQUIRED_KINDS ->
     truthy (dict_get entry (lit "redaction_profile")) = true).
Proof.
  unfold E2E.artifact_entry. split.
  - intros H.
    apply silent_step_val in H as (known & Hk & H).
    apply silent_step in H as [H1 H]; [|intros e; appends_only L fs].
    apply silent_step in H as [H2 H]; [|intros e; appends_only L fs].
    apply silent_step_val in H as (required & Hr & H).
    apply append_if_silent, negb_false_iff in H1. subst known.
    apply in_set_true_iff in Hk as (kind & Ek & Hin).
    exists kind. split; [assumption|]. split; [assumption|].
    split; [now apply silent_file_entry_records in H2|].
    intros Hreq.
    assert (required = true).
    { assert (Hq : in_set (dict_get entry (lit "kind"))
                          E2E.REDACTION_REQUIRED_KINDS = Ok true)
        by (apply in_set_true_iff; eauto).
      congruence. }
    subst required. apply append_if_silent in H.
    cbn [andb] in H. now apply negb_false_iff in H.
  - intros (kind & Ek & Hin & Hrec & Hreq).
    rewrite (proj2 (in_set_true_iff _ _) (ex_intro _ kind (conj Ek Hin))).
    cbn [negb append_if bind].
    rewrite (recorded_file_entry_is_silent (lit "artifact") [] Hrec).
    cbn [bind]. rewrite Ek. unfold in_set. cbn [hashable bind].
    apply append_if_silent.
    destruct (existsb (eq_str (JStr kind)) E2E.REDACTION_REQUIRED_KINDS) eqn:E;
      [|reflexivity].
    cbn [andb]. apply negb_false_iff. apply Hreq.
    apply existsb_exists in E as (k & Hk & E). cbn [eq_str] in E.
    apply str_eqb_eq in E. now subst.
Qed.

(** X21. A log entry of an end-to-end manifest draws no message exactly when
    its kind is a known one, it records its file, and, for a [jsonl] log
    of a manifest with a non-empty [run_id], the JSONL check is silent. *)
Theorem e2e_log_entry_silent_iff (base_dir : path) (run_id : pystr) (entry : dict) :
  E2E.log_entry L fs base_dir run_id (JDict entry) [] = Ok [] <->
  exists kind,
    dict_get entry (lit "kind") = JStr kind /\
    In kind E2E.LOG_KINDS /\
    records L fs entry base_dir /\
    (kind = lit "jsonl" -> run_id <> [] ->
     E2E.validate_jsonl_run_id L fs entry base_dir run_id [] = Ok []).
Proof.
  unfold E2E.log_entry. split.
  - intros H.
    apply silent_step_val in H as (known & Hk & H).
    apply silent_step in H as [H1 H];
      [|intros e; appends_only L fs;
        anything_by (validate_jsonl_run_id_grows L fs)].
    apply silent_step in H as [H2 H];
      [|intros e; appends_only L fs;
        anything_by (validate_jsonl_run_id_grows L fs)].
    apply append_if_silent, negb_false_iff in H1. subst known.
    apply in_set_true_iff in Hk as (kind & Ek & Hin).
    exists kind. split; [assumption|]. split; [assumption|].
    split; [now apply silent_file_entry_records in H2|].
    intros -> Hrun. rewrite Ek in H. cbn [eq_str] in H.
    rewrite str_eqb_refl in H. destruct run_id; [congruence|]. exact H.
  - intros (kind & Ek & Hin & Hrec & Hj).
    rewrite (proj2 (in_set_true_iff _ _) (ex_intro _ kind (conj Ek Hin))).
    cbn [negb append_if bind].
    rewrite (recorded_file_entry_is_silent (lit "log") [] Hrec).
    cbn [bind]. rewrite Ek. cbn [eq_str].
    destruct (str_eqb kind (lit "jsonl")) eqn:E; [|reflexivity].
    destruct run_id as [|c r]; [reflexivity|]. cbn [truthy andb].
    apply str_eqb_eq in E. apply Hj; [assumption|discriminate].
Qed.
End E2EAccepted.

(* ---------------------------------------------------------------- *)
(** ** The command lines of the other validators, and the kinds of files *)
(* ---------------------------------------------------------------- *)

Section MoreMains.
Variable L : pylib.
Variable O : oslib.
Variable fs : filesystem.

Lemma fixture_validates_objects_only manifest manifest_path schema_path errs :
  Fixture.validate_manifest L fs manifest manifest_path schema_path = Ok errs ->
  exists d, manifest = JDict d.
Proof.
  unfold Fixture.validate_manifest. intros H.
  apply bind_ok_inv in H as (e0 & _ & H).
  apply bind_ok_inv in H as (e1 & _ & H).
  destruct manifest; try discriminate. eauto.
Qed.


(** X22. [main] of the fixture validator returns status 0 exactly when the
    manifest file exists, can be read, holds a JSON object, and that
    object is accepted. *)
Theorem fixture_main_succeeds_iff (manifest_path schema_path : path) :
  (exists out, Fixture.main L O fs manifest_path schema_path = Ok out /\
               status out = 0%Z) <->
  exists f d,
    fs manifest_path = Some f /\ read_fails f = None /\
    json_loads L (concat (read_lines f)) = Some (JDict d) /\
    (jsonschema L schema_path (JDict d) = SchemaUnavailable \/
     jsonschema L schema_path (JDict d) = SchemaValid) /\
    fixture_well_formed L fs d (parent L manifest_path).
Proof.
  unfold Fixture.main. split.
  - intros (out & H & Hs).
    apply bind_ok_inv in H as (manifest & Hl & H).
    apply bind_ok_inv in H as (errs & Hv & H).
    destruct (fixture_validates_objects_only _ _ _ Hv) as [d ->].
    apply load_json_ok in Hl as (f & Hf & Hr & Hj).
    destruct errs as [|e errs].
    + apply fixture_accepted_inv in Hv as [H1 H2]. exists f, d. auto.
    + inversion H; subst out. discriminate Hs.
  - intros (f & d & Hf & Hr & Hj & Hs & Hw).
    rewrite (proj2 (load_json_ok _ _ _ _ _) (ex_intro _ f (conj Hf (conj Hr Hj)))).
    cbn [bind].
    rewrite (@fixture_accepted L fs d manifest_path schema_path Hs Hw).
    cbn [bind]. eexists. split; reflexivity.
Qed.

End MoreMains.

Lemma manifest_json_is_not_jsonl (name : pystr) :
  ends_with (lit "manifest.json") name = true ->
  ends_with (lit ".jsonl") name = false.
Proof.
  unfold ends_with. intros H. apply starts_with_split in H as [t ->].
  reflexivity.
Qed.

Lemma jsonl_is_not_json (name : pystr) :
  ends_with (lit ".jsonl") name = true ->
  ends_with (lit ".json") name = false.
Proof.
  unfold ends_with. intros H. apply starts_with_split in H as [t ->].
  reflexivity.
Qed.

Lemma manifest_json_is_json (name : pystr) :
  ends_with (lit "manifest.json") name = true ->
  ends_with (lit ".json") name = true.
Proof.
  unfold ends_with. intros H. apply starts_with_split in H as [t ->].
  reflexivity.
Qed.

(** X24. [infer_kind] decides on the lower-cased file name alone and returns
    one of six kinds: [log] exactly for names ending in [.jsonl];
    [manifest] exactly for names ending in [manifest.json] that hold
    neither [policy] nor [priors]; [config] exactly for other names ending
    in [.json] that hold neither. *)
Theorem infer_kind_decision_table (O : oslib) (rel_path : pystr) :
  let name := str_lower O (path_name O rel_path) in
  In (Capture.infer_kind O rel_path) FIXTURE_KINDS /\
  (Capture.infer_kind O rel_path = lit "log" <->
   ends_with (lit ".jsonl") name = true) /\
  (Capture.infer_kind O rel_path = lit "manifest" <->
   ends_with (lit "manifest.json") name = true /\
   str_contains (lit "policy") name = false /\
   str_contains (lit "priors") name = false) /\
  (Capture.infer_kind O rel_path = lit "config" <->
   ends_with (lit ".json") name = true /\
   ends_with (lit "manifest.json") name = false /\
   str_contains (lit "policy") name = false /\
   str_contains (lit "priors") name = false).
Proof.
  cbv zeta. unfold Capture.infer_kind, FIXTURE_KINDS.
  set (name := str_lower O (path_name O rel_path)).
  pose proof (@manifest_json_is_not_jsonl name) as F1.
  pose proof (@jsonl_is_not_json name) as F2.
  destruct (ends_with (lit ".jsonl") name) eqn:E1;
    [|destruct (str_contains (lit "policy") name) eqn:E2;
      [|destruct (str_contains (lit "priors") name) eqn:E3;
        [|destruct (ends_with (lit "manifest.json") name) eqn:E4;
          [|destruct (ends_with (lit ".json") name) eqn:E5]]]].
  all: repeat split; auto; try discriminate; try (cbn [In]; tauto).
  all: intros;
    repeat match goal with H : _ /\ _ |- _ => destruct H end;
    try congruence.
  - specialize (F1 ltac:(assumption)). congruence.
  - specialize (F2 eq_refl). congruence.
Qed.

(* ---------------------------------------------------------------- *)
(** ** Tool versions and sources that draw no message *)
(* ---------------------------------------------------------------- *)

(** X25. [validate_tool_versions] adds no message exactly when every key and
    every value of the dictionary is a non-empty string. *)
Theorem validate_tool_versions_silent_iff (tool_versions : dict) :
  Fixture.validate_tool_versions tool_versions [] = Ok [] <->
  Forall named_string tool_versions.
Proof.
  split; [|intros H; now apply validate_named].
  unfold Fixture.validate_tool_versions. intros H.
  apply for_each_silent in H.
  - eapply Forall_impl; [|exact H]. intros [k v]. unfold named_string. cbn.
    destruct k as [|c k]; [intros E; now apply append_not_silent in E|].
    intros E. apply append_if_silent in E.
    apply orb_false_iff in E as [E1 E2]. apply negb_false_iff in E1, E2.
    split; [discriminate|].
    destruct v; try discriminate. eexists. split; [reflexivity|].
    intros ->. discriminate.
  - intros [k v] e. destruct k; repeat grows_step; exact I.
Qed.

Section SourceSilent.
Variable L : pylib.
Variable fs : filesystem.

Lemma check_redaction_silent_any (value label label' : pystr) (errs errs' : errors) :
  Fixture.check_redaction L value label errs = Ok errs ->
  Fixture.check_redaction L value label' errs' = Ok errs'.
Proof.
  unfold Fixture.check_redaction.
  destruct (matches (re_search L HOME_RE value)),
           (matches (re_search L UUID_RE value)),
           (matches (re_search L HEX_RE value));
    intros H; try reflexivity; absurd_growth H.
Qed.

Lemma source_item_silent (key : pystr) (idx : nat) (item : json) :
  Fixture.source_item L key idx item [] = Ok [] <->
  exists s, item = JStr s /\ unflagged L s.
Proof.
  unfold Fixture.source_item. split.
  - destruct item; try (intros H; now apply append_not_silent in H).
    intros H. eexists. split; [reflexivity|].
    intros label errs. eapply check_redaction_silent_any. exact H.
  - intros (s & -> & Hs). apply Hs.
Qed.

Lemma source_key_silent (source : dict) (key : pystr) :
  Fixture.source_key L source key [] = Ok [] <->
  clean_list L (dict_get source key).
Proof.
  unfold Fixture.source_key, clean_list. split.
  - destruct (dict_get source key) as [| | | | |value|];
      try (intros H; now apply append_not_silent in H); [now left|].
    intros H. right.
    eapply for_enumerate_silent in H.
    + instantiate (1 := fun item => exists s, item = JStr s /\ unflagged L s) in H.
      induction H as [|x l (s & -> & Hs) Hl (items & IH1 & IH2)].
      * exists []. split; [reflexivity|constructor].
      * injection IH1 as ->.
        exists (s :: items). split; [reflexivity|]. now constructor.
    + intros. unfold Fixture.source_item.
      appends_only L fs;
        anything_by (@check_redaction_grows L).
    + intros. apply source_item_silent.
  - intros [-> |(items & -> & Hi)]; [reflexivity|].
    now apply scan_unflagged.
Qed.

(** X26. [validate_source] adds no message exactly when [origin] is a
    non-empty string, [command] and [paths] are absent or lists of strings
    the scanner does not flag, and [notes] is absent or a string. *)
Theorem validate_source_silent_iff (source : dict) :
  Fixture.validate_source L source [] = Ok [] <->
  (exists origin, dict_get source (lit "origin") = JStr origin /\
                  origin <> []) /\
  clean_list L (dict_get source (lit "command")) /\
  clean_list L (dict_get source (lit "paths")) /\
  (dict_get source (lit "notes") = JNull \/
   is_str (dict_get source (lit "notes")) = true).
Proof.
  unfold Fixture.validate_source. split.
  - intros H.
    apply silent_step in H as [H1 H];
      [|intros e; appends_only L fs].
    2:{ unfold Fixture.source_key, Fixture.source_item.
        appends_only L fs;
          anything_by (@check_redaction_grows L). }
    apply silent_step in H as [H2 H3];
      [|intros e; appends_only L fs].
    cbn [for_each] in H2.
    apply silent_step in H2 as [Hc H2].
    2:{ intros e. unfold Fixture.source_key, Fixture.source_item.
        appends_only L fs;
          anything_by (@check_redaction_grows L). }
    apply silent_step in H2 as [Hp _]; [|intros e; appends_only L fs].
    apply source_key_silent in Hc, Hp.
    apply append_if_silent in H1, H3.
    repeat split; try assumption.
    + apply orb_false_iff in H1 as [Ha Hb]. apply negb_false_iff in Ha, Hb.
      destruct (dict_get source (lit "origin")); try discriminate.
      eexists. split; [reflexivity|]. intros ->. discriminate.
    + destruct (dict_get source (lit "notes")); auto;
        apply negb_false_iff in H3; auto.
  - intros ((origin & Eo & Ho) & Hc & Hp & Hn).
    rewrite Eo. destruct origin; [congruence|].
    cbn [is_str truthy negb orb append_if bind for_each].
    rewrite (proj2 (source_key_silent _ _) Hc). cbn [bind].
    rewrite (proj2 (source_key_silent _ _) Hp). cbn [bind].
    destruct Hn as [-> | Hn]; [reflexivity|].
    destruct (dict_get source (lit "notes")); try discriminate; reflexivity.
Qed.
End SourceSilent.

(* ---------------------------------------------------------------- *)
(** ** What the redactor replaces *)
(* ---------------------------------------------------------------- *)

Section Redactor.
Variable L : pylib.

Lemma word_found (R : Type) (w : pystr) :
  w <> [] ->
  forall before s caps (k : cont R),
    rmatch L (Word w) before (w ++ s) caps k = k (rev w ++ before) s caps.
Proof.
  induction w as [|c w IH]; [congruence|]. intros _ before s caps k.
  destruct w as [|c' w].
  - cbn [Word rmatch app rev]. now rewrite N.eqb_refl.
  - change (Word (c :: c' :: w)) with (Cat (Lit c) (Word (c' :: w))).
    change ((c :: c' :: w) ++ s) with (c :: ((c' :: w) ++ s)).
    cbn [rmatch]. rewrite N.eqb_refl.
    rewrite IH by discriminate.
    cbn [rev]. now rewrite <- !app_assoc.
Qed.

Lemma word_inv (R : Type) (w : pystr) :
  w <> [] ->
  forall before s caps (k : cont R) x,
    rmatch L (Word w) before s caps k = Some x ->
    exists s', s = w ++ s' /\ k (rev w ++ before) s' caps = Some x.
Proof.
  induction w as [|c w IH]; [congruence|]. intros _ before s caps k x.
  destruct w as [|c' w].
  - cbn [Word rmatch]. destruct s as [|y s]; [discriminate|].
    destruct (N.eqb_spec y c); [subst|discriminate].
    intros H. exists s. split; [reflexivity|exact H].
  - change (Word (c :: c' :: w)) with (Cat (Lit c) (Word (c' :: w))).
    cbn [rmatch]. destruct s as [|y s]; [discriminate|].
    destruct (N.eqb_spec y c); [subst|discriminate].
    intros H. apply IH in H as (s' & -> & H); [|discriminate].
    exists s'. split; [reflexivity|].
    cbn [rev] in *. now rewrite <- !app_assoc in *.
Qed.

Lemma at_most_one_slash_tail c s :
  at_most_one_slash (c :: s) -> at_most_one_slash s.
Proof.
  intros [H|(t & E & H)]; left.
  - cbn in H. now apply andb_true_iff in H as [_ H].
  - inversion E. now subst.
Qed.

Lemma not_slash_no_slash (s : list N) :
  forallb not_slash s = true -> ~ In 47 s.
Proof.
  intros H Hin. rewrite forallb_forall in H. specialize (H _ Hin). discriminate.
Qed.

Lemma home_needs_two_slashes before s :
  at_most_one_slash s -> match_here L HOME_RE before s = None.
Proof.
  intros [H|(t & -> & H)].
  - apply home_needs_slash. destruct s; [exact I|].
    cbn in H. now apply andb_true_iff in H as [H _].
  - destruct (match_here L HOME_RE before (47 :: t)) as [x|] eqn:E; [|reflexivity].
    exfalso. apply not_slash_no_slash in H. apply H. revert E.
    unfold match_here, HOME_RE. cbn [Seq rmatch]. rewrite N.eqb_refl.
    destruct (rmatch L (Word (lit "Users")) _ t _ _) as [y|] eqn:E1.
    + intros _. apply word_inv in E1 as (s' & -> & E1); [|discriminate].
      destruct s' as [|z s']; [discriminate|].
      destruct (N.eqb_spec z 47); [subst|discriminate].
      apply in_or_app. right. now left.
    + intros E2. apply word_inv in E2 as (s' & -> & E2); [|discriminate].
      destruct s' as [|z s']; [discriminate|].
      destruct (N.eqb_spec z 47); [subst|discriminate].
      apply in_or_app. right. now left.
Qed.

Lemma home_found (root user rest : pystr) (before : list N) :
  root = lit "Users" \/ root = lit "home" ->
  user <> [] -> forallb not_slash user = true ->
  match rest with c :: _ => not_slash c = false | [] => True end ->
  exists b caps,
    match_here L HOME_RE before (47 :: root ++ 47 :: user ++ rest)
    = Some (b, rest, caps).
Proof.
  intros Hroot Hu Hs Hr.
  unfold match_here, HOME_RE, Plus. cbn [Seq rmatch]. rewrite N.eqb_refl.
  match goal with
  | |- context [rmatch L (Word (lit "Users")) _ _ _ ?K] => set (k := K)
  end.
  assert (Hk : forall b caps,
             exists b' caps',
               k b (47 :: user ++ rest) caps = Some (b', rest, caps')).
  { intros b caps. subst k. cbn [rmatch]. rewrite N.eqb_refl.
    eexists. eexists. apply rep_longest; try assumption; [|reflexivity].
    destruct user; [congruence|cbn; lia]. }
  destruct Hroot as [-> | ->].
  - rewrite word_found by discriminate.
    match goal with
    | |- context [k ?b _ ?c] => destruct (Hk b c) as (b' & caps' & ->)
    end.
    eauto.
  - destruct (rmatch L (Word (lit "Users")) (47 :: before)
                     (lit "home" ++ 47 :: user ++ rest) [] k) as [x|] eqn:E1.
    + apply word_inv in E1 as (s' & E & _); [|discriminate].
      cbn in E. discriminate E.
    + rewrite word_found by discriminate.
      match goal with
      | |- context [k ?b _ ?c] => destruct (Hk b c) as (b' & caps' & ->)
      end.
      eauto.
Qed.

Lemma sub_from_skip (repl pre : pystr) :
  forallb not_slash pre = true ->
  forall fuel before rest,
    sub_from L (length pre + fuel) HOME_RE repl before (pre ++ rest)
    = pre ++ sub_from L fuel HOME_RE repl (rev pre ++ before) rest.
Proof.
  induction pre as [|c pre IH]; intros Hp fuel before rest; [reflexivity|].
  cbn in Hp. apply andb_true_iff in Hp as [Hc Hp].
  cbn [length Nat.add app sub_from].
  rewrite home_needs_slash by exact Hc.
  f_equal. rewrite IH by assumption. cbn [rev]. now rewrite <- app_assoc.
Qed.

Lemma redact_path_one (pre root user rest : pystr) :
  forallb not_slash pre = true ->
  root = lit "Users" \/ root = lit "home" ->
  user <> [] -> forallb not_slash user = true ->
  at_most_one_slash rest ->
  match rest with c :: _ => not_slash c = false | [] => True end ->
  Capture.redact_path L (pre ++ 47 :: root ++ 47 :: user ++ rest)
  = pre ++ lit "/home/USER" ++ rest.
Proof.
  intros Hp Hroot Hu Hs Hrest Hr.
  unfold Capture.redact_path, re_sub.
  destruct (@home_found root user rest (rev pre ++ []) Hroot Hu Hs Hr)
    as (b & caps & Hm).
  set (body := 47 :: root ++ 47 :: user ++ rest) in *.
  assert (Hlt : (length rest <? length body)%nat = true).
  { apply Nat.ltb_lt. subst body. cbn [length]. rewrite !length_app.
    cbn [length]. rewrite length_app. lia. }
  rewrite length_app.
  replace (S (length pre + length body))
    with (length pre + S (length body))%nat by lia.
  rewrite sub_from_skip by assumption. f_equal.
  cbn [sub_from]. rewrite Hm, Hlt. f_equal.
  apply (@sub_from_none L HOME_RE at_most_one_slash at_most_one_slash_tail
                       home_needs_two_slashes).
  exact Hrest.
Qed.

Lemma hex_is_word (c : N) : hex_anycase c = true -> is_word L c = true.
Proof.
  unfold hex_anycase, is_word, ascii_alnum, ascii_digit, in_range. intros H.
  repeat (apply orb_true_iff in H as [H|H]);
    apply andb_true_iff in H as [H1 H2]; apply N.leb_le in H1, H2.
  - destruct (N.ltb_spec c 128); [|lia].
    apply orb_true_iff. left. apply orb_true_iff. left. apply orb_true_iff. left.
    apply andb_true_iff. split; apply N.leb_le; lia.
  - destruct (N.ltb_spec c 128); [|lia].
    apply orb_true_iff. left. apply orb_true_iff. right.
    apply andb_true_iff. split; apply N.leb_le; lia.
  - destruct (N.ltb_spec c 128); [|lia].
    apply orb_true_iff. left. apply orb_true_iff. left. apply orb_true_iff. right.
    apply andb_true_iff. split; apply N.leb_le; lia.
Qed.
End Redactor.

(** X27. [redact_path] replaces the user directory of a home path, under
    [/Users] as under [/home], by [/home/USER], and keeps what is before
    it and the path below it. *)
Theorem redact_path_hides_the_user (L : pylib) (pre root user tail : pystr) :
  forallb not_slash pre = true ->
  root = lit "Users" \/ root = lit "home" ->
  user <> [] -> forallb not_slash user = true ->
  forallb not_slash tail = true ->
  Capture.redact_path L (pre ++ lit "/" ++ root ++ lit "/" ++ user)
  = pre ++ lit "/home/USER" /\
  Capture.redact_path L (pre ++ lit "/" ++ root ++ lit "/" ++ user
                             ++ lit "/" ++ tail)
  = pre ++ lit "/home/USER/" ++ tail.
Proof.
  intros Hp Hroot Hu Hs Ht. split.
  - pose proof (@redact_path_one L pre root user [] Hp Hroot Hu Hs
                                 (or_introl eq_refl) I) as H.
    rewrite !app_nil_r in H. exact H.
  - apply (@redact_path_one L pre root user (47 :: tail) Hp Hroot Hu Hs).
    + right. now exists tail.
    + reflexivity.
Qed.

Section Identifiers.
Variable L : pylib.

Lemma sub_from_nothing (r : regex) (repl : pystr) (fuel : nat) (before : list N) :
  match_here L r before [] = None ->
  sub_from L fuel r repl before [] = [].
Proof.
  intros H. destruct fuel; [reflexivity|]. cbn [sub_from]. now rewrite H.
Qed.

Lemma short_is_not_hex_id (s : pystr) :
  (length s < 32)%nat -> re_sub L HEX_RE (lit "<HEX>") s = s.
Proof.
  intros H. unfold re_sub.
  apply (@sub_from_none L HEX_RE (fun s => (length s < 32)%nat)).
  - intros c t Ht. cbn [length] in Ht. lia.
  - intros b t Ht. now apply hex_needs_32.
  - exact H.
Qed.

Lemma exactly_hex (R : Type) (n : nat) (s : pystr) :
  hex_run n s ->
  forall before rest caps (k : cont R),
    rep hex_anycase n (Some n) before (s ++ rest) caps k
    = k (rev s ++ before) rest caps.
Proof.
  intros [<- Hs]. apply rep_exact. now apply forallb_Forall_true.
Qed.

Lemma uuid_found (a b c d e : pystr) :
  hex_run 8 a -> hex_run 4 b -> hex_run 4 c -> hex_run 4 d -> hex_run 12 e ->
  exists before caps,
    match_here L UUID_RE []
               (a ++ 45 :: b ++ 45 :: c ++ 45 :: d ++ 45 :: e)
    = Some (before, [], caps).
Proof.
  intros Ha Hb Hc Hd He.
  unfold match_here, UUID_RE, Exactly. cbn [Seq rmatch].
  assert (Hfirst : at_boundary L []
                     (a ++ 45 :: b ++ 45 :: c ++ 45 :: d ++ 45 :: e) = true).
  { destruct Ha as [Hl Hh]. destruct a as [|x a]; [discriminate|].
    cbn in Hh. apply andb_true_iff in Hh as [Hx _].
    cbn [app]. unfold at_boundary. now rewrite (hex_is_word L _ Hx). }
  rewrite Hfirst.
  rewrite (exactly_hex Ha). rewrite N.eqb_refl.
  rewrite (exactly_hex Hb). rewrite N.eqb_refl.
  rewrite (exactly_hex Hc). rewrite N.eqb_refl.
  rewrite (exactly_hex Hd). rewrite N.eqb_refl.
  rewrite ?app_nil_r.
  match goal with
  | |- context [@rep ?R hex_anycase 12 (Some 12%nat) ?bf e ?cp ?K] =>
      pose proof (@exactly_hex R 12 e He bf [] cp K) as E5;
      rewrite (app_nil_r e) in E5; rewrite E5; clear E5
  end.
  assert (Hlast : forall rest, at_boundary L (rev e ++ rest) [] = true).
  { intros rest. destruct He as [Hl Hh].
    destruct (rev e) as [|x e'] eqn:Er.
    - apply (f_equal (@length _)) in Er. rewrite length_rev, Hl in Er.
      discriminate.
    - assert (Hx : hex_anycase x = true).
      { rewrite forallb_forall in Hh. apply Hh. apply in_rev. rewrite Er.
        now left. }
      cbn [app]. unfold at_boundary. now rewrite (hex_is_word L _ Hx). }
  rewrite Hlast. eauto.
Qed.

Lemma redact_uuid (a b c d e : pystr) :
  hex_run 8 a -> hex_run 4 b -> hex_run 4 c -> hex_run 4 d -> hex_run 12 e ->
  Capture.redact_id L (a ++ lit "-" ++ b ++ lit "-" ++ c ++ lit "-" ++ d
                         ++ lit "-" ++ e)
  = lit "<UUID>".
Proof.
  intros Ha Hb Hc Hd He. unfold Capture.redact_id.
  assert (E : re_sub L UUID_RE (lit "<UUID>")
                     (a ++ lit "-" ++ b ++ lit "-" ++ c ++ lit "-" ++ d
                        ++ lit "-" ++ e) = lit "<UUID>").
  { unfold re_sub. cbn [sub_from].
    change (lit "-") with [45]. cbn [app].
    destruct (uuid_found Ha Hb Hc Hd He) as (before & caps & ->).
    destruct a as [|x a]; [destruct Ha; discriminate|].
    cbn [app length Nat.ltb Nat.leb].
    rewrite sub_from_nothing by (apply uuid_needs_32; cbn; lia).
    apply app_nil_r. }
  rewrite E. apply short_is_not_hex_id. cbn. lia.
Qed.

(** Text a pattern matches at no position, the text before taken into
    account. *)
Section Unmatched2.
Variable r : regex.
Variable P : list N -> list N -> Prop.
Hypothesis P_step : forall b c s, P b (c :: s) -> P (c :: b) s.
Hypothesis P_none : forall b s, P b s -> match_here L r b s = None.

Lemma sub_from_unmatched (repl : pystr) (fuel : nat) :
  forall before rest, P before rest -> sub_from L fuel r repl before rest = rest.
Proof.
  induction fuel as [|fuel IH]; intros before rest HP; [reflexivity|].
  cbn [sub_from]. rewrite (P_none HP).
  destruct rest as [|c rest]; [reflexivity|].
  f_equal. apply IH. now apply P_step.
Qed.
End Unmatched2.

Lemma inside_hex_step b c s : inside_hex b (c :: s) -> inside_hex (c :: b) s.
Proof.
  intros (Hb & Hs & _). cbn in Hs. apply andb_true_iff in Hs as [Hc Hs].
  repeat split; try assumption; [|discriminate].
  cbn. now rewrite Hc, Hb.
Qed.

Lemma inside_hex_no_uuid b s :
  inside_hex b s -> match_here L UUID_RE b s = None.
Proof.
  intros (Hb & Hs & Hl).
  unfold match_here, UUID_RE, Exactly. cbn [Seq rmatch].
  destruct b as [|x b].
  - specialize (Hl eq_refl).
    destruct (at_boundary L [] s); [|reflexivity].
    rewrite <- (firstn_skipn 8 s).
    assert (H8 : hex_run 8 (firstn 8 s)).
    { split; [rewrite length_firstn; lia|].
      rewrite <- (firstn_skipn 8 s) in Hs. rewrite forallb_app in Hs.
      now apply andb_true_iff in Hs as [Hs _]. }
    rewrite (exactly_hex H8).
    destruct (skipn 8 s) as [|y t] eqn:Et.
    + apply (f_equal (@length _)) in Et. rewrite length_skipn in Et.
      cbn in Et. lia.
    + assert (Hy : hex_anycase y = true).
      { rewrite <- (firstn_skipn 8 s), Et, forallb_app in Hs.
        apply andb_true_iff in Hs as [_ Hs]. cbn in Hs.
        now apply andb_true_iff in Hs as [Hy _]. }
      destruct (N.eqb_spec y 45); [subst; discriminate|reflexivity].
  - cbn in Hb. apply andb_true_iff in Hb as [Hx Hb].
    destruct s as [|y s].
    + destruct (at_boundary L (x :: b) []); reflexivity.
    + cbn in Hs. apply andb_true_iff in Hs as [Hy Hs].
      unfold at_boundary.
      now rewrite (hex_is_word L _ Hx), (hex_is_word L _ Hy).
Qed.

Lemma hex_found (h : pystr) :
  (32 <= length h)%nat -> forallb hex_anycase h = true ->
  exists before caps, match_here L HEX_RE [] h = Some (before, [], caps).
Proof.
  intros Hl Hh. unfold match_here, HEX_RE. cbn [Seq rmatch].
  assert (Hfirst : at_boundary L [] h = true).
  { destruct h as [|x t]; [cbn in Hl; lia|].
    cbn in Hh. apply andb_true_iff in Hh as [Hx _].
    unfold at_boundary. now rewrite (hex_is_word L _ Hx). }
  rewrite Hfirst.
  assert (Hlast : at_boundary L (rev h ++ []) [] = true).
  { rewrite app_nil_r. destruct (rev h) as [|y t] eqn:Er.
    - apply (f_equal (@length _)) in Er. rewrite length_rev in Er.
      cbn in Er. lia.
    - assert (Hy : hex_anycase y = true).
      { rewrite forallb_forall in Hh. apply Hh. apply in_rev. rewrite Er.
        now left. }
      unfold at_boundary. now rewrite (hex_is_word L _ Hy). }
  eexists. eexists.
  rewrite <- (app_nil_r h) at 1.
  apply rep_longest; [assumption|lia|exact I|].
  now rewrite Hlast.
Qed.

Lemma redact_hex (h : pystr) :
  (32 <= length h)%nat -> forallb hex_anycase h = true ->
  Capture.redact_id L h = lit "<HEX>".
Proof.
  intros Hl Hh. unfold Capture.redact_id.
  assert (E : re_sub L UUID_RE (lit "<UUID>") h = h).
  { unfold re_sub.
    apply (@sub_from_unmatched UUID_RE inside_hex inside_hex_step
                                inside_hex_no_uuid).
    repeat split; [assumption|]. intros _. lia. }
  rewrite E. unfold re_sub. cbn [sub_from].
  destruct (@hex_found h Hl Hh) as (before & caps & ->).
  destruct h as [|x h]; [cbn in Hl; lia|].
  cbn [length Nat.ltb Nat.leb].
  rewrite sub_from_nothing by (apply hex_needs_32; cbn; lia).
  apply app_nil_r.
Qed.
End Identifiers.

(** X28. [redact_id] turns a UUID (8-4-4-4-12 hexadecimal digits) into
    [<UUID>] and a run of 32 or more hexadecimal digits into [<HEX>]. *)
Theorem redact_id_replaces_identifiers (L : pylib) :
  (forall a b c d e,
      hex_run 8 a -> hex_run 4 b -> hex_run 4 c -> hex_run 4 d ->
      hex_run 12 e ->
      Capture.redact_id L (a ++ lit "-" ++ b ++ lit "-" ++ c ++ lit "-" ++ d
                             ++ lit "-" ++ e)
      = lit "<UUID>") /\
  (forall h,
      (32 <= length h)%nat -> forallb hex_anycase h = true ->
      Capture.redact_id L h = lit "<HEX>").
Proof.
  split.
  - intros. now apply redact_uuid.
  - intros. now apply redact_hex.
Qed.

(* ================================================================== *)
(** * The further properties at work on concrete inputs                *)
(* ================================================================== *)

Lemma parse_tool_versions_stops_at_first_malformed_witness :
  Capture.parse_tool_versions (Some [lit "rust=1.80"; lit "oops"; lit "=x"])
  = Raise (Capture.tool_version_error (lit "oops")).
Proof.
  apply (@parse_tool_versions_stops_at_first_malformed
           [lit "rust=1.80"] (lit "oops") [lit "=x"]).
  - vm_compute. reflexivity.
  - vm_compute. reflexivity.
Defined.

Lemma parse_tool_versions_last_entry_wins_witness :
  dict_get [(lit "fixture_capture", JStr (lit "1.0.0"));
            (lit "rust", JStr (lit "1.81"))] (lit "rust")
  = JStr (lit "1.81").
Proof.
  apply (@parse_tool_versions_last_entry_wins
           [lit " rust = 1.80 "; lit "rust=1.81"]
           [(lit "fixture_capture", JStr (lit "1.0.0"));
            (lit "rust", JStr (lit "1.81"))] (lit "rust")).
  vm_compute. reflexivity.
Defined.

Lemma parsed_tool_versions_are_valid_witness :
  Fixture.validate_tool_versions
    [(lit "fixture_capture", JStr (lit "1.0.0")); (lit "rust", JStr (lit "1.81"))]
    [] = Ok [].
Proof.
  apply (@parsed_tool_versions_are_valid (Some [lit "rust=1.81"])).
  vm_compute. reflexivity.
Defined.

Lemma gathered_entries_validate_witness :
  Sample.gathered <> [] /\
  Forall (fun e => exists entry,
              e = JDict entry /\
              forall errs,
                Fixture.validate_artifact_entry Env.lib Env.fs entry
                                                Sample.base_dir errs = Ok errs)
         Sample.gathered.
Proof.
  split; [vm_compute; discriminate|].
  apply (@gathered_entries_validate Env.lib Env.os Env.fs Sample.base_dir []
                                    Sample.manifest_path None (lit "safe")).
  - intros p Hp. vm_compute in Hp.
    destruct Hp as [<-|[<-|[<-|[<-|[]]]]];
      (split; [vm_compute; discriminate|vm_compute; reflexivity]).
  - vm_compute. auto.
  - vm_compute. reflexivity.
Defined.

Lemma short_plain_values_pass_unchanged_witness :
  Capture.redact_cmdline Env.lib (lit "ls") = lit "ls" /\
  forall label errs,
    Fixture.check_redaction Env.lib (lit "ls") label errs = Ok errs.
Proof.
  apply (@short_plain_values_pass_unchanged Env.lib (lit "ls")).
  - cbn. lia.
  - reflexivity.
Defined.

Lemma built_manifest_is_accepted_witness :
  Fixture.validate_manifest Env.lib Env.fs (JDict Sample.fixture_manifest)
                            Sample.manifest_path Sample.schema_path = Ok [].
Proof.
  apply (@built_manifest_is_accepted
           Env.lib Env.fs (lit "fx-1") (lit "triage") None
           (lit "2026-01-31T12:00:00Z") (lit "manual")
           (Some [lit "ls"; lit "-l"]) None
           [(lit "fixture_capture", JStr (lit "1.0.0"))]
           (lit "safe") [JDict Sample.data_entry]).
  - vm_compute. reflexivity.
  - left. reflexivity.
  - vm_compute. reflexivity.
  - discriminate.
  - repeat constructor; intros label errs;
      apply short_plain_unflagged; (split; [cbn; lia|reflexivity]).
  - vm_compute. reflexivity.
  - vm_compute. auto.
  - discriminate.
  - repeat constructor. eexists. split; [reflexivity|].
    vm_compute. reflexivity.
Defined.

Lemma fixture_validator_raises_on_unhashable_profile_witness :
  Fixture.validate_manifest Env.lib Env.fs (JDict Sample.array_profile)
                            Sample.manifest_path Sample.schema_path
  = Raise TypeError.
Proof.
  apply fixture_validator_raises_on_unhashable_profile.
  - reflexivity.
  - intros message. discriminate.
Defined.

Lemma validate_jsonl_run_id_silent_iff_witness :
  E2E.validate_jsonl_run_id Env.lib Env.fs Sample.jsonl_entry Sample.base_dir
                            (lit "abc") [] = Ok [] <->
  Forall (line_agrees Env.lib (lit "abc"))
         [Env.line_abc ++ [10]; Env.line_xyz ++ [10]] /\
  @None exn = None.
Proof.
  apply (@validate_jsonl_run_id_silent_iff
           Env.lib Env.fs Sample.jsonl_entry Sample.base_dir (lit "abc")
           (lit "run.jsonl")
           (Env.regular (Env.line_abc ++ [10] ++ Env.line_xyz ++ [10])
                        [Env.line_abc ++ [10]; Env.line_xyz ++ [10]])).
  - reflexivity.
  - discriminate.
  - reflexivity.
Defined.

Lemma jsonl_check_raises_on_non_object_line_witness :
  E2E.validate_jsonl_run_id Env.lib fs_with_array_line Sample.jsonl_entry
                            Sample.base_dir (lit "abc") []
  = Raise AttributeError.
Proof.
  eapply (@jsonl_check_raises_on_non_object_line
            Env.lib fs_with_array_line Sample.jsonl_entry Sample.base_dir
            (lit "abc") (lit "run.jsonl") _ [] (lit "[]") []).
  - reflexivity.
  - discriminate.
  - reflexivity.
  - reflexivity.
  - constructor.
  - exists (JList []). split; [vm_compute; discriminate|].
    split; vm_compute; reflexivity.
Defined.

Lemma redact_path_hides_the_user_witness :
  Capture.redact_path Env.lib (lit "cat " ++ lit "/" ++ lit "Users" ++ lit "/"
                                   ++ lit "alice")
  = lit "cat " ++ lit "/home/USER" /\
  Capture.redact_path Env.lib (lit "cat " ++ lit "/" ++ lit "Users" ++ lit "/"
                                   ++ lit "alice" ++ lit "/" ++ lit "notes")
  = lit "cat " ++ lit "/home/USER/" ++ lit "notes".
Proof.
  apply redact_path_hides_the_user.
  - reflexivity.
  - now left.
  - discriminate.
  - reflexivity.
  - reflexivity.
Defined.
